(** * rhythmGame: a shallow embedding of [rhythmGame.py]

    The development follows the classes of the program: [Note],
    [DifficultyManager], [DataCollector], [NoteGenerator] and [Game], one
    module each, with the methods as functions on the record of the class's
    attributes.

    Modelling choices, all of them visible in the definitions below:
    - Python [int] is [Z]; Python [float] is modelled by the exact rationals
      [Q] (the positions and speeds the game produces are multiples of 1/2 and
      exact in binary floating point, wall-clock readings are idealised);
      equality of rationals is [==].
    - An exception is a value [Raise e] of the [result] type. An attribute
      that an object does not have yet raises [AttributeError];
      [pygame.event.get()] and the calls on the display surface raise
      [pygame.error] once [pygame.quit()] has run.
    - [time.time()] reads the next value of a stream of wall-clock readings
      that is part of the state of the running [Game].
    - What the player, the random generator and the pygame clock supply
      during a call is an argument of the call ([Input.t]); the files the
      collector writes are the lists of the rows appended to them. *)

From Stdlib Require Import ZArith QArith Qround Qabs Lia.
From stdpp Require Import base option list gmap strings.

(** ** Python values and exceptions *)

(** [pygame_error] is [pygame.error]. *)
Inductive PyError : Set :=
  | IndexError | KeyError | ValueError | TypeError | ZeroDivisionError | AttributeError
  | SystemExit | pygame_error.

Inductive result (A : Type) : Type :=
  | Ok (a : A)
  | Raise (e : PyError).
Arguments Ok {A} a.
Arguments Raise {A} e.

#[global] Instance result_ret : MRet result := fun _ a => Ok a.
#[global] Instance result_bind : MBind result := fun _ _ f r =>
  match r with Ok a => f a | Raise e => Raise e end.

#[global] Instance result_fmap : FMap result := fun _ _ f r =>
  match r with Ok a => Ok (f a) | Raise e => Raise e end.

(** [int(x)] of a float: truncation towards zero. *)
Definition py_int (q : Q) : Z := Z.quot (Qnum q) (Z.pos (Qden q)).

(** Truth value of a float ([if x:]): every number but zero. *)
Definition truthy (q : Q) : bool := negb (Qeq_bool q 0).

(** Truth value of an [Optional[float]]: [None] and [0.0] are both false. *)
Definition opt_truthy (o : option Q) : bool :=
  match o with Some q => truthy q | None => false end.

(** [round(x, 2)]: to the nearest hundredth, ties to even. *)
Definition round_half_even (q : Q) : Z :=
  let f := Qfloor q in
  let r := (q - inject_Z f)%Q in
  match (r ?= 1 # 2)%Q with
  | Lt => f
  | Gt => (f + 1)%Z
  | Eq => if Z.even f then f else (f + 1)%Z
  end.
Definition py_round2 (q : Q) : Q := (inject_Z (round_half_even (q * 100)) / 100)%Q.

(** [a // b] on integers. *)
Definition floordiv (a b : Z) : result Z :=
  if (b =? 0)%Z then Raise ZeroDivisionError else Ok (a / b)%Z.

(** [l[i]] on a list, with Python's negative indices. *)
Definition list_getitem {A} (l : list A) (i : Z) : result A :=
  let j := if (i <? 0)%Z then (i + Z.of_nat (length l))%Z else i in
  if (j <? 0)%Z then Raise IndexError
  else match l !! Z.to_nat j with
       | Some a => Ok a
       | None => Raise IndexError
       end.

(** [l.index(v)]: position of the first occurrence. *)
Fixpoint list_index (l : list string) (v : string) : result nat :=
  match l with
  | [] => Raise ValueError
  | k :: l' => if String.eqb k v then Ok O else S <$> list_index l' v
  end.

(** [d[k]] on a dict. *)
Definition dict_getitem {V} (d : gmap nat V) (k : nat) : result V :=
  match d !! k with Some v => Ok v | None => Raise KeyError end.

(** [{k: f(k) for k in range(n)}]. *)
Definition dict_of_range {V} (n : nat) (f : nat → V) : gmap nat V :=
  list_to_map ((fun k => (k, f k)) <$> seq 0 n).

(** ** Constants of the module *)

Class Constants := {
  WINDOW_WIDTH : Z;
  WINDOW_HEIGHT : Z;
  FPS : Z;
  KEYS : list string;
  GAME_DURATION : Q;
  LEVELS : Z;
  NOTE_WIDTH : Z;
  NOTE_HEIGHT : Z;
  BASIC_SPEED : Q;
  BLOCK_SPEED_ACCR : Q;
  LEVEL_SPEED_ACCR : Q;
  SPAWN_INTERVAL : Q
}.

Definition HIT_LINE_Y `{Constants} : Z := (WINDOW_HEIGHT - 100)%Z.

(** The values the program declares. *)
Definition rhythmGame : Constants := {|
  WINDOW_WIDTH := 800;
  WINDOW_HEIGHT := 600;
  FPS := 60;
  KEYS := ["D"; "F"; "J"; "K"]%string;
  GAME_DURATION := 70;
  LEVELS := 5;
  NOTE_WIDTH := 80;
  NOTE_HEIGHT := 40;
  BASIC_SPEED := 2;
  BLOCK_SPEED_ACCR := 0;
  LEVEL_SPEED_ACCR := 35 # 10;
  SPAWN_INTERVAL := 6 # 10
|}.

(** ** class Note *)

Inductive NoteState : Set := state_active | state_hit | state_missed.

#[global] Instance NoteState_eq_dec : EqDecision NoteState.
Proof. solve_decision. Defined.

Module Note.
Record t := mk {
    lane : nat;
    x : Z;
    y : Q;
    speed : Q;
    state : NoteState;
    hit_time : option Q;
    start_hit_time : option Q;
    miss_time : option Q
  }.

Definition __init__ `{Constants} (lane : nat) (speed : Q) (y : Q) : result t :=
    w ← floordiv WINDOW_WIDTH (Z.of_nat (length KEYS));
    m ← floordiv (w - NOTE_WIDTH) 2;
    Ok (mk lane (w * Z.of_nat lane + m) y speed state_active None None None).

Definition set_y (v : Q) (n : t) : t :=
    mk (lane n) (x n) v (speed n) (state n) (hit_time n) (start_hit_time n) (miss_time n).
Definition set_state (v : NoteState) (n : t) : t :=
    mk (lane n) (x n) (y n) (speed n) v (hit_time n) (start_hit_time n) (miss_time n).
Definition set_hit_time (v : option Q) (n : t) : t :=
    mk (lane n) (x n) (y n) (speed n) (state n) v (start_hit_time n) (miss_time n).
Definition set_start_hit_time (v : option Q) (n : t) : t :=
    mk (lane n) (x n) (y n) (speed n) (state n) (hit_time n) v (miss_time n).
Definition set_miss_time (v : option Q) (n : t) : t :=
    mk (lane n) (x n) (y n) (speed n) (state n) (hit_time n) (start_hit_time n) v.
End Note.

(** ** class DifficultyManager *)

Module Level.
(** One entry of [levels]: the dict [{'speed': s, 'acceleration': a}]. *)
Record t := mk { speed : Q; acceleration : Q }.
End Level.

Module DifficultyManager.
Record t := mk {
    levels : list Level.t;
    current_level : Z;
    current_speed : Q;
    current_acceleration : Q
  }.

Definition __init__ : t := mk [] 1 2 0.

Definition set_levels (lv : list Level.t) (self : t) : t :=
    mk lv (current_level self) (current_speed self) (current_acceleration self).

Definition set_level (level : Z) (self : t) : result t :=
    let self := mk (levels self) level (current_speed self) (current_acceleration self) in
    if (level <=? Z.of_nat (length (levels self)))%Z then
      l ← list_getitem (levels self) (level - 1);
      let self := mk (levels self) (current_level self) (Level.speed l) (current_acceleration self) in
      l ← list_getitem (levels self) (level - 1);
      Ok (mk (levels self) (current_level self) (current_speed self) (Level.acceleration l))
    else
      Ok self.

Definition get_speed (elapsed_time : Q) (self : t) : Q := current_speed self.
End DifficultyManager.

(** ** class DataCollector *)

Inductive HitStatus : Set :=
  | status_hit | status_miss | status_duplicated | status_incorrect.

#[global] Instance HitStatus_eq_dec : EqDecision HitStatus.
Proof. solve_decision. Defined.

Module Data.
(** The dict [data] that [record_hit] builds: one judgment event. *)
Record t := mk {
  timestamp : Z;
  level : Z;
  lane : nat;
  hit_status : HitStatus;
  reaction_time : option Z;
  reaction_distance : option Z;
  speed : Q
}.
End Data.

Module Feedback.
(** One row of the feedback file ([datetime.now()] left out). *)
Record t := mk {
  level : Z;
  feedback : list Z;
  game_duration : Q;
  exited : bool
}.
End Feedback.

Module Analysis.
(** One row of the analysis file ([datetime.now()] left out). *)
Record t := mk {
  level : Z;
  hit_rate : Q;
  lane_hit_rates : gmap nat Q;
  avg_reaction_time : Q;
  avg_lane_reaction_times : gmap nat Q;
  incorrect_hit_rate : Q;
  lane_incorrect_hit_rates : gmap nat Q;
  game_duration : Q;
  exit_rate : Z
}.
End Analysis.

(** [for a in l: body], threading the loop's variables [s]. *)
Fixpoint for_in {A S} (l : list A) (body : A → S → result S) (s : S) : result S :=
  match l with
  | [] => Ok s
  | a :: l' => s' ← body a s; for_in l' body s'
  end.

(** [sum(1 for d in l if f(d))]. *)
Fixpoint count_if {A} (f : A → bool) (l : list A) : Z :=
  match l with
  | [] => 0
  | a :: l' => ((if f a then 1 else 0) + count_if f l')%Z
  end.

(** [a / b] on two integers: true division. *)
Definition truediv (a b : Z) : Q := (inject_Z a / inject_Z b)%Q.

(** [d[k] += 1]. *)
Definition dict_incr (d : gmap nat Z) (k : nat) : result (gmap nat Z) :=
  v ← dict_getitem d k; Ok (<[k := (v + 1)%Z]> d).

(** [d[k].append(v)]. *)
Definition dict_append (d : gmap nat (list Z)) (k : nat) (v : Z) : result (gmap nat (list Z)) :=
  l ← dict_getitem d k; Ok (<[k := l ++ [v]]> d).

(** [{k: f(k) for k in ks}] where [f] reads other dicts: the keys are
    stored one after the other, a later one replacing an earlier one. *)
Definition dict_comprehension {V} (ks : list nat) (f : nat → result V) : result (gmap nat V) :=
  for_in ks (fun k d => v ← f k; Ok (<[k := v]> d)) ∅.

Definition sum_Z (l : list Z) : Z := foldr Z.add 0%Z l.

Module DataCollector.
Record t := mk {
  player_name : option string;
  mode : option string;
  session_data : list Data.t;
  start_time : Q;
  level : Z;
  (* the three CSV files, as the rows appended so far *)
  event_rows : list Data.t;
  feedback_rows : list Feedback.t;
  analysis_rows : list Analysis.t
}.

Definition __init__ (now : Q) (player_name mode : option string) : t :=
  mk player_name mode [] now 1 [] [] [].

Definition append_event (data : Data.t) (self : t) : t :=
  mk (player_name self) (mode self) (session_data self ++ [data]) (start_time self)
     (level self) (event_rows self ++ [data]) (feedback_rows self) (analysis_rows self).
Definition append_feedback (row : Feedback.t) (self : t) : t :=
  mk (player_name self) (mode self) (session_data self) (start_time self)
     (level self) (event_rows self) (feedback_rows self ++ [row]) (analysis_rows self).
Definition append_analysis (row : Analysis.t) (self : t) : t :=
  mk (player_name self) (mode self) (session_data self) (start_time self)
     (level self) (event_rows self) (feedback_rows self) (analysis_rows self ++ [row]).
Definition set_level (v : Z) (self : t) : t :=
  mk (player_name self) (mode self) (session_data self) (start_time self)
     v (event_rows self) (feedback_rows self) (analysis_rows self).
Definition set_session_data (v : list Data.t) (self : t) : t :=
  mk (player_name self) (mode self) v (start_time self)
     (level self) (event_rows self) (feedback_rows self) (analysis_rows self).

Definition record_hit `{Constants} (now : Q) (note : Note.t) (level : Z)
    (hit_status : HitStatus) (self : t) : t :=
  let timestamp := (now - start_time self)%Q in
  let reaction_time :=
    match Note.hit_time note, Note.start_hit_time note with
    | Some h, Some s => if truthy h && truthy s then Some (h - s)%Q else None
    | _, _ => None
    end in
  let reaction_distance :=
    if opt_truthy (Note.hit_time note)
    then Some (Qabs (Note.y note - inject_Z HIT_LINE_Y))
    else None in
  let data := {|
    Data.timestamp := py_int (timestamp * 1000);
    Data.level := level;
    Data.lane := Note.lane note;
    Data.hit_status := hit_status;
    Data.reaction_time :=
      match reaction_time with
      | Some r => if truthy r then Some (py_int (r * 1000)) else None
      | None => None
      end;
    Data.reaction_distance :=
      match reaction_distance with
      | Some r => if truthy r then Some (py_int r) else None
      | None => None
      end;
    Data.speed := py_round2 (Note.speed note)
  |} in
  append_event data self.

Definition save_feedback (level : Z) (feedback : list Z) (total_time : Q) (exited : bool)
    (self : t) : t :=
  append_feedback (Feedback.mk level feedback total_time exited) (set_level level self).

Definition is_status (s : HitStatus) (d : Data.t) : bool :=
  bool_decide (Data.hit_status d = s).
Definition status_in (l : list HitStatus) (d : Data.t) : bool :=
  bool_decide (Data.hit_status d ∈ l).

(** Body of the loop that fills [lane_hits] and [lane_totals]. *)
Definition tally_hit (d : Data.t) (acc : gmap nat Z * gmap nat Z)
    : result (gmap nat Z * gmap nat Z) :=
  let '(lane_hits, lane_totals) := acc in
  if status_in [status_hit; status_miss] d then
    lane_totals ← dict_incr lane_totals (Data.lane d);
    if is_status status_hit d then
      lane_hits ← dict_incr lane_hits (Data.lane d);
      Ok (lane_hits, lane_totals)
    else Ok (lane_hits, lane_totals)
  else Ok (lane_hits, lane_totals).

(** Body of the loop that fills [lane_reaction_times]. *)
Definition tally_reaction (d : Data.t) (lane_reaction_times : gmap nat (list Z))
    : result (gmap nat (list Z)) :=
  match Data.reaction_time d with
  | Some r => dict_append lane_reaction_times (Data.lane d) r
  | None => Ok lane_reaction_times
  end.

(** Body of the loop that fills [lane_incorrect_hits] and [lane_effective_hits]. *)
Definition tally_incorrect (d : Data.t) (acc : gmap nat Z * gmap nat Z)
    : result (gmap nat Z * gmap nat Z) :=
  let '(lane_incorrect_hits, lane_effective_hits) := acc in
  if status_in [status_hit; status_incorrect] d then
    lane_effective_hits ← dict_incr lane_effective_hits (Data.lane d);
    if is_status status_incorrect d then
      lane_incorrect_hits ← dict_incr lane_incorrect_hits (Data.lane d);
      Ok (lane_incorrect_hits, lane_effective_hits)
    else Ok (lane_incorrect_hits, lane_effective_hits)
  else Ok (lane_incorrect_hits, lane_effective_hits).

(** [num[lane] / den[lane] if den[lane] > 0 else 0]. *)
Definition lane_rate (num den : gmap nat Z) (lane : nat) : result Q :=
  t ← dict_getitem den lane;
  if (0 <? t)%Z then h ← dict_getitem num lane; Ok (truediv h t) else Ok 0%Q.

(** [sum(times) / len(times) if times else 0]. *)
Definition average (times : list Z) : Q :=
  match times with
  | [] => 0%Q
  | _ => truediv (sum_Z times) (Z.of_nat (length times))
  end.

Definition analyze_data `{Constants} (total_time : Q) (exited : bool) (self : t) : result t :=
  let lanes := seq 0 (length KEYS) in
  let zeros : gmap nat Z := dict_of_range (length KEYS) (fun _ => 0%Z) in
  let total_hits := count_if (is_status status_hit) (session_data self) in
  let total_notes := count_if (status_in [status_hit; status_miss]) (session_data self) in
  let hit_rate := if (0 <? total_notes)%Z then truediv total_hits total_notes else 0%Q in
  '(lane_hits, lane_totals) ← for_in (session_data self) tally_hit (zeros, zeros);
  lane_hit_rates ← dict_comprehension lanes (lane_rate lane_hits lane_totals);
  let reaction_times := omap Data.reaction_time (session_data self) in
  let avg_reaction_time := average reaction_times in
  lane_reaction_times ←
    for_in (session_data self) tally_reaction (dict_of_range (length KEYS) (fun _ => []));
  let avg_lane_reaction_times := average <$> lane_reaction_times in
  let total_incorrect_hits := count_if (is_status status_incorrect) (session_data self) in
  let total_effective_hits := (total_hits + total_incorrect_hits)%Z in
  let incorrect_hit_rate :=
    if (0 <? total_effective_hits)%Z
    then truediv total_incorrect_hits total_effective_hits else 0%Q in
  '(lane_incorrect_hits, lane_effective_hits) ←
    for_in (session_data self) tally_incorrect (zeros, zeros);
  lane_incorrect_hit_rates ←
    dict_comprehension lanes (lane_rate lane_incorrect_hits lane_effective_hits);
  let game_duration := total_time in
  let exit_rate := if exited then 1%Z else 0%Z in
  let row := {|
    Analysis.level := level self;
    Analysis.hit_rate := hit_rate;
    Analysis.lane_hit_rates := lane_hit_rates;
    Analysis.avg_reaction_time := avg_reaction_time;
    Analysis.avg_lane_reaction_times := avg_lane_reaction_times;
    Analysis.incorrect_hit_rate := incorrect_hit_rate;
    Analysis.lane_incorrect_hit_rates := lane_incorrect_hit_rates;
    Analysis.game_duration := game_duration;
    Analysis.exit_rate := exit_rate
  |} in
  Ok (set_session_data [] (append_analysis row self)).
End DataCollector.

(** ** class NoteGenerator *)

(** [random.randint(a, b)]; [draw] is what the generator produces this time. *)
Definition random_randint (draw : nat) (a b : Z) : result Z :=
  if (b <? a)%Z then Raise ValueError
  else Ok (a + Z.of_nat draw mod (b - a + 1))%Z.

Module NoteGenerator.
(** The attribute [difficulty_manager] is the object that [Game] holds as
    well: it lives in [Game.t] and is passed to [update]. *)
Record t := mk {
  notes : list Note.t;
  last_spawn_time : Q;
  spawn_interval : Q
}.

Definition __init__ `{Constants} : t := mk [] 0 SPAWN_INTERVAL.

Definition set_notes (v : list Note.t) (self : t) : t :=
  mk v (last_spawn_time self) (spawn_interval self).

Definition update `{Constants} (difficulty_manager : DifficultyManager.t) (draw : nat)
    (current_time : Q) (self : t) : result t :=
  let speed := DifficultyManager.get_speed current_time difficulty_manager in
  if Qle_bool (spawn_interval self) (current_time - last_spawn_time self) then
    lane ← random_randint draw 0 (Z.of_nat (length KEYS) - 1);
    note ← Note.__init__ (Z.to_nat lane) speed 0;
    Ok (mk (notes self ++ [note]) current_time (spawn_interval self))
  else Ok self.
End NoteGenerator.

(** ** What the outside world supplies during one call *)

Module Input.
(** How the loop of [show_feedback] ends. *)
Inductive Questionnaire : Type :=
  (* the questions are used up: the ratings typed *)
  | rated (answers : list Z)
  (* a key whose [event.unicode] is [''] is pressed: [int('')] raises *)
  | empty_unicode
  (* the window is closed: [pygame.quit()], then [return] *)
  | window_closed.

Record t := mk {
  (* answer to [confirm_action]: [None] when the window is closed instead *)
  confirm : option bool;
  (* the end of the questionnaire of [show_feedback] *)
  feedback : Questionnaire;
  (* the name typed in [get_player_name]: [None] when the window is closed *)
  typed_name : option string;
  (* the permutation [random.shuffle] applies *)
  shuffle : list Level.t → list Level.t;
  (* the value [random.randint] draws *)
  draw : nat;
  (* [self.clock.get_time()], milliseconds *)
  get_time : Z
}.

(** The ratings that [show_feedback] saves, when its loop comes to its end. *)
Definition answers (inp : t) : option (list Z) :=
  match feedback inp with
  | rated answers => Some answers
  | _ => None
  end.
End Input.

(** ** class Game *)

(** The keys [handle_input] tells apart; any other key is [K_other] with the
    name [pygame.key.name] gives it (["d"], ["f"], ...). *)
Inductive Key : Set :=
  | K_SPACE | K_s | K_m | K_q | K_1 | K_2
  | K_other (name : string).

(** The events of [pygame.event.get()]. *)

Inductive Event : Set :=
  | QUIT
  | KEYDOWN (key : Key)
  | OTHER.

#[global] Instance Key_eq_dec : EqDecision Key.
Proof. solve_decision. Defined.

Definition upper_ascii (c : Ascii.ascii) : Ascii.ascii :=
  let n := Ascii.nat_of_ascii c in
  if (97 <=? n)%nat && (n <=? 122)%nat then Ascii.ascii_of_nat (n - 32) else c.
Fixpoint upper (s : string) : string :=
  match s with
  | EmptyString => EmptyString
  | String c s' => String (upper_ascii c) (upper s')
  end.

(** [pygame.key.name(key)]. *)
Definition key_name (k : Key) : string :=
  match k with
  | K_SPACE => "space" | K_s => "s" | K_m => "m" | K_q => "q"
  | K_1 => "1" | K_2 => "2" | K_other name => name
  end.

(** ** class Game, before [init_game] has run *)

Module Fresh.
(** The attributes that [__init__] creates, with the state of the process
    as in [Game.t]. *)
Record t := mk {
  mode : option string;
  player_name : option string;
  running : bool;
  paused : bool;
  in_menu : bool;
  game_over : bool;
  wall : nat → Q;
  reads : nat;
  pygame_quit : bool
}.

Definition set_mode (v : option string) (self : t) : t :=
  mk v (player_name self) (running self) (paused self) (in_menu self) (game_over self) (wall self) (reads self) (pygame_quit self).
Definition set_player_name (v : option string) (self : t) : t :=
  mk (mode self) v (running self) (paused self) (in_menu self) (game_over self) (wall self) (reads self) (pygame_quit self).
Definition set_running (v : bool) (self : t) : t :=
  mk (mode self) (player_name self) v (paused self) (in_menu self) (game_over self) (wall self) (reads self) (pygame_quit self).
Definition set_paused (v : bool) (self : t) : t :=
  mk (mode self) (player_name self) (running self) v (in_menu self) (game_over self) (wall self) (reads self) (pygame_quit self).
Definition set_in_menu (v : bool) (self : t) : t :=
  mk (mode self) (player_name self) (running self) (paused self) v (game_over self) (wall self) (reads self) (pygame_quit self).
Definition set_game_over (v : bool) (self : t) : t :=
  mk (mode self) (player_name self) (running self) (paused self) (in_menu self) v (wall self) (reads self) (pygame_quit self).
Definition set_reads (v : nat) (self : t) : t :=
  mk (mode self) (player_name self) (running self) (paused self) (in_menu self) (game_over self) (wall self) v (pygame_quit self).
Definition set_pygame_quit (v : bool) (self : t) : t :=
  mk (mode self) (player_name self) (running self) (paused self) (in_menu self) (game_over self) (wall self) (reads self) v.

(** [confirm_action], which uses no attribute of the game. *)
Definition confirm_action (inp : Input.t) (f : t) : result bool :=
  if pygame_quit f then Raise pygame_error
  else match Input.confirm inp with
       | Some confirmed => Ok confirmed
       | None => Raise SystemExit
       end.

Definition get_player_name (inp : Input.t) (f : t) : result t :=
  if pygame_quit f then Raise pygame_error
  else match Input.typed_name inp with
       | Some name =>
         Ok (set_player_name
               (Some (if bool_decide (name = ""%string) then "Player"%string else name)) f)
       | None => Ok (set_pygame_quit true f)
       end.

(** [show_feedback]: after the questionnaire, [self.current_time] does not
    exist. *)
Definition show_feedback (inp : Input.t) (f : t) : result t :=
  if pygame_quit f then Raise pygame_error
  else match Input.feedback inp with
       | Input.empty_unicode => Raise ValueError
       | Input.window_closed => Ok (set_pygame_quit true f)
       | Input.rated _ => Raise AttributeError
       end.

(** [skip_level]: [self.current_level] does not exist. *)
Definition skip_level (inp : Input.t) (f : t) : result t :=
  _ ← show_feedback inp f;
  Raise AttributeError.

Definition return_to_menu (inp : Input.t) (f : t) : result t :=
  f ← show_feedback inp f;
  Ok (set_game_over true (set_in_menu true f)).

(** The branch of [handle_input] for the space bar. Pausing reads the clock
    and creates [pause_start_time], which no method reads before
    [init_game] assigns it again; resuming comes to
    [self.total_paused_time], which does not exist. *)
Definition toggle_pause (f : t) : result t :=
  if negb (in_menu f) && negb (game_over f) then
    let f := set_paused (negb (paused f)) f in
    if paused f then Ok (set_reads (S (reads f)) f)
    else Raise AttributeError
  else Ok f.

(** [update]: [self.start_time] does not exist. *)
Definition update (f : t) : result t :=
  if negb (paused f) && negb (in_menu f) && negb (game_over f) then Raise AttributeError
  else Ok f.
End Fresh.

(** ** class Game, once [init_game] has run *)

Module Game.
(** The attributes of a [Game] whose [init_game] has run, and the state of
    the process: [wall i] is what the [i]-th call of [time.time()] returns,
    [reads] counts the calls made so far, [pygame_quit] tells that
    [pygame.quit()] has been called. The object that [__init__] leaves,
    which has fewer attributes, is a [Fresh.t]. *)
Record t := mk {
  mode : option string;
  player_name : option string;
  running : bool;
  paused : bool;
  in_menu : bool;
  game_over : bool;
  difficulty_manager : DifficultyManager.t;
  current_level : Z;
  note_generator : NoteGenerator.t;
  data_collector : DataCollector.t;
  start_time : Q;
  combo : Z;
  hits : Z;
  incorrect_hits : Z;
  total_notes : Z;
  hit_line_flash_timer : Q;
  pause_start_time : option Q;
  total_paused_time : Q;
  current_time : Q;
  wall : nat → Q;
  reads : nat;
  pygame_quit : bool
}.

Definition set_mode (v : option string) (self : t) : t :=
  mk v (player_name self) (running self) (paused self) (in_menu self) (game_over self) (difficulty_manager self) (current_level self) (note_generator self) (data_collector self) (start_time self) (combo self) (hits self) (incorrect_hits self) (total_notes self) (hit_line_flash_timer self) (pause_start_time self) (total_paused_time self) (current_time self) (wall self) (reads self) (pygame_quit self).
Definition set_player_name (v : option string) (self : t) : t :=
  mk (mode self) v (running self) (paused self) (in_menu self) (game_over self) (difficulty_manager self) (current_level self) (note_generator self) (data_collector self) (start_time self) (combo self) (hits self) (incorrect_hits self) (total_notes self) (hit_line_flash_timer self) (pause_start_time self) (total_paused_time self) (current_time self) (wall self) (reads self) (pygame_quit self).
Definition set_running (v : bool) (self : t) : t :=
  mk (mode self) (player_name self) v (paused self) (in_menu self) (game_over self) (difficulty_manager self) (current_level self) (note_generator self) (data_collector self) (start_time self) (combo self) (hits self) (incorrect_hits self) (total_notes self) (hit_line_flash_timer self) (pause_start_time self) (total_paused_time self) (current_time self) (wall self) (reads self) (pygame_quit self).
Definition set_paused (v : bool) (self : t) : t :=
  mk (mode self) (player_name self) (running self) v (in_menu self) (game_over self) (difficulty_manager self) (current_level self) (note_generator self) (data_collector self) (start_time self) (combo self) (hits self) (incorrect_hits self) (total_notes self) (hit_line_flash_timer self) (pause_start_time self) (total_paused_time self) (current_time self) (wall self) (reads self) (pygame_quit self).
Definition set_in_menu (v : bool) (self : t) : t :=
  mk (mode self) (player_name self) (running self) (paused self) v (game_over self) (difficulty_manager self) (current_level self) (note_generator self) (data_collector self) (start_time self) (combo self) (hits self) (incorrect_hits self) (total_notes self) (hit_line_flash_timer self) (pause_start_time self) (total_paused_time self) (current_time self) (wall self) (reads self) (pygame_quit self).
Definition set_game_over (v : bool) (self : t) : t :=
  mk (mode self) (player_name self) (running self) (paused self) (in_menu self) v (difficulty_manager self) (current_level self) (note_generator self) (data_collector self) (start_time self) (combo self) (hits self) (incorrect_hits self) (total_notes self) (hit_line_flash_timer self) (pause_start_time self) (total_paused_time self) (current_time self) (wall self) (reads self) (pygame_quit self).
Definition set_difficulty_manager (v : DifficultyManager.t) (self : t) : t :=
  mk (mode self) (player_name self) (running self) (paused self) (in_menu self) (game_over self) v (current_level self) (note_generator self) (data_collector self) (start_time self) (combo self) (hits self) (incorrect_hits self) (total_notes self) (hit_line_flash_timer self) (pause_start_time self) (total_paused_time self) (current_time self) (wall self) (reads self) (pygame_quit self).
Definition set_current_level (v : Z) (self : t) : t :=
  mk (mode self) (player_name self) (running self) (paused self) (in_menu self) (game_over self) (difficulty_manager self) v (note_generator self) (data_collector self) (start_time self) (combo self) (hits self) (incorrect_hits self) (total_notes self) (hit_line_flash_timer self) (pause_start_time self) (total_paused_time self) (current_time self) (wall self) (reads self) (pygame_quit self).
Definition set_note_generator (v : NoteGenerator.t) (self : t) : t :=
  mk (mode self) (player_name self) (running self) (paused self) (in_menu self) (game_over self) (difficulty_manager self) (current_level self) v (data_collector self) (start_time self) (combo self) (hits self) (incorrect_hits self) (total_notes self) (hit_line_flash_timer self) (pause_start_time self) (total_paused_time self) (current_time self) (wall self) (reads self) (pygame_quit self).
Definition set_data_collector (v : DataCollector.t) (self : t) : t :=
  mk (mode self) (player_name self) (running self) (paused self) (in_menu self) (game_over self) (difficulty_manager self) (current_level self) (note_generator self) v (start_time self) (combo self) (hits self) (incorrect_hits self) (total_notes self) (hit_line_flash_timer self) (pause_start_time self) (total_paused_time self) (current_time self) (wall self) (reads self) (pygame_quit self).
Definition set_start_time (v : Q) (self : t) : t :=
  mk (mode self) (player_name self) (running self) (paused self) (in_menu self) (game_over self) (difficulty_manager self) (current_level self) (note_generator self) (data_collector self) v (combo self) (hits self) (incorrect_hits self) (total_notes self) (hit_line_flash_timer self) (pause_start_time self) (total_paused_time self) (current_time self) (wall self) (reads self) (pygame_quit self).
Definition set_combo (v : Z) (self : t) : t :=
  mk (mode self) (player_name self) (running self) (paused self) (in_menu self) (game_over self) (difficulty_manager self) (current_level self) (note_generator self) (data_collector self) (start_time self) v (hits self) (incorrect_hits self) (total_notes self) (hit_line_flash_timer self) (pause_start_time self) (total_paused_time self) (current_time self) (wall self) (reads self) (pygame_quit self).
Definition set_hits (v : Z) (self : t) : t :=
  mk (mode self) (player_name self) (running self) (paused self) (in_menu self) (game_over self) (difficulty_manager self) (current_level self) (note_generator self) (data_collector self) (start_time self) (combo self) v (incorrect_hits self) (total_notes self) (hit_line_flash_timer self) (pause_start_time self) (total_paused_time self) (current_time self) (wall self) (reads self) (pygame_quit self).
Definition set_incorrect_hits (v : Z) (self : t) : t :=
  mk (mode self) (player_name self) (running self) (paused self) (in_menu self) (game_over self) (difficulty_manager self) (current_level self) (note_generator self) (data_collector self) (start_time self) (combo self) (hits self) v (total_notes self) (hit_line_flash_timer self) (pause_start_time self) (total_paused_time self) (current_time self) (wall self) (reads self) (pygame_quit self).
Definition set_total_notes (v : Z) (self : t) : t :=
  mk (mode self) (player_name self) (running self) (paused self) (in_menu self) (game_over self) (difficulty_manager self) (current_level self) (note_generator self) (data_collector self) (start_time self) (combo self) (hits self) (incorrect_hits self) v (hit_line_flash_timer self) (pause_start_time self) (total_paused_time self) (current_time self) (wall self) (reads self) (pygame_quit self).
Definition set_hit_line_flash_timer (v : Q) (self : t) : t :=
  mk (mode self) (player_name self) (running self) (paused self) (in_menu self) (game_over self) (difficulty_manager self) (current_level self) (note_generator self) (data_collector self) (start_time self) (combo self) (hits self) (incorrect_hits self) (total_notes self) v (pause_start_time self) (total_paused_time self) (current_time self) (wall self) (reads self) (pygame_quit self).
Definition set_pause_start_time (v : option Q) (self : t) : t :=
  mk (mode self) (player_name self) (running self) (paused self) (in_menu self) (game_over self) (difficulty_manager self) (current_level self) (note_generator self) (data_collector self) (start_time self) (combo self) (hits self) (incorrect_hits self) (total_notes self) (hit_line_flash_timer self) v (total_paused_time self) (current_time self) (wall self) (reads self) (pygame_quit self).
Definition set_total_paused_time (v : Q) (self : t) : t :=
  mk (mode self) (player_name self) (running self) (paused self) (in_menu self) (game_over self) (difficulty_manager self) (current_level self) (note_generator self) (data_collector self) (start_time self) (combo self) (hits self) (incorrect_hits self) (total_notes self) (hit_line_flash_timer self) (pause_start_time self) v (current_time self) (wall self) (reads self) (pygame_quit self).
Definition set_current_time (v : Q) (self : t) : t :=
  mk (mode self) (player_name self) (running self) (paused self) (in_menu self) (game_over self) (difficulty_manager self) (current_level self) (note_generator self) (data_collector self) (start_time self) (combo self) (hits self) (incorrect_hits self) (total_notes self) (hit_line_flash_timer self) (pause_start_time self) (total_paused_time self) v (wall self) (reads self) (pygame_quit self).
Definition set_reads (v : nat) (self : t) : t :=
  mk (mode self) (player_name self) (running self) (paused self) (in_menu self) (game_over self) (difficulty_manager self) (current_level self) (note_generator self) (data_collector self) (start_time self) (combo self) (hits self) (incorrect_hits self) (total_notes self) (hit_line_flash_timer self) (pause_start_time self) (total_paused_time self) (current_time self) (wall self) v (pygame_quit self).
Definition set_pygame_quit (v : bool) (self : t) : t :=
  mk (mode self) (player_name self) (running self) (paused self) (in_menu self) (game_over self) (difficulty_manager self) (current_level self) (note_generator self) (data_collector self) (start_time self) (combo self) (hits self) (incorrect_hits self) (total_notes self) (hit_line_flash_timer self) (pause_start_time self) (total_paused_time self) (current_time self) (wall self) (reads self) v.

(** Methods run in a state-and-exception monad over [t]. *)
Definition M (A : Type) : Type := t → result (A * t).

#[global] Instance M_ret : MRet M := fun _ a g => Ok (a, g).
#[global] Instance M_bind : MBind M := fun _ _ f m g =>
  match m g with Ok (a, g') => f a g' | Raise e => Raise e end.

Definition get : M t := fun g => Ok (g, g).
Definition modify (f : t → t) : M unit := fun g => Ok (tt, f g).
Definition raise {A} (e : PyError) : M A := fun _ => Raise e.
Definition lift {A} (r : result A) : M A := fun g =>
  match r with Ok a => Ok (a, g) | Raise e => Raise e end.

(** [time.time()]. *)
Definition time_time : M Q := fun g => Ok (wall g (reads g), set_reads (S (reads g)) g).

(** [pygame.event.get()], or a call on the display surface [self.screen]. *)
Definition pygame_call : M unit := fun g =>
  if pygame_quit g then Raise pygame_error else Ok (tt, g).

(** The live list [self.note_generator.notes]. *)
Definition notes (g : t) : list Note.t := NoteGenerator.notes (note_generator g).
Definition set_notes (v : list Note.t) (g : t) : t :=
  set_note_generator (NoteGenerator.set_notes v (note_generator g)) g.

(** [self.data_collector.record_hit(note, level, hit_status)]. *)
Definition record_hit `{Constants} (note : Note.t) (level : Z) (hit_status : HitStatus)
    : M unit :=
  now ← time_time;
  modify (fun g =>
    set_data_collector (DataCollector.record_hit now note level hit_status (data_collector g)) g).

(** The list [levels] that the [for i in range(LEVELS)] loop of [init_game] builds. *)
Definition level_speeds `{Constants} : list Level.t :=
  let base_speed := BASIC_SPEED in
  (fun i => Level.mk (base_speed + inject_Z (Z.of_nat i) * LEVEL_SPEED_ACCR) BLOCK_SPEED_ACCR)
    <$> seq 0 (Z.to_nat LEVELS).

Definition init_game `{Constants} (inp : Input.t) : M unit :=
  g ← get;
  let difficulty_manager := DifficultyManager.__init__ in
  let current_level := 1%Z in
  let levels := level_speeds in
  let levels :=
    if bool_decide (mode g = Some "normal"%string) then levels
    else if bool_decide (mode g = Some "test"%string) then Input.shuffle inp levels
    else [] in
  let difficulty_manager := DifficultyManager.set_levels levels difficulty_manager in
  difficulty_manager ← lift (DifficultyManager.set_level current_level difficulty_manager);
  let note_generator := NoteGenerator.__init__ in
  now ← time_time;
  let data_collector := DataCollector.__init__ now (player_name g) (mode g) in
  start_time ← time_time;
  modify (fun g =>
    mk (mode g) (player_name g) (running g) false (in_menu g) false
       difficulty_manager current_level note_generator data_collector
       start_time 0 0 0 0 0 None 0 0 (wall g) (reads g) (pygame_quit g)).

(** [HIT_LINE_Y - NOTE_HEIGHT <= note.y <= HIT_LINE_Y]. *)
Definition in_window `{Constants} (note : Note.t) : bool :=
  Qle_bool (inject_Z (HIT_LINE_Y - NOTE_HEIGHT)) (Note.y note)
  && Qle_bool (Note.y note) (inject_Z HIT_LINE_Y).

(** The [for note in self.note_generator.notes[:]] loop of [handle_note_hit],
    on the part [snapshot] of the copy still to visit; [i] is the position
    of its head in the live list. The result is [(hit, duplicate)]. The
    notes are distinct objects, so [notes.remove(note)] takes out the one at
    position [i]. *)
Fixpoint handle_note_hit_loop `{Constants} (lane : nat) (i : nat) (snapshot : list Note.t)
    : M (bool * bool) :=
  match snapshot with
  | [] => mret (false, false)
  | note :: rest =>
    if bool_decide (Note.lane note = lane) && bool_decide (Note.state note = state_active) then
      if in_window note then
        let note := Note.set_state state_hit note in
        now ← time_time;
        let note := Note.set_hit_time (Some now) note in
        modify (fun g => set_combo (combo g + 1) g);;
        modify (fun g => set_hits (hits g + 1) g);;
        modify (fun g => set_total_notes (total_notes g + 1) g);;
        g ← get;
        record_hit note (current_level g) status_hit;;
        modify (fun g => set_notes (delete i (notes g)) g);;
        mret (true, false)
      else if bool_decide (Note.state note = state_hit) then
        g ← get;
        record_hit note (current_level g) status_duplicated;;
        mret (false, true)
      else handle_note_hit_loop lane (S i) rest
    else handle_note_hit_loop lane (S i) rest
  end.

Definition handle_note_hit `{Constants} (key : string) : M unit :=
  lane ← lift (list_index KEYS key);
  g ← get;
  '(hit, duplicate) ← handle_note_hit_loop lane 0 (notes g);
  if negb hit && negb duplicate then
    modify (set_combo 0);;
    g ← get;
    dummy_note ← lift (Note.__init__ lane (DifficultyManager.current_speed (difficulty_manager g))
                                     (inject_Z HIT_LINE_Y));
    now ← time_time;
    let dummy_note := Note.set_hit_time (Some now) dummy_note in
    record_hit dummy_note (current_level g) status_incorrect;;
    modify (fun g => set_incorrect_hits (incorrect_hits g + 1) g);;
    modify (set_hit_line_flash_timer (2 # 10))
  else mret tt.

(** Body of the [for note in self.note_generator.notes[:]] loop of [update]
    for the element [note] of the copy; [i] is its position in the live
    list, the result the position of the next element of the copy (the same
    position when [note] has been removed). *)
Definition update_note `{Constants} (i : nat) (note : Note.t) : M nat :=
  match Note.state note with
  | state_active =>
    let note := Note.set_y (Note.y note + Note.speed note) note in
    note ←
      (match Note.start_hit_time note with
       | None =>
         if Qle_bool (inject_Z (HIT_LINE_Y - NOTE_HEIGHT)) (Note.y note) then
           now ← time_time; mret (Note.set_start_hit_time (Some now) note)
         else mret note
       | Some _ => mret note
       end);
    note ←
      (if negb (Qle_bool (Note.y note) (inject_Z HIT_LINE_Y))
          && bool_decide (Note.state note = state_active) then
         let note := Note.set_state state_missed note in
         now ← time_time;
         let note := Note.set_miss_time (Some now) note in
         modify (set_combo 0);;
         g ← get;
         record_hit note (current_level g) status_miss;;
         modify (fun g => set_total_notes (total_notes g + 1) g);;
         mret note
       else mret note);
    modify (fun g => set_notes (<[i := note]> (notes g)) g);;
    mret (S i)
  | state_missed =>
    now ← time_time;
    match Note.miss_time note with
    | None => raise TypeError
    | Some miss_time =>
      if negb (Qle_bool (now - miss_time) (5 # 10)) then
        modify (fun g => set_notes (delete i (notes g)) g);;
        mret i
      else mret (S i)
    end
  | state_hit => mret (S i)
  end.

Fixpoint update_loop `{Constants} (i : nat) (snapshot : list Note.t) : M unit :=
  match snapshot with
  | [] => mret tt
  | note :: rest => i' ← update_note i note; update_loop i' rest
  end.

Definition show_feedback `{Constants} (inp : Input.t) (skipped : bool) : M unit :=
  pygame_call;;
  match Input.feedback inp with
  | Input.empty_unicode => raise ValueError
  | Input.window_closed => modify (set_pygame_quit true)
  | Input.rated answers =>
    g ← get;
    let total_time := current_time g in
    let exited := skipped in
    let dc := DataCollector.save_feedback (current_level g) answers total_time exited
                (data_collector g) in
    dc ← lift (DataCollector.analyze_data total_time exited dc);
    modify (set_data_collector dc)
  end.

Definition update `{Constants} (inp : Input.t) : M unit :=
  g ← get;
  if negb (paused g) && negb (in_menu g) && negb (game_over g) then
    now ← time_time;
    modify (fun g => set_current_time (now - start_time g - total_paused_time g) g);;
    g ← get;
    ng ← lift (NoteGenerator.update (difficulty_manager g) (Input.draw inp) (current_time g)
                 (note_generator g));
    modify (set_note_generator ng);;
    g ← get;
    update_loop 0 (notes g);;
    g ← get;
    (if negb (Qle_bool (hit_line_flash_timer g) 0) then
       let delta_time := (inject_Z (Input.get_time inp) / 1000)%Q in
       let timer := (hit_line_flash_timer g - delta_time)%Q in
       modify (set_hit_line_flash_timer (if negb (Qle_bool 0 timer) then 0 else timer))
     else mret tt);;
    g ← get;
    if Qle_bool GAME_DURATION (current_time g) then
      show_feedback inp false;;
      modify (fun g => set_current_level (current_level g + 1) g);;
      g ← get;
      if (LEVELS <? current_level g)%Z then
        modify (set_game_over true);;
        modify (set_in_menu true)
      else
        dm ← lift (DifficultyManager.set_level (current_level g) (difficulty_manager g));
        modify (set_difficulty_manager dm);;
        modify (set_note_generator NoteGenerator.__init__);;
        now ← time_time;
        modify (set_start_time now);;
        modify (set_combo 0);;
        modify (set_hits 0);;
        modify (set_incorrect_hits 0);;
        modify (set_total_paused_time 0);;
        modify (set_current_time 0)
    else mret tt
  else mret tt.

Definition skip_level `{Constants} (inp : Input.t) : M unit :=
  show_feedback inp true;;
  modify (fun g => set_current_level (current_level g + 1) g);;
  g ← get;
  if (LEVELS <? current_level g)%Z then
    modify (set_game_over true);;
    modify (set_in_menu true)
  else
    dm ← lift (DifficultyManager.set_level (current_level g) (difficulty_manager g));
    modify (set_difficulty_manager dm);;
    modify (set_note_generator NoteGenerator.__init__);;
    now ← time_time;
    modify (set_start_time now);;
    modify (set_combo 0);;
    modify (set_hits 0);;
    modify (set_incorrect_hits 0);;
    modify (set_total_paused_time 0);;
    modify (set_current_time 0).

Definition return_to_menu `{Constants} (inp : Input.t) : M unit :=
  show_feedback inp true;;
  modify (set_in_menu true);;
  modify (set_game_over true).

(** [confirm_action]: the answer typed, or [pygame.quit()] and [exit()] when
    the window is closed. *)
Definition confirm_action (inp : Input.t) : M bool :=
  pygame_call;;
  match Input.confirm inp with
  | Some confirmed => mret confirmed
  | None => raise SystemExit
  end.

(** [get_player_name]: the name typed, or [pygame.quit()] and [return] when
    the window is closed. *)
Definition get_player_name (inp : Input.t) : M unit :=
  pygame_call;;
  match Input.typed_name inp with
  | Some name =>
    modify (set_player_name (Some (if bool_decide (name = ""%string) then "Player"%string else name)))
  | None => modify (set_pygame_quit true)
  end.

(** Body of the [for event in pygame.event.get()] loop of [handle_input]. *)
Definition handle_event `{Constants} (inp : Input.t) (event : Event) : M unit :=
  match event with
  | QUIT => modify (set_running false)
  | KEYDOWN key =>
    (match key return M unit with
     | K_SPACE =>
       g ← get;
       if negb (in_menu g) && negb (game_over g) then
         modify (fun g => set_paused (negb (paused g)) g);;
         g ← get;
         if paused g then
           now ← time_time;
           modify (set_pause_start_time (Some now))
         else
           now ← time_time;
           match pause_start_time g with
           | None => raise TypeError
           | Some p =>
             let paused_duration := (now - p)%Q in
             modify (fun g => set_total_paused_time (total_paused_time g + paused_duration) g);;
             modify (set_pause_start_time None)
           end
       else mret tt
     | K_s =>
       confirmed ← confirm_action inp;
       if confirmed : bool then skip_level inp else mret tt
     | K_m =>
       confirmed ← confirm_action inp;
       if confirmed : bool then return_to_menu inp else mret tt
     | K_q =>
       confirmed ← confirm_action inp;
       if confirmed : bool then modify (set_running false) else mret tt
     | _ => mret tt
     end);;
    g ← get;
    if in_menu g then
      if bool_decide (key ∈ [K_1; K_2]) then
        modify (set_mode (Some (if bool_decide (key = K_1) then "test" else "normal")%string));;
        get_player_name inp;;
        modify (set_in_menu false);;
        init_game inp
      else mret tt
    else
      let key := upper (key_name key) in
      if bool_decide (key ∈ KEYS) then handle_note_hit key else mret tt
  | OTHER => mret tt
  end.

(** The [for event in ...] loop of [handle_input] on the events of one
    frame, each with what the player enters in the dialogs it opens. *)
Fixpoint handle_input_loop `{Constants} (events : list (Input.t * Event)) : M unit :=
  match events with
  | [] => mret tt
  | (inp, event) :: rest => handle_event inp event;; handle_input_loop rest
  end.

(** [handle_input], where [events] is what [pygame.event.get()] returns. *)
Definition handle_input `{Constants} (events : list (Input.t * Event)) : M unit :=
  pygame_call;;
  handle_input_loop events.

(** [Game()] on the wall clock [wall]. *)
Definition __init__ (wall : nat → Q) : Fresh.t :=
  Fresh.mk None None true false true false wall 0 false.

(** [init_game] reads of the object the attributes [mode] and [player_name],
    which [__init__] has created, and it assigns every attribute that
    [__init__] has not created: called on a fresh object, it runs as on the
    object completed with values for these attributes, whichever they are. *)
Definition blank (f : Fresh.t) : t :=
  mk (Fresh.mode f) (Fresh.player_name f) (Fresh.running f) (Fresh.paused f)
     (Fresh.in_menu f) (Fresh.game_over f)
     DifficultyManager.__init__ 1 (NoteGenerator.mk [] 0 0) (DataCollector.__init__ 0 None None)
     0 0 0 0 0 0 None 0 0 (Fresh.wall f) (Fresh.reads f) (Fresh.pygame_quit f).

(** Body of the loop of [handle_input] on a fresh object: it stays fresh
    ([inl]) unless [init_game] runs ([inr]). *)
Definition fresh_handle_event `{Constants} (inp : Input.t) (event : Event) (f : Fresh.t)
    : result (Fresh.t + t) :=
  match event with
  | QUIT => Ok (inl (Fresh.set_running false f))
  | KEYDOWN key =>
    f ← (match key with
         | K_SPACE => Fresh.toggle_pause f
         | K_s =>
           confirmed ← Fresh.confirm_action inp f;
           if confirmed : bool then Fresh.skip_level inp f else Ok f
         | K_m =>
           confirmed ← Fresh.confirm_action inp f;
           if confirmed : bool then Fresh.return_to_menu inp f else Ok f
         | K_q =>
           confirmed ← Fresh.confirm_action inp f;
           if confirmed : bool then Ok (Fresh.set_running false f) else Ok f
         | _ => Ok f
         end);
    if Fresh.in_menu f then
      if bool_decide (key ∈ [K_1; K_2]) then
        let f := Fresh.set_mode
                   (Some (if bool_decide (key = K_1) then "test" else "normal")%string) f in
        f ← Fresh.get_player_name inp f;
        let f := Fresh.set_in_menu false f in
        '(_, g) ← init_game inp (blank f);
        Ok (inr g)
      else Ok (inl f)
    else
      let key := upper (key_name key) in
      if bool_decide (key ∈ KEYS) then
        (* handle_note_hit: KEYS.index(key), then self.note_generator *)
        _ ← list_index KEYS key;
        Raise AttributeError
      else Ok (inl f)
  | OTHER => Ok (inl f)
  end.

(** [handle_input] on a fresh object. *)
Fixpoint fresh_handle_input_loop `{Constants} (events : list (Input.t * Event))
    (f : Fresh.t) : result (Fresh.t + t) :=
  match events with
  | [] => Ok (inl f)
  | (inp, event) :: rest =>
    o ← fresh_handle_event inp event f;
    match o with
    | inl f' => fresh_handle_input_loop rest f'
    | inr g => '(_, g') ← handle_input_loop rest g; Ok (inr g')
    end
  end.

Definition fresh_handle_input `{Constants} (events : list (Input.t * Event))
    (f : Fresh.t) : result (Fresh.t + t) :=
  if Fresh.pygame_quit f then Raise pygame_error else fresh_handle_input_loop events f.
End Game.

(** * Specification-level definitions *)

(** A press in [lane] can resolve against [note]: same lane, still active,
    inside the judgment window. *)
Definition eligible `{Constants} (lane : nat) (note : Note.t) : bool :=
  bool_decide (Note.lane note = lane)
  && bool_decide (Note.state note = state_active)
  && Game.in_window note.

(** State of the game after the press has resolved against the eligible
    note [n] found at position [i] of the live list. *)
Definition after_hit `{Constants} (i : nat) (n : Note.t) (g : Game.t) : Game.t :=
  let t1 := Game.wall g (Game.reads g) in
  let t2 := Game.wall g (S (Game.reads g)) in
  let note := Note.set_hit_time (Some t1) (Note.set_state state_hit n) in
  let g := Game.set_reads (S (Game.reads g)) g in
  let g := Game.set_combo (Game.combo g + 1) g in
  let g := Game.set_hits (Game.hits g + 1) g in
  let g := Game.set_total_notes (Game.total_notes g + 1) g in
  let g := Game.set_reads (S (Game.reads g)) g in
  let g := Game.set_data_collector
             (DataCollector.record_hit t2 note (Game.current_level g) status_hit
                (Game.data_collector g)) g in
  Game.set_notes (delete i (Game.notes g)) g.

(** The note [dummy_note] that [handle_note_hit] builds for an incorrect press. *)
Definition dummy_note `{Constants} (lane : nat) (g : Game.t) : Note.t :=
  let w := (WINDOW_WIDTH / Z.of_nat (length KEYS))%Z in
  Note.mk lane (w * Z.of_nat lane + (w - NOTE_WIDTH) / 2)%Z (inject_Z HIT_LINE_Y)
    (DifficultyManager.current_speed (Game.difficulty_manager g)) state_active
    (Some (Game.wall g (Game.reads g))) None None.

(** State of the game after an incorrect press in [lane]. *)
Definition after_incorrect `{Constants} (lane : nat) (g : Game.t) : Game.t :=
  let t2 := Game.wall g (S (Game.reads g)) in
  let note := dummy_note lane g in
  let g := Game.set_combo 0 g in
  let g := Game.set_reads (S (S (Game.reads g))) g in
  let g := Game.set_data_collector
             (DataCollector.record_hit t2 note (Game.current_level g) status_incorrect
                (Game.data_collector g)) g in
  let g := Game.set_incorrect_hits (Game.incorrect_hits g + 1) g in
  Game.set_hit_line_flash_timer (2 # 10) g.

(** The same key pressed [n] times in a row. *)
Fixpoint press_repeatedly `{Constants} (key : string) (n : nat) : Game.M unit :=
  match n with
  | O => mret tt
  | S n' => Game.handle_note_hit key;; press_repeatedly key n'
  end.

(** The judgment events the collector holds for the current level. *)
Definition session_data (g : Game.t) : list Data.t :=
  DataCollector.session_data (Game.data_collector g).

(** Number of events of [lane] that satisfy [f]. *)
Definition lane_count (f : Data.t → bool) (lane : nat) (ds : list Data.t) : Z :=
  count_if (fun d => f d && bool_decide (Data.lane d = lane)) ds.

(** The reaction times present in the events of [lane], in order. *)
Definition lane_times (lane : nat) (ds : list Data.t) : list Z :=
  omap (fun d => if bool_decide (Data.lane d = lane) then Data.reaction_time d else None) ds.

(** [num / den if den > 0 else 0]. *)
Definition rate (num den : Z) : Q := if (0 <? den)%Z then truediv num den else 0%Q.

(** The row of the analysis file, as a function of the buffer. *)
Definition summary `{Constants} (total_time : Q) (exited : bool) (dc : DataCollector.t)
    : Analysis.t :=
  let sd := DataCollector.session_data dc in
  let hit := DataCollector.is_status status_hit in
  let incorrect := DataCollector.is_status status_incorrect in
  let note := DataCollector.status_in [status_hit; status_miss] in
  let effective := DataCollector.status_in [status_hit; status_incorrect] in
  {| Analysis.level := DataCollector.level dc;
     Analysis.hit_rate := rate (count_if hit sd) (count_if note sd);
     Analysis.lane_hit_rates :=
       dict_of_range (length KEYS)
         (fun l => rate (lane_count hit l sd) (lane_count note l sd));
     Analysis.avg_reaction_time := DataCollector.average (omap Data.reaction_time sd);
     Analysis.avg_lane_reaction_times :=
       dict_of_range (length KEYS) (fun l => DataCollector.average (lane_times l sd));
     Analysis.incorrect_hit_rate :=
       rate (count_if incorrect sd) (count_if hit sd + count_if incorrect sd);
     Analysis.lane_incorrect_hit_rates :=
       dict_of_range (length KEYS)
         (fun l => rate (lane_count incorrect l sd) (lane_count effective l sd));
     Analysis.game_duration := total_time;
     Analysis.exit_rate := if exited then 1%Z else 0%Z |}.

(** The shape shared by the two loops that count per lane. *)
Definition tally (p q : Data.t → bool) (d : Data.t) (acc : gmap nat Z * gmap nat Z)
    : result (gmap nat Z * gmap nat Z) :=
  let '(num, den) := acc in
  if p d then
    den ← dict_incr den (Data.lane d);
    if q d then num ← dict_incr num (Data.lane d); Ok (num, den) else Ok (num, den)
  else Ok (num, den).

(** ** The clock of a level *)

(** Effective elapsed time of the level at the wall-clock reading [t]. *)
Definition elapsed (g : Game.t) (t : Q) : Q :=
  (t - Game.start_time g - Game.total_paused_time g)%Q.

(** State after SPACE has paused the game. *)
Definition paused_at (g : Game.t) : Game.t :=
  Game.set_pause_start_time (Some (Game.wall g (Game.reads g)))
    (Game.set_reads (S (Game.reads g)) (Game.set_paused true g)).

(** State after SPACE has resumed a game paused at [p]. *)
Definition resumed_at (p : Q) (g : Game.t) : Game.t :=
  Game.set_pause_start_time None
    (Game.set_total_paused_time
       (Game.total_paused_time g + (Game.wall g (Game.reads g) - p))
       (Game.set_reads (S (Game.reads g)) (Game.set_paused false g))).

(** The clock of the level and the wall clock are the same in [g'] as in
    [g], which may have read the wall clock some more. *)
Definition same_clock (g g' : Game.t) : Prop :=
  Game.start_time g' = Game.start_time g
  ∧ Game.total_paused_time g' = Game.total_paused_time g
  ∧ Game.current_time g' = Game.current_time g
  ∧ Game.paused g' = Game.paused g
  ∧ Game.pause_start_time g' = Game.pause_start_time g
  ∧ Game.in_menu g' = Game.in_menu g
  ∧ Game.game_over g' = Game.game_over g
  ∧ Game.hit_line_flash_timer g' = Game.hit_line_flash_timer g
  ∧ Game.wall g' = Game.wall g
  ∧ (Game.reads g ≤ Game.reads g')%nat.

(** ** Concrete sessions, with the constants the program declares *)

(** Wall-clock readings one second apart. *)
Definition epoch (i : nat) : Q := inject_Z (Z.of_nat i + 1700000000).

Definition no_input : Input.t := Input.mk None Input.window_closed None (fun l => l) 0 16.

(** The player types a name at the prompt of the main menu. *)
Definition name_input : Input.t :=
  Input.mk None Input.window_closed (Some "Ada"%string) (fun l => l) 0 16.

(** A game started from the main menu of [Game()] with key 2 (normal mode),
    on the wall clock [w]. *)
Definition start_session (w : nat → Q) : Game.t :=
  let f0 := Game.__init__ w in
  match @Game.fresh_handle_event rhythmGame name_input (KEYDOWN K_2) f0 with
  | Ok (inr g) => g
  | _ => Game.blank f0
  end.
Definition started : Game.t := start_session epoch.

(** Scenario A: one marker in lane 2 at speed 2, now at position 480. *)
Definition marker_A : Note.t :=
  Note.mk 2 460 480 2 state_active None (Some (epoch 1)) None.
Definition scenario_A : Game.t := Game.set_notes [marker_A] started.

Definition no_lanes : Constants := {|
  WINDOW_WIDTH := 800; WINDOW_HEIGHT := 600; FPS := 60;
  KEYS := []; GAME_DURATION := 70; LEVELS := 5;
  NOTE_WIDTH := 80; NOTE_HEIGHT := 40; BASIC_SPEED := 2; BLOCK_SPEED_ACCR := 0;
  LEVEL_SPEED_ACCR := 35 # 10; SPAWN_INTERVAL := 6 # 10
|}.

(** The object that [init_game] finds when it is called on [Game()] in
    normal mode, and on [Game()] as it is, whose mode is neither ['normal']
    nor ['test']. *)
Definition menu_normal : Game.t :=
  Game.set_mode (Some "normal"%string) (Game.blank (Game.__init__ epoch)).

(** [set_level] on a level beyond the list: only [current_level] changes. *)
Definition level_recorded (level : Z) (dm : DifficultyManager.t) : DifficultyManager.t :=
  DifficultyManager.mk (DifficultyManager.levels dm) level
    (DifficultyManager.current_speed dm) (DifficultyManager.current_acceleration dm).

(** The player confirms a dialog and rates the level 3, 3, 3. *)
Definition yes_input : Input.t :=
  Input.mk (Some true) (Input.rated [3; 3; 3]%Z) None (fun l => l) 0 16.

(** Wall-clock readings, in seconds after 1700000000, of a session in which
    the player pauses at 10, skips the level while paused (the new level
    starts at 20) and resumes at 30; the first reading after that is 31. *)
Definition stalled (i : nat) : Q :=
  inject_Z (nth i [0; 0; 1; 10; 20; 30; 31]%Z 31%Z + 1700000000).

(** One tick, pause, skip the level, resume, one tick. *)
Definition pause_skip_resume : Game.M unit :=
  @Game.update rhythmGame no_input;;
  @Game.handle_event rhythmGame no_input (KEYDOWN K_SPACE);;
  @Game.handle_event rhythmGame yes_input (KEYDOWN K_s);;
  @Game.handle_event rhythmGame no_input (KEYDOWN K_SPACE);;
  @Game.update rhythmGame no_input.

(** Scenario B: the marker of lane 2, speed 2, stands at the judgment line
    (position 500) and nobody presses; the combo is at 3. *)
Definition marker_B : Note.t :=
  Note.mk 2 460 500 2 state_active None (Some (epoch 1)) None.
Definition scenario_B : Game.t := Game.set_combo 3 (Game.set_notes [marker_B] started).

(** A buffer with one hit and one miss in each of the four lanes. *)
Definition balanced_event (s : HitStatus) (lane : nat) : Data.t :=
  Data.mk 1000 1 lane s None None 2.
Definition balanced_buffer : list Data.t :=
  (balanced_event status_hit <$> seq 0 4) ++ (balanced_event status_miss <$> seq 0 4).
Definition balanced_collector : DataCollector.t :=
  DataCollector.set_session_data balanced_buffer (Game.data_collector started).

(** A hit pressed at the very reading at which the marker became hittable,
    with the marker exactly on the judgment line. *)
Definition instant_note : Note.t :=
  Note.mk 1 260 500 2 state_hit (Some (epoch 7)) (Some (epoch 7)) None.

(** A hit with the marker exactly on the judgment line again, pressed one
    second after the marker became hittable. *)
Definition line_note : Note.t :=
  Note.mk 1 260 500 2 state_hit (Some (epoch 8)) (Some (epoch 7)) None.

(** * Further sessions, inputs and calls *)

(** The difficulty manager of a started game, and notes for the examples. *)
Definition five_levels : DifficultyManager.t := Game.difficulty_manager started.

(** The object that [init_game] finds when it is called on [Game()] in test
    mode, and an input whose shuffle reverses the list. *)
Definition menu_test : Game.t :=
  Game.set_mode (Some "test"%string) (Game.blank (Game.__init__ epoch)).
Definition reverse_input : Input.t := Input.mk None Input.window_closed None reverse 0 16.

(** A generator that last spawned at time 0, asked at time 30. *)
Definition idle_generator : NoteGenerator.t := Game.note_generator started.

(** Scenario A with a second marker of lane 2 behind the first, also in the
    judgment window, and a marker of lane 0 in front of both. *)
Definition marker_A0 : Note.t :=
  Note.mk 0 60 490 2 state_active None (Some (epoch 1)) None.
Definition marker_A2 : Note.t :=
  Note.mk 2 460 470 2 state_active None (Some (epoch 1)) None.
Definition crowded : Game.t := Game.set_notes [marker_A0; marker_A; marker_A2] started.

(** The calls a [Game] makes on its collector. *)
Inductive CollectorCall : Type :=
  | call_record_hit (now : Q) (note : Note.t) (level : Z) (hit_status : HitStatus)
  | call_save_feedback (level : Z) (feedback : list Z) (total_time : Q) (exited : bool)
  | call_analyze_data (total_time : Q) (exited : bool).

Definition collector_call `{Constants} (c : CollectorCall) (dc : DataCollector.t)
    : result DataCollector.t :=
  match c with
  | call_record_hit now note level hit_status =>
    Ok (DataCollector.record_hit now note level hit_status dc)
  | call_save_feedback level feedback total_time exited =>
    Ok (DataCollector.save_feedback level feedback total_time exited dc)
  | call_analyze_data total_time exited => DataCollector.analyze_data total_time exited dc
  end.

(** A sequence of calls, stopped by the first exception. *)
Definition collector_calls `{Constants} (cs : list CollectorCall) (dc : DataCollector.t)
    : result DataCollector.t :=
  for_in cs collector_call dc.

(** The call concerns a lane of [KEYS]. *)
Definition in_lanes `{Constants} (c : CollectorCall) : Prop :=
  match c with
  | call_record_hit _ note _ _ => (Note.lane note < length KEYS)%nat
  | _ => True
  end.

Definition is_record_hit (c : CollectorCall) : bool :=
  match c with call_record_hit _ _ _ _ => true | _ => false end.
Definition is_analyze_data (c : CollectorCall) : bool :=
  match c with call_analyze_data _ _ => true | _ => false end.

(** A level with two hits, one miss and one incorrect press, then its
    summary, then one more hit. *)
Definition busy_level : list CollectorCall :=
  [call_record_hit (epoch 3) instant_note 1 status_hit;
   call_record_hit (epoch 4) marker_A 1 status_miss;
   call_record_hit (epoch 5) instant_note 1 status_hit;
   call_record_hit (epoch 6) marker_A 1 status_incorrect;
   call_save_feedback 1 [4; 4; 2]%Z 70 false;
   call_analyze_data 70 false;
   call_record_hit (epoch 9) instant_note 2 status_hit].

(** A buffer whose second event lies in a lane that [KEYS] does not have. *)
Definition stray_collector : DataCollector.t :=
  DataCollector.set_session_data
    [balanced_event status_hit 1; balanced_event status_miss 7; balanced_event status_hit 2]
    (Game.data_collector started).

(** A note of the live list: in a lane of [KEYS], never in state 'hit' (a
    hit note leaves the list at once), hence without [hit_time], and with a
    [miss_time] once it is missed. *)
Definition note_ok `{Constants} (n : Note.t) : Prop :=
  (Note.lane n < length KEYS)%nat
  ∧ Note.state n ≠ state_hit
  ∧ Note.hit_time n = None
  ∧ (Note.state n = state_missed → is_Some (Note.miss_time n)).

(** A note after the loop of [update] has visited it: an active note is not
    beyond the judgment line, and it carries [start_hit_time] once it has
    reached the judgment window. *)
Definition ticked `{Constants} (n : Note.t) : Prop :=
  note_ok n
  ∧ (Note.state n = state_active → (Note.y n <= inject_Z HIT_LINE_Y)%Q)
  ∧ (Note.state n = state_active →
     (inject_Z (HIT_LINE_Y - NOTE_HEIGHT) <= Note.y n)%Q →
     is_Some (Note.start_hit_time n)).

(** The tick of [update] moves the active note [n] beyond the judgment line. *)
Definition crossing `{Constants} (n : Note.t) : bool :=
  bool_decide (Note.state n = state_active)
  && negb (Qle_bool (Note.y n + Note.speed n) (inject_Z HIT_LINE_Y)).

(** The lanes of the notes that the tick moves beyond the line, in order. *)
Definition crossing_lanes `{Constants} (ns : list Note.t) : list nat :=
  omap (fun n => if crossing n then Some (Note.lane n) else None) ns.

(** What a tick of [update] makes of the note [n] of the list, when the
    clock [w] is read from the reading [lo] on and before the reading [hi]:
    [Some n'] is the note in its place after the tick, [None] tells that it
    has left the list. An active note moves by its speed and is missed
    exactly when that takes it beyond the judgment line, with a reading of
    the tick as its [miss_time]; a missed note leaves exactly when the
    reading taken for it is more than 0.5 seconds after its [miss_time]. *)
Definition marker_tick `{Constants} (w : nat → Q) (lo hi : nat) (n : Note.t)
    (after : option Note.t) : Prop :=
  match Note.state n with
  | state_active =>
    ∃ n', after = Some n'
          ∧ Note.lane n' = Note.lane n
          ∧ Note.y n' = (Note.y n + Note.speed n)%Q
          ∧ ((inject_Z HIT_LINE_Y < Note.y n + Note.speed n)%Q →
             Note.state n' = state_missed
             ∧ ∃ k, (lo ≤ k < hi)%nat ∧ Note.miss_time n' = Some (w k))
          ∧ ((Note.y n + Note.speed n <= inject_Z HIT_LINE_Y)%Q →
             Note.state n' = state_active ∧ Note.miss_time n' = Note.miss_time n)
  | state_missed =>
    ∃ k m, (lo ≤ k < hi)%nat ∧ Note.miss_time n = Some m
           ∧ ((5 # 10 < w k - m)%Q → after = None)
           ∧ ((w k - m <= 5 # 10)%Q → after = Some n)
  | state_hit => after = Some n
  end.

(** The collector [dc'] is [dc] with the events [evs] recorded. *)
Definition events_appended (evs : list Data.t) (dc dc' : DataCollector.t) : Prop :=
  DataCollector.session_data dc' = DataCollector.session_data dc ++ evs
  ∧ DataCollector.event_rows dc' = DataCollector.event_rows dc ++ evs
  ∧ DataCollector.player_name dc' = DataCollector.player_name dc
  ∧ DataCollector.mode dc' = DataCollector.mode dc
  ∧ DataCollector.start_time dc' = DataCollector.start_time dc
  ∧ DataCollector.level dc' = DataCollector.level dc
  ∧ DataCollector.feedback_rows dc' = DataCollector.feedback_rows dc
  ∧ DataCollector.analysis_rows dc' = DataCollector.analysis_rows dc.

(** What the loop over the notes in [update] does to the game besides the
    notes: it records the misses [evs], counts them in [total_notes] and
    resets the combo if there is one, and it reads the clock. *)
Definition loop_frame `{Constants} (evs : list Data.t) (g g' : Game.t) : Prop :=
  ∃ ns c t dc r,
    g' = Game.set_notes ns
           (Game.set_combo c
              (Game.set_total_notes t
                 (Game.set_data_collector dc (Game.set_reads r g))))
    ∧ c = match evs with [] => Game.combo g | _ => 0%Z end
    ∧ t = (Game.total_notes g + Z.of_nat (length evs))%Z
    ∧ events_appended evs (Game.data_collector g) dc
    ∧ (Game.reads g ≤ r)%nat
    ∧ Forall (fun e => Data.hit_status e = status_miss
                       ∧ (Data.lane e < length KEYS)%nat
                       ∧ Data.level e = Game.current_level g) evs.

(** The statements that end a level, the same in [update] and in
    [skip_level]: the next level, or the end of the game. *)
Definition advance_level `{Constants} : Game.M unit :=
  Game.modify (fun g => Game.set_current_level (Game.current_level g + 1) g);;
  g ← Game.get;
  if (LEVELS <? Game.current_level g)%Z then
    Game.modify (Game.set_game_over true);;
    Game.modify (Game.set_in_menu true)
  else
    dm ← Game.lift (DifficultyManager.set_level (Game.current_level g)
                      (Game.difficulty_manager g));
    Game.modify (Game.set_difficulty_manager dm);;
    Game.modify (Game.set_note_generator NoteGenerator.__init__);;
    now ← Game.time_time;
    Game.modify (Game.set_start_time now);;
    Game.modify (Game.set_combo 0);;
    Game.modify (Game.set_hits 0);;
    Game.modify (Game.set_incorrect_hits 0);;
    Game.modify (Game.set_total_paused_time 0);;
    Game.modify (Game.set_current_time 0).

(** The flash timer of the judgment line after a tick that started with
    the timer at [f]. *)
Definition flash_after (inp : Input.t) (f : Q) : Q :=
  if negb (Qle_bool f 0) then
    let timer := (f - inject_Z (Input.get_time inp) / 1000)%Q in
    if negb (Qle_bool 0 timer) then 0%Q else timer
  else f.

(** The game [g'] is [g] after the part of [update] that comes before the
    test for the end of the level: the notes are [ns], the misses [evs]
    are recorded. *)
Definition tick_frame `{Constants} (inp : Input.t) (ns : list Note.t) (evs : list Data.t)
    (g g' : Game.t) : Prop :=
  ∃ lst c t dc r,
    g' = Game.set_hit_line_flash_timer (flash_after inp (Game.hit_line_flash_timer g))
           (Game.set_note_generator
              (NoteGenerator.mk ns lst (NoteGenerator.spawn_interval (Game.note_generator g)))
              (Game.set_combo c
                 (Game.set_total_notes t
                    (Game.set_data_collector dc
                       (Game.set_reads r
                          (Game.set_current_time
                             (elapsed g (Game.wall g (Game.reads g))) g))))))
    ∧ c = match evs with [] => Game.combo g | _ => 0%Z end
    ∧ t = (Game.total_notes g + Z.of_nat (length evs))%Z
    ∧ events_appended evs (Game.data_collector g) dc
    ∧ (Game.reads g < r)%nat
    ∧ Forall (fun e => Data.hit_status e = status_miss
                       ∧ (Data.lane e < length KEYS)%nat
                       ∧ Data.level e = Game.current_level g) evs.

(** The collector after the questionnaire of [show_feedback] has been
    answered with [answers]. *)
Definition fed `{Constants} (skipped : bool) (answers : list Z) (g : Game.t)
    : DataCollector.t :=
  let dc := DataCollector.save_feedback (Game.current_level g) answers
              (Game.current_time g) skipped (Game.data_collector g) in
  DataCollector.set_session_data []
    (DataCollector.append_analysis (summary (Game.current_time g) skipped dc) dc).

(** The game after [advance_level] has ended the last level. *)
Definition finished (g : Game.t) : Game.t :=
  Game.set_in_menu true
    (Game.set_game_over true (Game.set_current_level (Game.current_level g + 1) g)).

(** The game after [advance_level] has started the next level, with the
    difficulty manager [dm]. *)
Definition next_level `{Constants} (dm : DifficultyManager.t) (g : Game.t) : Game.t :=
  Game.set_current_time 0
    (Game.set_total_paused_time 0
       (Game.set_incorrect_hits 0
          (Game.set_hits 0
             (Game.set_combo 0
                (Game.set_start_time (Game.wall g (Game.reads g))
                   (Game.set_reads (S (Game.reads g))
                      (Game.set_note_generator NoteGenerator.__init__
                         (Game.set_difficulty_manager dm
                            (Game.set_current_level (Game.current_level g + 1) g))))))))).

(** The invariant of a game on which [init_game] has run, as long as
    [pygame.quit()] has not been called. *)
Definition consistent `{Constants} (g : Game.t) : Prop :=
  Game.pygame_quit g = false
  ∧ Forall note_ok (Game.notes g)
  ∧ Forall (fun d => (Data.lane d < length KEYS)%nat) (session_data g)
  ∧ session_data g `suffix_of` DataCollector.event_rows (Game.data_collector g)
  ∧ (Game.paused g = true → is_Some (Game.pause_start_time g))
  ∧ (1 ≤ Game.current_level g)%Z
  ∧ (0 ≤ Game.combo g ≤ Game.hits g)%Z
  ∧ (Game.hits g ≤ Game.total_notes g)%Z
  ∧ (0 ≤ Game.incorrect_hits g)%Z.

(** The result [r] of a method is a state that satisfies [Q], or the
    exception of [exit()]. *)
Definition outcome {A} (Q : A → Game.t → Prop) (E : Prop) (r : result (A * Game.t))
    : Prop :=
  match r with
  | Ok (a, g') => Q a g'
  | Raise e => e = SystemExit ∧ E
  end.

(** The questionnaire and the prompt for the name that the call opens are
    answered: the window is not closed, and no key without a character is
    pressed in the questionnaire. *)
Definition answered (inp : Input.t) : Prop :=
  is_Some (Input.answers inp) ∧ is_Some (Input.typed_name inp).

(** A started game whose only note stands on the judgment line. *)
Definition scenario_miss : Game.t := Game.set_notes [marker_B] started.

(** Wall-clock readings 100 seconds apart, and a game started on them: the
    first tick finds the 70 seconds of the level used up. *)
Definition slow_clock (i : nat) : Q := inject_Z (Z.of_nat i * 100 + 1700000000).
Definition late_session : Game.t := start_session slow_clock.

(** The game after the questionnaire of a level left early. *)
Definition left_early `{Constants} (answers : list Z) (g : Game.t) : Game.t :=
  Game.set_data_collector (fed true answers g) g.

(** A started game that the player has paused, with a note of lane 2 in the
    judgment window. *)
Definition paused_session : Game.t :=
  Game.set_pause_start_time (Some (epoch 2)) (Game.set_paused true scenario_A).

(** The player confirms a dialog, rates the level 3, 3, 3 and types a
    name; and a player who confirms and then presses the shift key, which
    has no character, in the questionnaire. *)
Definition full_input : Input.t :=
  Input.mk (Some true) (Input.rated [3; 3; 3]%Z) (Some "Ada"%string) (fun l => l) 0 16.
Definition shift_input : Input.t :=
  Input.mk (Some true) Input.empty_unicode (Some "Ada"%string) (fun l => l) 0 16.

(** The events of a frame: the player presses J, then S and confirms the
    dialog. *)
Definition press_then_skip : list (Input.t * Event) :=
  [(full_input, KEYDOWN (K_other "j")); (full_input, KEYDOWN K_s)].

(** An event as the loop of a dialog reads it: for a [KEYDOWN], the key and
    its [event.unicode]. *)
Inductive DialogEvent : Type :=
  | D_QUIT
  | D_KEYDOWN (key : Key) (unicode : string)
  | D_OTHER.

(** The keys the dialogs tell apart, under their [pygame.key.name]. *)
Definition K_y : Key := K_other "y".
Definition K_n : Key := K_other "n".
Definition K_RETURN : Key := K_other "return".
Definition K_BACKSPACE : Key := K_other "backspace".

(** How the [while] loop of a dialog stands after the batches of events
    that [pygame.event.get()] has delivered: it has ended with [r], the
    method has returned from inside the loop because the window was closed,
    or it is still waiting. *)
Inductive Dialog (R C : Type) : Type :=
  | Answered (r : R)
  | Closed (c : C)
  | Waiting.
Arguments Answered {R C} r.
Arguments Closed {R C} c.
Arguments Waiting {R C}.

(** [for a in l: body], where the body can [return]: [inl] is the state to
    go on with, [inr] the value returned. *)
Fixpoint for_return {A S R} (l : list A) (body : A → S → result (S + R)) (s : S)
    : result (S + R) :=
  match l with
  | [] => Ok (inl s)
  | a :: l' =>
    r ← body a s;
    match r with
    | inl s' => for_return l' body s'
    | inr v => Ok (inr v)
    end
  end.

(** [sub in s] on strings: [sub] occurs in [s]. *)
Fixpoint contains (sub s : string) : bool :=
  String.prefix sub s
  || match s with
     | EmptyString => false
     | String _ s' => contains sub s'
     end.

(** [int(s)] on a string of decimal digits; the empty string raises
    [ValueError], and so does every other character (the signs, blanks and
    underscores that [int] accepts as well do not occur in the strings that
    reach it in this program, which are parts of ["12345"]). *)
Definition digit_of_ascii (c : Ascii.ascii) : option Z :=
  let n := Ascii.nat_of_ascii c in
  if (48 <=? n)%nat && (n <=? 57)%nat then Some (Z.of_nat (n - 48)) else None.
Fixpoint int_of_digits (s : string) (acc : Z) : result Z :=
  match s with
  | EmptyString => Ok acc
  | String c s' =>
    match digit_of_ascii c with
    | Some d => int_of_digits s' (10 * acc + d)%Z
    | None => Raise ValueError
    end
  end.
Definition py_int_str (s : string) : result Z :=
  match s with
  | EmptyString => Raise ValueError
  | _ => int_of_digits s 0
  end.

(** [s[:-1]]. *)
Fixpoint drop_last (s : string) : string :=
  match s with
  | EmptyString => EmptyString
  | String c EmptyString => EmptyString
  | String c s' => String c (drop_last s')
  end.

Module Dialogs.
(** Body of the [for event in pygame.event.get()] loop of [confirm_action];
    the state is [(confirmed, waiting_for_input)]. *)
Definition confirm_event (event : DialogEvent) (s : bool * bool) : result (bool * bool) :=
  let '(confirmed, waiting_for_input) := s in
  match event with
  | D_QUIT => Raise SystemExit
  | D_KEYDOWN key _ =>
    if bool_decide (key = K_y) then Ok (true, false)
    else if bool_decide (key = K_n) then Ok (false, false)
    else Ok (confirmed, waiting_for_input)
  | D_OTHER => Ok (confirmed, waiting_for_input)
  end.

Fixpoint confirm_action_loop (batches : list (list DialogEvent)) (s : bool * bool)
    : result (Dialog bool Empty_set) :=
  if s.2 then
    match batches with
    | [] => Ok Waiting
    | batch :: rest => s' ← for_in batch confirm_event s; confirm_action_loop rest s'
    end
  else Ok (Answered s.1).

Definition confirm_action (batches : list (list DialogEvent))
    : result (Dialog bool Empty_set) :=
  confirm_action_loop batches (false, true).

(** Body of the loop of [get_player_name]; the state is
    [(name, input_active, self.player_name)], and [return] leaves the
    attribute as it is. *)
Definition name_event (event : DialogEvent) (s : string * bool * option string)
    : result (string * bool * option string + option string) :=
  let '(name, input_active, player_name) := s in
  match event with
  | D_QUIT => Ok (inr player_name)
  | D_KEYDOWN key unicode =>
    if bool_decide (key = K_RETURN) then
      Ok (inl (name, false,
               Some (if bool_decide (name = ""%string) then "Player"%string else name)))
    else if bool_decide (key = K_BACKSPACE) then
      Ok (inl (drop_last name, input_active, player_name))
    else Ok (inl ((name +:+ unicode)%string, input_active, player_name))
  | D_OTHER => Ok (inl (name, input_active, player_name))
  end.

Fixpoint get_player_name_loop (batches : list (list DialogEvent))
    (s : string * bool * option string)
    : result (Dialog (option string) (option string)) :=
  if s.1.2 then
    match batches with
    | [] => Ok Waiting
    | batch :: rest =>
      r ← for_return batch name_event s;
      match r with
      | inl s' => get_player_name_loop rest s'
      | inr player_name => Ok (Closed player_name)
      end
    end
  else Ok (Answered s.2).

(** [get_player_name] on a game whose [player_name] is [player_name]: the
    attribute when the method returns. *)
Definition get_player_name (batches : list (list DialogEvent)) (player_name : option string)
    : result (Dialog (option string) (option string)) :=
  get_player_name_loop batches (""%string, true, player_name).

(** Body of the loop of [show_feedback]; the state is
    [(answers, current_question)]. *)
Definition feedback_event (event : DialogEvent) (s : list Z * Z)
    : result (list Z * Z + unit) :=
  let '(answers, current_question) := s in
  match event with
  | D_QUIT => Ok (inr tt)
  | D_KEYDOWN _ unicode =>
    if contains unicode "12345" then
      n ← py_int_str unicode;
      Ok (inl (answers ++ [n], current_question + 1)%Z)
    else Ok (inl (answers, current_question))
  | D_OTHER => Ok (inl (answers, current_question))
  end.

(** The [while current_question < len(questions)] loop, with the three
    questions of the program: the answers to save, or nothing to save when
    the window was closed. *)
Fixpoint show_feedback_loop (batches : list (list DialogEvent)) (s : list Z * Z)
    : result (Dialog (list Z) unit) :=
  if (s.2 <? 3)%Z then
    match batches with
    | [] => Ok Waiting
    | batch :: rest =>
      r ← for_return batch feedback_event s;
      match r with
      | inl s' => show_feedback_loop rest s'
      | inr _ => Ok (Closed tt)
      end
    end
  else Ok (Answered s.1).

Definition show_feedback (batches : list (list DialogEvent))
    : result (Dialog (list Z) unit) :=
  show_feedback_loop batches ([], 0%Z).
End Dialogs.

(** The answer that a key gives to a confirmation, if it gives one. *)
Definition decision (event : DialogEvent) : option bool :=
  match event with
  | D_KEYDOWN key _ =>
    if bool_decide (key = K_y) then Some true
    else if bool_decide (key = K_n) then Some false
    else None
  | _ => None
  end.

(** The name after one more event of typing. *)
Definition type_key (name : string) (event : DialogEvent) : string :=
  match event with
  | D_KEYDOWN key unicode =>
    if bool_decide (key = K_BACKSPACE) then drop_last name else (name +:+ unicode)%string
  | _ => name
  end.

(** An event of typing: neither the end of the input nor the end of the
    program. *)
Definition typing (event : DialogEvent) : Prop :=
  match event with
  | D_QUIT => False
  | D_KEYDOWN key _ => key ≠ K_RETURN
  | D_OTHER => True
  end.

(** The rating that a key gives: the keys 1 to 5. *)
Definition rating (event : DialogEvent) : option Z :=
  match event with
  | D_KEYDOWN _ unicode =>
    if bool_decide (unicode = "1"%string) then Some 1%Z
    else if bool_decide (unicode = "2"%string) then Some 2%Z
    else if bool_decide (unicode = "3"%string) then Some 3%Z
    else if bool_decide (unicode = "4"%string) then Some 4%Z
    else if bool_decide (unicode = "5"%string) then Some 5%Z
    else None
  | _ => None
  end.

(** An event that the questionnaire can digest: no [QUIT], and a key that
    produces exactly one character. *)
Definition printable (event : DialogEvent) : Prop :=
  match event with
  | D_QUIT => False
  | D_KEYDOWN _ unicode => String.length unicode = 1%nat
  | D_OTHER => True
  end.

(** Two batches without an answer, then n and y in one batch. *)
Definition hesitation : list (list DialogEvent) :=
  [[D_OTHER]; [D_KEYDOWN (K_other "x") "x"]].
Definition no_then_yes : list DialogEvent :=
  [D_KEYDOWN K_n "n"; D_KEYDOWN K_y "y"].

(** The player types A, d, x, backspace, a. *)
Definition typed_Adx : list (list DialogEvent) :=
  [[D_KEYDOWN (K_other "a") "A"];
   [D_KEYDOWN (K_other "d") "d"; D_KEYDOWN (K_other "x") "x"]].
Definition typed_back_a : list DialogEvent :=
  [D_KEYDOWN K_BACKSPACE ""; D_KEYDOWN (K_other "a") "a"].

(** One rating, then three ratings in one batch; and a batch with the
    Shift key, which has no character. *)
Definition first_rating : list (list DialogEvent) := [[D_KEYDOWN K_1 "1"]].
Definition three_ratings : list DialogEvent :=
  [D_KEYDOWN K_2 "2"; D_KEYDOWN (K_other "3") "3"; D_KEYDOWN (K_other "4") "4"].
Definition shift_key : list DialogEvent :=
  [D_KEYDOWN (K_other "d") "d"; D_KEYDOWN (K_other "left shift") ""].

(** The colours of the module. *)
Inductive Color : Set := WHITE | BLACK | BLUE | GREEN | RED | GRAY.

(** The text of a rendered surface: a literal, or a label followed by a
    number (the f-strings of the information lines). *)
Inductive Text : Set :=
  | Plain (s : string)
  | Labelled (label : string) (n : Z).

(** The calls that draw on the screen, in the order in which they are made. *)
Inductive Command : Type :=
  | Fill (color : Color)
  | Line (color : Color) (start_pos end_pos : Z * Z) (width : Z)
  | Rect (color : Color) (x : Z) (y : Q) (w h : Z)
  | Blit (text : Text) (color : Color) (pos : Z * Z)
  | Flip.

(** [max(0, x)] on an integer 0 and a float: [x] when it is greater. *)
Definition max_0 (x : Q) : Q := if negb (Qle_bool x 0) then x else 0%Q.

Module Draw.
(** [get_width] is the width that the font gives to a rendered text. *)
Definition draw_menu `{Constants} (get_width : Text → Z) : result (list Command) :=
  let title := Plain "Rhythm Game" in
  let option1 := Plain "1. Test Mode" in
  let option2 := Plain "2. Normal Mode" in
  half ← floordiv WINDOW_WIDTH 2;
  w0 ← floordiv (get_width title) 2;
  w1 ← floordiv (get_width option1) 2;
  w2 ← floordiv (get_width option2) 2;
  Ok [Blit title WHITE (half - w0, 200)%Z;
      Blit option1 WHITE (half - w1, 300)%Z;
      Blit option2 WHITE (half - w2, 350)%Z].

Definition draw_game_info `{Constants} (g : Game.t) : list Command :=
  let time_left := max_0 (GAME_DURATION - Game.current_time g) in
  let info_texts :=
    [Labelled "Time: " (py_int time_left);
     Labelled "Level: " (Game.current_level g);
     Labelled "Hits: " (Game.hits g);
     Labelled "Combo: " (Game.combo g)] in
  imap (fun i text => Blit text WHITE (10, 10 + Z.of_nat i * 30)%Z) info_texts.

Definition draw_test_info `{Constants} (g : Game.t) : list Command :=
  let time_left := max_0 (GAME_DURATION - Game.current_time g) in
  [Blit (Labelled "Time: " (py_int time_left)) WHITE (10, 10)%Z].

(** The rectangle of a note, if it gets one. *)
Definition draw_note `{Constants} (note : Note.t) : option Command :=
  match Note.state note with
  | state_active => Some (Rect BLUE (Note.x note) (Note.y note) NOTE_WIDTH NOTE_HEIGHT)
  | state_missed => Some (Rect RED (Note.x note) (Note.y note) NOTE_WIDTH NOTE_HEIGHT)
  | state_hit => None
  end.

Definition draw_game `{Constants} (g : Game.t) : result (list Command) :=
  lane_width ← floordiv WINDOW_WIDTH (Z.of_nat (length KEYS));
  let lanes :=
    (fun i => Line GRAY (lane_width * Z.of_nat i, 0)%Z
                (lane_width * Z.of_nat i, WINDOW_HEIGHT)%Z 2)
      <$> seq 0 (length KEYS) in
  let hit_line_color :=
    if negb (Qle_bool (Game.hit_line_flash_timer g) 0) then RED else WHITE in
  let hit_line := Line hit_line_color (0, HIT_LINE_Y)%Z (WINDOW_WIDTH, HIT_LINE_Y) 2 in
  let notes := omap draw_note (Game.notes g) in
  let info :=
    if bool_decide (Game.mode g = Some "normal"%string) then draw_game_info g
    else if bool_decide (Game.mode g = Some "test"%string) then draw_test_info g
    else [] in
  Ok (lanes ++ [hit_line] ++ notes ++ info).

(** [draw], which alone calls the methods above: its first call,
    [self.screen.fill], fails once [pygame.quit()] has run. *)
Definition draw `{Constants} (get_width : Text → Z) (g : Game.t) : result (list Command) :=
  if Game.pygame_quit g then Raise pygame_error
  else
    body ← (if Game.in_menu g then draw_menu get_width else draw_game g);
    Ok ([Fill BLACK] ++ body ++ [Flip]).

(** [draw] on a fresh object: outside the menu, [draw_game] comes to
    [self.hit_line_flash_timer], which does not exist. *)
Definition fresh_draw `{Constants} (get_width : Text → Z) (f : Fresh.t)
    : result (list Command) :=
  if Fresh.pygame_quit f then Raise pygame_error
  else
    body ← (if Fresh.in_menu f then draw_menu get_width
            else _ ← floordiv WINDOW_WIDTH (Z.of_nat (length KEYS)); Raise AttributeError);
    Ok ([Fill BLACK] ++ body ++ [Flip]).
End Draw.

(** [run] over the frames that are given: the events of each frame with
    what the player enters in the dialogs they open, and what the frame's
    [update] is supplied with. [self.clock.tick(FPS)] only waits. *)
Fixpoint run `{Constants} (get_width : Text → Z)
    (frames : list (list (Input.t * Event) * Input.t)) : Game.M unit :=
  match frames with
  | [] => mret tt
  | (events, inp) :: rest =>
    g ← Game.get;
    if Game.running g then
      Game.handle_input events;;
      Game.update inp;;
      g ← Game.get;
      Game.lift (Draw.draw get_width g);;
      run get_width rest
    else mret tt
  end.

(** [Game().run()], as [__main__] calls it, on the wall clock [wall]: the
    object is fresh until a frame starts a game. *)
Fixpoint fresh_run `{Constants} (get_width : Text → Z)
    (frames : list (list (Input.t * Event) * Input.t)) (f : Fresh.t)
    : result (Fresh.t + Game.t) :=
  match frames with
  | [] => Ok (inl f)
  | (events, inp) :: rest =>
    if Fresh.running f then
      o ← Game.fresh_handle_input events f;
      match o with
      | inl f =>
        f ← Fresh.update f;
        _ ← Draw.fresh_draw get_width f;
        fresh_run get_width rest f
      | inr g =>
        '(_, g) ← (Game.update inp;;
                   g ← Game.get;
                   Game.lift (Draw.draw get_width g);;
                   run get_width rest) g;
        Ok (inr g)
      end
    else Ok (inl f)
  end.

Definition main `{Constants} (get_width : Text → Z) (wall : nat → Q)
    (frames : list (list (Input.t * Event) * Input.t)) : result (Fresh.t + Game.t) :=
  fresh_run get_width frames (Game.__init__ wall).

(** A font in which every character is 14 pixels wide. *)
Definition fixed_width (t : Text) : Z :=
  match t with
  | Plain s => 14 * Z.of_nat (String.length s)
  | Labelled label _ => 14 * Z.of_nat (String.length label + 2)
  end.

(** Three frames: a press of J; nothing; S confirmed, then Q declined. *)
Definition three_frames : list (list (Input.t * Event) * Input.t) :=
  [([(full_input, KEYDOWN (K_other "j"))], full_input);
   ([], full_input);
   ([(full_input, KEYDOWN K_s); (full_input, OTHER)], full_input)].

(** * Judgment of a press *)

(** Unfolding of the monad's operations, to run a method on a symbolic state. *)
Ltac run_M :=
  cbv [mbind mret Game.M_bind Game.M_ret Game.lift Game.get Game.modify Game.raise
       Game.time_time Game.record_hit Game.pygame_call].

(** Projections of a note that has been updated. *)
Ltac note_simpl :=
  cbn [Note.lane Note.x Note.y Note.speed Note.state Note.hit_time Note.start_hit_time
       Note.miss_time Note.set_y Note.set_state Note.set_hit_time
       Note.set_start_hit_time Note.set_miss_time].

Section Press.
Context `{K : Constants}.

Lemma eligible_false_inv lane n :
  eligible lane n = false →
  Note.lane n = lane → Note.state n = state_active → Game.in_window n = false.
Proof.
  unfold eligible. intros H Hl Hs.
  rewrite !bool_decide_eq_true_2 in H by done. exact H.
Qed.

Lemma loop_no_eligible lane ns : ∀ i g,
  Forall (fun n => eligible lane n = false) ns →
  Game.handle_note_hit_loop lane i ns g = Ok ((false, false), g).
Proof.
  induction ns as [|n ns IH]; intros i g Hall; [reflexivity|].
  apply Forall_cons in Hall as [Hn Hall]. simpl.
  destruct (decide (Note.lane n = lane)) as [Hl|Hl];
    [rewrite (bool_decide_eq_true_2 _ Hl)|rewrite (bool_decide_eq_false_2 _ Hl)];
    simpl; [|by apply IH].
  destruct (decide (Note.state n = state_active)) as [Hs|Hs];
    [rewrite (bool_decide_eq_true_2 _ Hs)|rewrite (bool_decide_eq_false_2 _ Hs)];
    simpl; [|by apply IH].
  rewrite (eligible_false_inv _ _ Hn Hl Hs).
  rewrite bool_decide_eq_false_2 by (rewrite Hs; discriminate).
  by apply IH.
Qed.

Lemma loop_first_eligible lane pre n post : ∀ i g,
  Forall (fun n => eligible lane n = false) pre →
  eligible lane n = true →
  Game.handle_note_hit_loop lane i (pre ++ n :: post) g
  = Ok ((true, false), after_hit (i + length pre) n g).
Proof.
  induction pre as [|p pre IH]; intros i g Hall Hn.
  - unfold eligible in Hn. apply andb_prop in Hn as [Hn Hw].
    simpl. rewrite Hn, Hw, Nat.add_0_r. vm_compute. reflexivity.
  - apply Forall_cons in Hall as [Hp Hall]. simpl.
    replace (i + S (length pre))%nat with (S i + length pre)%nat by lia.
    destruct (decide (Note.lane p = lane)) as [Hl|Hl];
      [rewrite (bool_decide_eq_true_2 _ Hl)|rewrite (bool_decide_eq_false_2 _ Hl)];
      simpl; [|by apply IH].
    destruct (decide (Note.state p = state_active)) as [Hs|Hs];
      [rewrite (bool_decide_eq_true_2 _ Hs)|rewrite (bool_decide_eq_false_2 _ Hs)];
      simpl; [|by apply IH].
    rewrite (eligible_false_inv _ _ Hp Hl Hs).
    rewrite bool_decide_eq_false_2 by (rewrite Hs; discriminate).
    by apply IH.
Qed.

Lemma list_index_nonempty l key lane : list_index l key = Ok lane → l ≠ [].
Proof. by destruct l. Qed.

Lemma list_index_lt l key : ∀ lane, list_index l key = Ok lane → (lane < length l)%nat.
Proof.
  induction l as [|k l IH]; intros lane; simpl; [done|].
  destruct (String.eqb k key).
  - intros [= <-]. lia.
  - destruct (list_index l key) as [j|e] eqn:E; simpl; [|done].
    intros [= <-]. specialize (IH j eq_refl). lia.
Qed.

Lemma dummy_note_init key lane g :
  list_index KEYS key = Ok lane →
  Note.__init__ lane (DifficultyManager.current_speed (Game.difficulty_manager g))
    (inject_Z HIT_LINE_Y)
  = Ok (Note.set_hit_time None (dummy_note lane g)).
Proof.
  intros Hk. apply list_index_lt in Hk.
  unfold Note.__init__, floordiv.
  destruct (Z.eqb_spec (Z.of_nat (length KEYS)) 0) as [E|E]; [lia|].
  reflexivity.
Qed.

Lemma first_eligible_or_none lane (ns : list Note.t) :
  Forall (fun n => eligible lane n = false) ns
  ∨ ∃ pre n post, ns = pre ++ n :: post
      ∧ Forall (fun n => eligible lane n = false) pre ∧ eligible lane n = true.
Proof.
  induction ns as [|a ns IH]; [by left|].
  destruct (eligible lane a) eqn:Ea.
  - right. exists [], a, ns. by repeat split.
  - destruct IH as [IH|(pre & n & post & -> & Hpre & Hn)].
    + left. by constructor.
    + right. exists (a :: pre), n, post. repeat split; [|done]. by constructor.
Qed.

Lemma handle_note_hit_incorrect key lane g :
  list_index KEYS key = Ok lane →
  Forall (fun n => eligible lane n = false) (Game.notes g) →
  Game.handle_note_hit key g = Ok (tt, after_incorrect lane g).
Proof.
  intros Hk Hall. unfold Game.handle_note_hit. run_M.
  rewrite Hk, (loop_no_eligible _ _ _ _ Hall).
  cbn -[Note.__init__].
  rewrite (dummy_note_init key lane _ Hk). reflexivity.
Qed.

Lemma handle_note_hit_hit key lane g pre n post :
  list_index KEYS key = Ok lane →
  Game.notes g = pre ++ n :: post →
  Forall (fun n => eligible lane n = false) pre →
  eligible lane n = true →
  Game.handle_note_hit key g = Ok (tt, after_hit (length pre) n g).
Proof.
  intros Hk Hns Hpre Hn. unfold Game.handle_note_hit. run_M.
  rewrite Hk, Hns, (loop_first_eligible _ _ _ _ 0%nat g Hpre Hn). reflexivity.
Qed.

Lemma eligible_spec lane n :
  eligible lane n = true ↔
  Note.lane n = lane ∧ Note.state n = state_active
  ∧ (inject_Z (HIT_LINE_Y - NOTE_HEIGHT) <= Note.y n ∧ Note.y n <= inject_Z HIT_LINE_Y)%Q.
Proof.
  unfold eligible, Game.in_window.
  rewrite !andb_true_iff, !bool_decide_eq_true, !Qle_bool_iff. tauto.
Qed.

Lemma truthy_true (q : Q) : truthy q = true ↔ ¬ (q == 0)%Q.
Proof.
  unfold truthy. rewrite negb_true_iff. split.
  - apply Qeq_bool_neq.
  - intros H. destruct (Qeq_bool q 0) eqn:E; [|done].
    by apply Qeq_bool_iff in E.
Qed.

Lemma truthy_false (q : Q) : truthy q = false ↔ (q == 0)%Q.
Proof. unfold truthy. by rewrite negb_false_iff, Qeq_bool_iff. Qed.

Lemma py_int_inject (q : Q) (z : Z) : (q == inject_Z z)%Q → py_int q = z.
Proof.
  unfold Qeq, py_int. simpl. intros E. rewrite Z.mul_1_r in E. rewrite E.
  apply Z.quot_mul. done.
Qed.

Lemma truthy_Qabs_diag (q : Q) : truthy (Qabs (q - q)) = false.
Proof.
  unfold truthy. apply negb_false_iff, Qeq_bool_iff.
  assert (E : (q - q == 0)%Q) by ring. rewrite E. reflexivity.
Qed.

(** Whatever the clock reads, the record of an incorrect press carries no
    reaction distance and no reaction time. *)
Lemma incorrect_press_event lane g :
  ∃ e, session_data (after_incorrect lane g) = session_data g ++ [e]
       ∧ Data.hit_status e = status_incorrect
       ∧ Data.lane e = lane
       ∧ Data.reaction_time e = None
       ∧ Data.reaction_distance e = None.
Proof.
  eexists. split; [reflexivity|]. repeat split.
  unfold DataCollector.record_hit, dummy_note, Data.reaction_distance, Note.hit_time, Note.y.
  simpl opt_truthy.
  destruct (truthy (Game.wall g (Game.reads g))); [|reflexivity].
  by rewrite truthy_Qabs_diag.
Qed.

(** The event of a hit: status, lane, and the distance to the judgment line. *)
Lemma hit_event i n g :
  ∃ e, session_data (after_hit i n g) = session_data g ++ [e]
       ∧ Data.hit_status e = status_hit
       ∧ Data.lane e = Note.lane n
       ∧ Data.level e = Game.current_level g
       ∧ Data.reaction_distance e =
           (if truthy (Game.wall g (Game.reads g)) then
              let d := Qabs (Note.y n - inject_Z HIT_LINE_Y) in
              if truthy d then Some (py_int d) else None
            else None).
Proof.
  eexists. split; [reflexivity|].
  do 3 (split; [reflexivity|]).
  cbn. by destruct (truthy (Game.wall g (Game.reads g))).
Qed.

(** Every press of a key of [KEYS] is judged, and it is judged a hit exactly
    when the lane holds an active note inside the judgment window. *)
Lemma press_outcome g key lane :
  list_index KEYS key = Ok lane →
  ∃ g' e,
    Game.handle_note_hit key g = Ok (tt, g')
    ∧ session_data g' = session_data g ++ [e]
    ∧ (Data.hit_status e = status_hit ∨ Data.hit_status e = status_incorrect)
    ∧ (Data.hit_status e = status_hit ↔
       ∃ n, n ∈ Game.notes g ∧ Note.lane n = lane ∧ Note.state n = state_active
            ∧ (inject_Z (HIT_LINE_Y - NOTE_HEIGHT) <= Note.y n
               ∧ Note.y n <= inject_Z HIT_LINE_Y)%Q).
Proof.
  intros Hk.
  destruct (first_eligible_or_none lane (Game.notes g))
    as [Hall|(pre & n & post & Hns & Hpre & Hn)].
  - exists (after_incorrect lane g).
    destruct (incorrect_press_event lane g) as (e & Hsd & Hst & _).
    exists e. split; [by apply handle_note_hit_incorrect|].
    split; [done|]. split; [by right|]. rewrite Hst. split; [done|].
    intros (n & Hin & Hl & Hs & Hw).
    rewrite Forall_forall in Hall. specialize (Hall n Hin).
    assert (eligible lane n = true) by by apply eligible_spec. congruence.
  - exists (after_hit (length pre) n g).
    destruct (hit_event (length pre) n g) as (e & Hsd & Hst & _).
    exists e. split; [by eapply handle_note_hit_hit|].
    split; [done|]. split; [by left|]. split; [|done].
    intros _. exists n. apply eligible_spec in Hn as (? & ? & ?).
    split; [|done]. rewrite Hns. apply elem_of_app. right. by left.
Qed.

End Press.

Section Scenarios.
#[local] Existing Instance rhythmGame.

(** C1 (the code does otherwise): the marker of lane 2 is resolved as Hit by
    a first press of J and leaves the list; a second press of J is then
    recorded as an incorrect press, not as a duplicate: the combo falls back
    to 0 and the incorrect-press counter goes up. *)
Theorem C1_second_press_is_incorrect :
  ∃ g1 g2,
    Game.handle_note_hit "J" scenario_A = Ok (tt, g1)
    ∧ Game.handle_note_hit "J" g1 = Ok (tt, g2)
    ∧ Game.notes g1 = []
    ∧ Data.hit_status <$> session_data g1 = [status_hit]
    ∧ Data.hit_status <$> session_data g2 = [status_hit; status_incorrect]
    ∧ Game.combo g1 = 1%Z ∧ Game.combo g2 = 0%Z
    ∧ Game.incorrect_hits g1 = 0%Z ∧ Game.incorrect_hits g2 = 1%Z.
Proof.
  exists (after_hit 0 marker_A scenario_A),
         (after_incorrect 2 (after_hit 0 marker_A scenario_A)).
  split.
  { apply (handle_note_hit_hit "J" 2%nat scenario_A [] marker_A []); by vm_compute. }
  split.
  { apply handle_note_hit_incorrect; [reflexivity|]. by vm_compute. }
  by vm_compute.
Qed.

(** C2: with the judgment line at 500 and markers 40 high, a press of J
    (lane 2) while the first marker of lane 2 the press can reach is active
    at position 480 is recorded as a hit in lane 2 with reaction distance 20,
    and takes the marker out of the list; and for every game and every key,
    the press is recorded as a hit exactly when the lane holds an active
    marker whose position lies in [460, 500]. *)
Theorem C2_press_in_window_is_hit (g : Game.t) (pre post : list Note.t) (n : Note.t) :
  Game.notes g = pre ++ n :: post →
  Forall (fun m => eligible 2 m = false) pre →
  Note.lane n = 2%nat →
  Note.state n = state_active →
  (Note.y n == 480)%Q →
  truthy (Game.wall g (Game.reads g)) = true →
  (∃ g' e,
     Game.handle_note_hit "J" g = Ok (tt, g')
     ∧ session_data g' = session_data g ++ [e]
     ∧ Data.hit_status e = status_hit
     ∧ Data.lane e = 2%nat
     ∧ Data.reaction_distance e = Some 20%Z
     ∧ Game.notes g' = pre ++ post
     ∧ Game.combo g' = (Game.combo g + 1)%Z
     ∧ Game.hits g' = (Game.hits g + 1)%Z)
  ∧ (∀ (g0 : Game.t) (key : string) (lane : nat),
       list_index KEYS key = Ok lane →
       ∃ g' e,
         Game.handle_note_hit key g0 = Ok (tt, g')
         ∧ session_data g' = session_data g0 ++ [e]
         ∧ (Data.hit_status e = status_hit ↔
            ∃ m, m ∈ Game.notes g0 ∧ Note.lane m = lane ∧ Note.state m = state_active
                 ∧ (460 <= Note.y m ∧ Note.y m <= 500)%Q)).
Proof.
  intros Hns Hpre Hl Hs Hy Ht. split.
  - assert (Hn : eligible 2 n = true).
    { apply eligible_spec. repeat split; [done..| |].
      - rewrite Hy. by vm_compute.
      - rewrite Hy. by vm_compute. }
    exists (after_hit (length pre) n g).
    destruct (hit_event (length pre) n g) as (e & Hsd & Hst & Hlane & _ & Hd).
    exists e. split; [by apply (handle_note_hit_hit "J" 2%nat g pre n post)|].
    split; [done|]. split; [done|]. split; [congruence|].
    split; [|split; [|done]].
    + rewrite Hd, Ht. cbv zeta.
      assert (E : (Qabs (Note.y n - inject_Z HIT_LINE_Y) == inject_Z 20)%Q).
      { rewrite Hy. by vm_compute. }
      rewrite (py_int_inject _ _ E).
      replace (truthy _) with true; [done|].
      symmetry. apply truthy_true. rewrite E. by vm_compute.
    + change (Game.notes (after_hit (length pre) n g))
        with (delete (length pre) (Game.notes g)).
      rewrite Hns. clear. induction pre as [|p pre IH]; [done|].
      simpl. by rewrite IH.
  - intros g0 key lane Hk.
    destruct (press_outcome g0 key lane Hk) as (g' & e & Hrun & Hsd & _ & Hiff).
    exists g', e. exact (conj Hrun (conj Hsd Hiff)).
Qed.

Lemma C2_press_in_window_is_hit_witness :
  ∃ g' e,
    Game.handle_note_hit "J" scenario_A = Ok (tt, g')
    ∧ session_data g' = session_data scenario_A ++ [e]
    ∧ Data.hit_status e = status_hit
    ∧ Data.lane e = 2%nat
    ∧ Data.reaction_distance e = Some 20%Z
    ∧ Game.notes g' = [] ++ []
    ∧ Game.combo g' = (Game.combo scenario_A + 1)%Z
    ∧ Game.hits g' = (Game.hits scenario_A + 1)%Z.
Proof.
  apply (C2_press_in_window_is_hit scenario_A [] [] marker_A).
  - reflexivity.
  - constructor.
  - reflexivity.
  - reflexivity.
  - reflexivity.
  - vm_compute. reflexivity.
Defined.

(** C4 (the code does otherwise): a press of D with no marker in lane 0 is
    recorded as an incorrect press whose reaction distance is absent
    ([None]), not the number 0. *)
Theorem C4_incorrect_press_distance_absent :
  ∃ g' e,
    Game.handle_note_hit "D" started = Ok (tt, g')
    ∧ session_data g' = [e]
    ∧ Data.hit_status e = status_incorrect
    ∧ Data.lane e = 0%nat
    ∧ Data.reaction_distance e = None
    ∧ Data.reaction_distance e ≠ Some 0%Z.
Proof.
  exists (after_incorrect 0 started).
  destruct (incorrect_press_event 0 started) as (e & Hsd & Hst & Hl & _ & Hd).
  exists e. split; [by apply handle_note_hit_incorrect|].
  split; [exact Hsd|]. rewrite Hd. by repeat split.
Qed.

End Scenarios.

(** C3: when no active marker of the lane is inside the judgment window,
    pressing the lane's key any number [n] of times succeeds, records [n]
    incorrect presses in that lane and nothing else, leaves the list of
    markers as it was, adds exactly [n] to the incorrect-press counter, and
    (for [n] at least 1) leaves the combo at 0. *)
Theorem C3_press_without_eligible_marker `{K : Constants}
    (g : Game.t) (key : string) (lane : nat) (n : nat) :
  list_index KEYS key = Ok lane →
  Forall (fun m => eligible lane m = false) (Game.notes g) →
  ∃ g' es,
    press_repeatedly key n g = Ok (tt, g')
    ∧ Game.notes g' = Game.notes g
    ∧ session_data g' = session_data g ++ es
    ∧ length es = n
    ∧ Forall (fun e => Data.hit_status e = status_incorrect ∧ Data.lane e = lane) es
    ∧ Game.incorrect_hits g' = (Game.incorrect_hits g + Z.of_nat n)%Z
    ∧ Game.hits g' = Game.hits g
    ∧ ((0 < n)%nat → Game.combo g' = 0%Z).
Proof.
  intros Hk. revert g. induction n as [|n IH]; intros g Hall.
  - exists g, []. simpl. rewrite app_nil_r, Z.add_0_r.
    repeat split; [constructor|lia].
  - destruct (incorrect_press_event lane g) as (e & Hsd & Hst & Hl & _).
    assert (Hall' : Forall (fun m => eligible lane m = false)
                      (Game.notes (after_incorrect lane g))) by exact Hall.
    destruct (IH _ Hall') as (g' & es & Hrun & Hns & Hsd' & Hlen & Hes & Hinc & Hhits & Hcombo).
    exists g', (e :: es). split.
    { simpl. unfold mbind, Game.M_bind.
      by rewrite (handle_note_hit_incorrect key lane g Hk Hall). }
    split; [by rewrite Hns|].
    split; [by rewrite Hsd', Hsd, <- app_assoc|].
    split; [simpl; by rewrite Hlen|].
    split; [by constructor|].
    split; [rewrite Hinc; simpl Game.incorrect_hits; lia|].
    split; [by rewrite Hhits|].
    intros _. destruct n as [|n]; [|apply Hcombo; lia].
    simpl in Hrun. by injection Hrun as <-.
Qed.

Lemma C3_press_without_eligible_marker_witness :
  ∃ g' es,
    @press_repeatedly rhythmGame "D" 3 scenario_A = Ok (tt, g')
    ∧ Game.notes g' = Game.notes scenario_A
    ∧ session_data g' = session_data scenario_A ++ es
    ∧ length es = 3%nat
    ∧ Forall (fun e => Data.hit_status e = status_incorrect ∧ Data.lane e = 0%nat) es
    ∧ Game.incorrect_hits g' = (Game.incorrect_hits scenario_A + Z.of_nat 3)%Z
    ∧ Game.hits g' = Game.hits scenario_A
    ∧ ((0 < 3)%nat → Game.combo g' = 0%Z).
Proof.
  apply (@C3_press_without_eligible_marker rhythmGame scenario_A "D" 0 3).
  - reflexivity.
  - repeat constructor.
Defined.

(** * Level selection and session construction *)

(** C5, as the code has it: selecting a level beyond the declared ones is
    not an error; [set_level] records the number as the current level and
    keeps the speed and the acceleration of the level before. *)
Theorem C5_level_beyond_count_keeps_settings (dm : DifficultyManager.t) (n : Z) :
  (Z.of_nat (length (DifficultyManager.levels dm)) < n)%Z →
  DifficultyManager.set_level n dm = Ok (level_recorded n dm).
Proof.
  intros Hn. unfold DifficultyManager.set_level. simpl.
  destruct (Z.leb_spec n (Z.of_nat (length (DifficultyManager.levels dm)))); [lia|].
  reflexivity.
Qed.

Lemma C5_level_beyond_count_keeps_settings_witness :
  (Z.of_nat (length (DifficultyManager.levels (Game.difficulty_manager started))) < 6)%Z
  ∧ DifficultyManager.set_level 6 (Game.difficulty_manager started)
    = Ok (level_recorded 6 (Game.difficulty_manager started)).
Proof.
  split.
  - vm_compute. reflexivity.
  - apply C5_level_beyond_count_keeps_settings. vm_compute. reflexivity.
Defined.

(** With five levels declared, selecting level 6 raises nothing: the call
    returns, the manager now at level 6 with the speed 2.0 of level 1. *)
Lemma C5_counterexample :
  length (DifficultyManager.levels (Game.difficulty_manager started)) = 5%nat
  ∧ (∃ dm, DifficultyManager.set_level 6 (Game.difficulty_manager started) = Ok dm
           ∧ DifficultyManager.current_level dm = 6%Z
           ∧ (DifficultyManager.current_speed dm == 2)%Q)
  ∧ ¬ (∃ e, DifficultyManager.set_level 6 (Game.difficulty_manager started) = Raise e).
Proof.
  split; [reflexivity|]. split.
  - eexists. split; [reflexivity|]. split; reflexivity.
  - intros [e He]. discriminate He.
Qed.




(** [init_game] depends on the object through the attributes that
    [__init__] creates and through the state of the process only: the
    values that [Game.blank] puts in the place of the other attributes do
    not show in its result. *)
Lemma init_game_blank `{K : Constants} (inp : Input.t) (g1 g2 : Game.t) :
  Game.mode g1 = Game.mode g2 → Game.player_name g1 = Game.player_name g2 →
  Game.running g1 = Game.running g2 → Game.in_menu g1 = Game.in_menu g2 →
  Game.wall g1 = Game.wall g2 → Game.reads g1 = Game.reads g2 →
  Game.pygame_quit g1 = Game.pygame_quit g2 →
  Game.init_game inp g1 = Game.init_game inp g2.
Proof.
  destruct g1, g2. cbn. intros -> -> -> -> -> -> ->.
  unfold Game.init_game. run_M. cbn [Game.mode Game.player_name].
  match goal with
  | |- context [DifficultyManager.set_level ?n ?dm] =>
    destruct (DifficultyManager.set_level n dm)
  end; reflexivity.
Qed.

(** * The tick of a marker *)

Section Tick.
Context `{K : Constants}.

Lemma Qle_bool_false (a b : Q) : Qle_bool a b = false ↔ (b < a)%Q.
Proof.
  split.
  - intros E. apply Qnot_le_lt. intros H. apply Qle_bool_iff in H. congruence.
  - intros H. destruct (Qle_bool a b) eqn:E; [|done].
    apply Qle_bool_iff in E. exfalso. by apply (Qlt_not_le _ _ H).
Qed.

(** The body of the loop of [update] on the note at position [i]. *)
Lemma update_note_cases (i : nat) (n : Note.t) (g : Game.t) :
  Game.notes g !! i = Some n →
  (Note.state n = state_active →
   ∃ g' n',
     Game.update_note i n g = Ok (S i, g')
     ∧ Game.notes g' = <[i := n']> (Game.notes g)
     ∧ Game.notes g' !! i = Some n'
     ∧ Note.lane n' = Note.lane n
     ∧ Note.y n' = (Note.y n + Note.speed n)%Q
     ∧ ((inject_Z HIT_LINE_Y < Note.y n + Note.speed n)%Q →
        Note.state n' = state_missed
        ∧ (∃ k, (Game.reads g ≤ k < Game.reads g')%nat
                ∧ Note.miss_time n' = Some (Game.wall g k))
        ∧ Game.combo g' = 0%Z
        ∧ Game.total_notes g' = (Game.total_notes g + 1)%Z
        ∧ ∃ e, session_data g' = session_data g ++ [e]
               ∧ Data.hit_status e = status_miss
               ∧ Data.lane e = Note.lane n
               ∧ Data.level e = Game.current_level g)
     ∧ ((Note.y n + Note.speed n <= inject_Z HIT_LINE_Y)%Q →
        Note.state n' = state_active
        ∧ Note.miss_time n' = Note.miss_time n
        ∧ Game.combo g' = Game.combo g
        ∧ Game.total_notes g' = Game.total_notes g
        ∧ session_data g' = session_data g))
  ∧ (Note.state n = state_missed →
     ∀ m, Note.miss_time n = Some m →
     ((5 # 10 < Game.wall g (Game.reads g) - m)%Q →
      ∃ g', Game.update_note i n g = Ok (i, g')
            ∧ Game.notes g' = delete i (Game.notes g)
            ∧ Game.reads g' = S (Game.reads g)
            ∧ Game.combo g' = Game.combo g
            ∧ session_data g' = session_data g)
     ∧ ((Game.wall g (Game.reads g) - m <= 5 # 10)%Q →
        ∃ g', Game.update_note i n g = Ok (S i, g')
              ∧ Game.notes g' = Game.notes g
              ∧ Game.reads g' = S (Game.reads g)
              ∧ Game.combo g' = Game.combo g
              ∧ session_data g' = session_data g)).
Proof.
  intros Hi. assert (Hlt : (i < length (Game.notes g))%nat) by by eapply lookup_lt_Some.
  clear Hi. destruct n as [ln x y sp st ht sht mt]. cbn [Note.state Note.miss_time].
  split.
  - intros ->. unfold Game.update_note. cbn [Note.state]. run_M.
    note_simpl.
    assert (Hd : bool_decide (state_active = state_active) = true) by reflexivity.
    destruct (Qle_bool (y + sp) (inject_Z HIT_LINE_Y)) eqn:Ey.
    + (* still at or above the line: no transition *)
      assert (Hle := proj1 (Qle_bool_iff _ _) Ey).
      destruct sht as [s|];
        [|destruct (Qle_bool (inject_Z (HIT_LINE_Y - NOTE_HEIGHT)) (y + sp)) eqn:Ew];
        cbv beta iota;
        note_simpl; rewrite Ey, Hd;
        cbv beta iota; cbn [negb andb];
        (eexists; eexists; split; [reflexivity|]);
        (split; [reflexivity|]);
        (split; [apply list_lookup_insert_eq; exact Hlt|]);
        (split; [reflexivity|]); (split; [reflexivity|]);
        (split; [intros Hgt; exfalso; by apply (Qlt_not_le _ _ Hgt)|]);
        intros _; by repeat split.
    + (* beyond the line: the marker is missed *)
      assert (Hgt := proj1 (Qle_bool_false _ _) Ey).
      destruct sht as [s|];
        [|destruct (Qle_bool (inject_Z (HIT_LINE_Y - NOTE_HEIGHT)) (y + sp)) eqn:Ew];
        cbv beta iota;
        note_simpl; rewrite Ey, Hd;
        cbv beta iota; cbn [negb andb];
        (eexists; eexists; split; [reflexivity|]);
        (split; [reflexivity|]);
        (split; [apply list_lookup_insert_eq; exact Hlt|]);
        (split; [reflexivity|]); (split; [reflexivity|]);
        (split; [|intros Hle; exfalso; by apply (Qlt_not_le _ _ Hgt)]);
        intros _;
        (split; [reflexivity|]);
        (split; [eexists; (split; [|reflexivity]); cbn; lia|]);
        (split; [reflexivity|]); (split; [reflexivity|]);
        eexists; (split; [reflexivity|]); by repeat split.
  - intros -> m ->. unfold Game.update_note. cbn [Note.state Note.miss_time]. run_M. split.
    + intros Hgt. apply Qle_bool_false in Hgt. rewrite Hgt. cbn [negb].
      eexists. split; [reflexivity|]. by repeat split.
    + intros Hle. apply Qle_bool_iff in Hle. rewrite Hle. cbn [negb].
      eexists. split; [reflexivity|]. by repeat split.
Qed.

(** The same as a relation between the note and what the tick leaves of it. *)
Lemma update_note_marker (i : nat) (n : Note.t) (g : Game.t) :
  Game.notes g !! i = Some n → note_ok n →
  ∃ j g' after,
    Game.update_note i n g = Ok (j, g')
    ∧ marker_tick (Game.wall g) (Game.reads g) (Game.reads g') n after
    ∧ match after with
      | Some n' => j = S i ∧ Game.notes g' = <[i := n']> (Game.notes g)
      | None => j = i ∧ Game.notes g' = delete i (Game.notes g)
      end.
Proof.
  intros Hi (_ & Hnh & _ & Hmt).
  destruct (update_note_cases i n g Hi) as [Hactive Hmissed].
  unfold marker_tick.
  destruct (Note.state n) eqn:Est; [|done|].
  - destruct (Hactive eq_refl) as (g' & n' & Hrun & Hns & _ & Hlane & Hy & Hbeyond & Hstay).
    exists (S i), g', (Some n'). split; [done|]. split; [|done].
    exists n'. split; [done|]. split; [done|]. split; [done|]. split.
    + intros Hgt. destruct (Hbeyond Hgt) as (? & ? & _). by split.
    + intros Hle. destruct (Hstay Hle) as (? & ? & _). by split.
  - destruct (Hmt eq_refl) as [m Hm].
    destruct (Hmissed eq_refl m Hm) as [Hgone Hkept].
    destruct (Qlt_le_dec (5 # 10) (Game.wall g (Game.reads g) - m)) as [Hgt|Hle].
    + destruct (Hgone Hgt) as (g' & Hrun & Hns & Hr & _).
      exists i, g', None. split; [done|]. split; [|done].
      exists (Game.reads g), m. split; [lia|]. split; [done|]. split; [done|].
      intros Hle. exfalso. by apply (Qlt_not_le _ _ Hgt).
    + destruct (Hkept Hle) as (g' & Hrun & Hns & Hr & _).
      exists (S i), g', (Some n). split; [done|]. split.
      * exists (Game.reads g), m. split; [lia|]. split; [done|]. split; [|done].
        intros Hgt. exfalso. by apply (Qlt_not_le _ _ Hgt).
      * split; [done|]. by rewrite list_insert_id.
Qed.

(** A wider span of readings of the same clock. *)
Lemma marker_tick_span (w : nat → Q) (lo hi lo' hi' : nat) (n : Note.t)
    (after : option Note.t) :
  (lo' ≤ lo)%nat → (hi ≤ hi')%nat →
  marker_tick w lo hi n after → marker_tick w lo' hi' n after.
Proof.
  intros Hlo Hhi. unfold marker_tick. destruct (Note.state n); [|done|].
  - intros (n' & ? & ? & ? & Hb & ?). exists n'. split_and!; try done.
    intros Hgt. destruct (Hb Hgt) as (? & k & ? & ?). split; [done|]. exists k.
    split; [lia|done].
  - intros (k & m & ? & ?). exists k, m. split; [lia|done].
Qed.

End Tick.

(** Scenario B on the whole of [update]: the first tick moves the marker to
    502, marks it missed, resets the combo and records the miss; the tick
    after it, three seconds later on this clock, takes the marker out of
    the list. The other note is the one that the tick itself spawns. *)
Example scenario_B_two_ticks :
  ∃ g1 g2,
    @Game.update rhythmGame no_input scenario_B = Ok (tt, g1)
    ∧ @Game.update rhythmGame no_input g1 = Ok (tt, g2)
    ∧ Note.state <$> Game.notes g1 = [state_missed; state_active]
    ∧ Game.combo g1 = 0%Z
    ∧ Data.hit_status <$> session_data g1 = [status_miss]
    ∧ Note.state <$> Game.notes g2 = [state_active; state_active]
    ∧ Note.lane <$> Game.notes g2 = [0; 0]%nat.
Proof.
  eexists. eexists. split; [vm_compute; reflexivity|].
  split; [vm_compute; reflexivity|]. vm_compute. by repeat split.
Qed.

(** * The session clock *)

Section Clock.
Context `{K : Constants}.

Lemma bind_Ok {A B} (m : Game.M A) (f : A → Game.M B) g b g'' :
  (m ≫= f) g = Ok (b, g'') → ∃ a g', m g = Ok (a, g') ∧ f a g' = Ok (b, g'').
Proof.
  unfold mbind, Game.M_bind. destruct (m g) as [[a g']|e]; [|done].
  intros H. by exists a, g'.
Qed.

Lemma same_clock_refl g : same_clock g g.
Proof. by repeat split. Qed.

Lemma same_clock_trans g1 g2 g3 : same_clock g1 g2 → same_clock g2 g3 → same_clock g1 g3.
Proof.
  unfold same_clock. intros (?&?&?&?&?&?&?&?&?&?) (?&?&?&?&?&?&?&?&?&?).
  repeat split; try congruence. lia.
Qed.

Lemma space_pauses (inp : Input.t) (g : Game.t) :
  "SPACE"%string ∉ KEYS →
  Game.in_menu g = false → Game.game_over g = false → Game.paused g = false →
  Game.handle_event inp (KEYDOWN K_SPACE) g = Ok (tt, paused_at g).
Proof.
  intros Hk Hm Ho Hp.
  assert (Hb : bool_decide (upper (key_name K_SPACE) ∈ KEYS) = false)
    by by apply bool_decide_eq_false_2.
  destruct g. cbn in Hm, Ho, Hp. subst.
  unfold Game.handle_event. run_M. rewrite Hb. reflexivity.
Qed.

Lemma space_resumes (inp : Input.t) (g : Game.t) (p : Q) :
  "SPACE"%string ∉ KEYS →
  Game.in_menu g = false → Game.game_over g = false → Game.paused g = true →
  Game.pause_start_time g = Some p →
  Game.handle_event inp (KEYDOWN K_SPACE) g = Ok (tt, resumed_at p g).
Proof.
  intros Hk Hm Ho Hp Hs.
  assert (Hb : bool_decide (upper (key_name K_SPACE) ∈ KEYS) = false)
    by by apply bool_decide_eq_false_2.
  destruct g. cbn in Hm, Ho, Hp, Hs. subst.
  unfold Game.handle_event. run_M. rewrite Hb. reflexivity.
Qed.

(** Pause at the reading [p], resume at the reading [r]: the elapsed time at
    [r] after the resume is the elapsed time at [p] before the pause. *)
Lemma pause_then_resume (inp inp' : Input.t) (g : Game.t) :
  "SPACE"%string ∉ KEYS →
  Game.in_menu g = false → Game.game_over g = false → Game.paused g = false →
  let p := Game.wall g (Game.reads g) in
  let r := Game.wall g (S (Game.reads g)) in
  ∃ g1 g2,
    Game.handle_event inp (KEYDOWN K_SPACE) g = Ok (tt, g1)
    ∧ Game.handle_event inp' (KEYDOWN K_SPACE) g1 = Ok (tt, g2)
    ∧ Game.paused g1 = true ∧ Game.paused g2 = false
    ∧ Game.current_time g2 = Game.current_time g
    ∧ (elapsed g2 r == elapsed g p)%Q.
Proof.
  intros Hk Hm Ho Hp p r. exists (paused_at g), (resumed_at p (paused_at g)).
  split; [by apply space_pauses|].
  split; [by apply space_resumes|].
  do 3 (split; [reflexivity|]).
  unfold elapsed, resumed_at, paused_at, p, r. cbn. ring.
Qed.

Lemma update_note_clock (i : nat) (n : Note.t) (g : Game.t) (j : nat) (g' : Game.t) :
  Game.update_note i n g = Ok (j, g') → same_clock g g'.
Proof.
  destruct n as [ln x y sp st ht sht mt], g.
  unfold Game.update_note. cbn [Note.state]. destruct st.
  - run_M. note_simpl.
    assert (Hd : bool_decide (state_active = state_active) = true) by reflexivity.
    destruct sht as [s|];
      [|destruct (Qle_bool (inject_Z (HIT_LINE_Y - NOTE_HEIGHT)) (y + sp))];
      cbv beta iota; note_simpl; rewrite Hd;
      destruct (Qle_bool (y + sp) (inject_Z HIT_LINE_Y));
      cbv beta iota; cbn [negb andb];
      intros [= <- <-]; unfold same_clock; cbn; repeat split; lia.
  - run_M. intros [= <- <-]. apply same_clock_refl.
  - run_M. note_simpl. destruct mt as [m|]; [|done].
    match goal with |- context [Qle_bool ?a ?b] => destruct (Qle_bool a b) end;
      cbn [negb]; intros [= <- <-]; unfold same_clock; cbn; repeat split; lia.
Qed.

Lemma update_loop_clock (ns : list Note.t) : ∀ (i : nat) (g g' : Game.t),
  Game.update_loop i ns g = Ok (tt, g') → same_clock g g'.
Proof.
  induction ns as [|n ns IH]; intros i g g'; cbn [Game.update_loop].
  - intros [= <-]. apply same_clock_refl.
  - intros (j & g1 & H1 & H2)%bind_Ok.
    eapply same_clock_trans; [by eapply update_note_clock|by eapply IH].
Qed.


(** A tick of a running game that does not end the level: the elapsed time
    of the level is recomputed from the clock, and the clock of the level
    is otherwise left alone. *)
Lemma update_tick (inp : Input.t) (g g' : Game.t) :
  Game.paused g = false → Game.in_menu g = false → Game.game_over g = false →
  (elapsed g (Game.wall g (Game.reads g)) < GAME_DURATION)%Q →
  Game.update inp g = Ok (tt, g') →
  Game.current_time g' = elapsed g (Game.wall g (Game.reads g))
  ∧ Game.start_time g' = Game.start_time g
  ∧ Game.total_paused_time g' = Game.total_paused_time g
  ∧ Game.paused g' = false ∧ Game.in_menu g' = false ∧ Game.game_over g' = false
  ∧ Game.wall g' = Game.wall g
  ∧ (Game.reads g < Game.reads g')%nat.
Proof.
  intros Hp Hm Ho Hlt. unfold Game.update.
  intros (? & ? & [= <- <-] & H)%bind_Ok. rewrite Hp, Hm, Ho in H. cbn [negb andb] in H.
  apply bind_Ok in H as (now & ? & [= <- <-] & H).
  apply bind_Ok in H as ([] & ? & [= <-] & H).
  apply bind_Ok in H as (? & ? & [= <- <-] & H).
  set (g1 := Game.set_current_time _ _) in H.
  assert (Hg1 : Game.current_time g1 = elapsed g (Game.wall g (Game.reads g))
                ∧ Game.start_time g1 = Game.start_time g
                ∧ Game.total_paused_time g1 = Game.total_paused_time g
                ∧ Game.paused g1 = Game.paused g ∧ Game.in_menu g1 = Game.in_menu g
                ∧ Game.game_over g1 = Game.game_over g
                ∧ Game.wall g1 = Game.wall g ∧ Game.reads g1 = S (Game.reads g))
    by by repeat split.
  clearbody g1.
  apply bind_Ok in H as (ng & g2 & Hng & H).
  assert (g2 = g1) as ->.
  { unfold Game.lift in Hng. destruct (NoteGenerator.update _ _ _ _); by inversion Hng. }
  clear Hng.
  apply bind_Ok in H as ([] & ? & [= <-] & H).
  apply bind_Ok in H as (? & ? & [= <- <-] & H).
  apply bind_Ok in H as ([] & g3 & Hloop%update_loop_clock & H).
  apply bind_Ok in H as (? & ? & [= <- <-] & H).
  apply bind_Ok in H as ([] & g4 & Hflash & H).
  apply bind_Ok in H as (? & ? & [= <- <-] & H).
  destruct Hloop as (Hst & Htp & Hct & Hpa & _ & Hme & Hov & _ & Hw & Hr).
  cbn in Hst, Htp, Hct, Hpa, Hme, Hov, Hw, Hr.
  assert (Hg4 : Game.start_time g4 = Game.start_time g3
                ∧ Game.total_paused_time g4 = Game.total_paused_time g3
                ∧ Game.current_time g4 = Game.current_time g3
                ∧ Game.paused g4 = Game.paused g3 ∧ Game.in_menu g4 = Game.in_menu g3
                ∧ Game.game_over g4 = Game.game_over g3
                ∧ Game.wall g4 = Game.wall g3 ∧ Game.reads g4 = Game.reads g3).
  { destruct (negb (Qle_bool (Game.hit_line_flash_timer g3) 0));
      injection Hflash as <-; by repeat split. }
  destruct Hg4 as (Hst4 & Htp4 & Hct4 & Hpa4 & Hme4 & Hov4 & Hw4 & Hr4).
  destruct Hg1 as (Hct1 & Hst1 & Htp1 & Hpa1 & Hme1 & Hov1 & Hw1 & Hr1).
  assert (Hcur : Game.current_time g4 = elapsed g (Game.wall g (Game.reads g)))
    by congruence.
  assert (Hno : Qle_bool GAME_DURATION (Game.current_time g4) = false).
  { rewrite Hcur. by apply Qle_bool_false. }
  rewrite Hno in H. injection H as <-.
  repeat split; try congruence. lia.
Qed.

(** Two ticks in a row on a wall clock that does not run backwards: the
    elapsed time does not decrease. *)
Lemma two_ticks_monotone (inp inp' : Input.t) (g g1 g2 : Game.t) :
  (∀ i j, (i ≤ j)%nat → (Game.wall g i <= Game.wall g j)%Q) →
  Game.paused g = false → Game.in_menu g = false → Game.game_over g = false →
  (elapsed g (Game.wall g (Game.reads g)) < GAME_DURATION)%Q →
  Game.update inp g = Ok (tt, g1) →
  (elapsed g1 (Game.wall g1 (Game.reads g1)) < GAME_DURATION)%Q →
  Game.update inp' g1 = Ok (tt, g2) →
  (Game.current_time g1 <= Game.current_time g2)%Q.
Proof.
  intros Hmono Hp Hm Ho Hlt H1 Hlt1 H2.
  destruct (update_tick _ _ _ Hp Hm Ho Hlt H1) as (Hc1 & Hs1 & Ht1 & Hp1 & Hm1 & Ho1 & Hw1 & Hr1).
  destruct (update_tick _ _ _ Hp1 Hm1 Ho1 Hlt1 H2) as (Hc2 & _).
  rewrite Hc1, Hc2. unfold elapsed. rewrite Hs1, Ht1, Hw1.
  assert (Hle := Hmono (Game.reads g) (Game.reads g1) ltac:(lia)).
  apply Qplus_le_l. apply Qplus_le_l. exact Hle.
Qed.

End Clock.

(** C7 (the code does otherwise): [skip_level] restarts the clock of the
    level but leaves the game paused with the old [pause_start_time]; the
    resume then counts the 20 seconds since the pause as paused time of the
    new level, which started 10 seconds ago, and the next tick computes an
    elapsed time of -9 seconds. *)
Theorem C7_elapsed_negative_after_skip_while_paused :
  ∃ g',
    pause_skip_resume (start_session stalled) = Ok (tt, g')
    ∧ Game.paused g' = false
    ∧ Game.current_level g' = 2%Z
    ∧ (Game.start_time g' == 1700000020)%Q
    ∧ (Game.total_paused_time g' == 20)%Q
    ∧ (Game.current_time g' == -9)%Q
    ∧ (Game.current_time g' < 0)%Q.
Proof.
  eexists. split; [vm_compute; reflexivity|].
  repeat split.
Qed.

(** * The summary of a level *)

Section Dicts.
Context {V : Type}.

Lemma lookup_list_to_map_range (f : nat → V) (ks : list nat) (l : nat) :
  (list_to_map ((fun k => (k, f k)) <$> ks) : gmap nat V) !! l
  = if decide (l ∈ ks) then Some (f l) else None.
Proof.
  induction ks as [|k ks IH].
  - rewrite fmap_nil, list_to_map_nil, lookup_empty.
    case_decide as H; [by apply elem_of_nil in H|done].
  - rewrite fmap_cons, list_to_map_cons, lookup_insert, IH.
    destruct (decide (k = l)) as [->|Hne].
    + by rewrite decide_True by left.
    + destruct (decide (l ∈ ks)) as [Hin|Hin].
      * by rewrite decide_True by by right.
      * rewrite decide_False; [done|]. intros [->|?]%elem_of_cons; done.
Qed.

Lemma lookup_dict_of_range (f : nat → V) (n l : nat) :
  dict_of_range n f !! l = if decide (l < n)%nat then Some (f l) else None.
Proof.
  unfold dict_of_range. rewrite lookup_list_to_map_range.
  repeat case_decide; try done; exfalso; rewrite elem_of_seq in *; lia.
Qed.

Lemma for_in_insert (f : nat → result V) (g : nat → V) (ks : list nat) :
  (∀ k, k ∈ ks → f k = Ok (g k)) →
  ∀ acc : gmap nat V,
  ∃ m, for_in ks (fun k d => v ← f k; Ok (<[k := v]> d)) acc = Ok m
       ∧ ∀ l, m !! l = if decide (l ∈ ks) then Some (g l) else acc !! l.
Proof.
  induction ks as [|k ks IH]; intros Hf acc.
  - exists acc. split; [done|]. intros l.
    case_decide as H; [by apply elem_of_nil in H|done].
  - destruct (IH (fun k' Hk' => Hf k' (list_elem_of_further _ _ _ Hk')) (<[k := g k]> acc))
      as (m & Hm & Hlk).
    exists m. split.
    + cbn [for_in]. rewrite (Hf k) by left. exact Hm.
    + intros l. rewrite Hlk, lookup_insert.
      destruct (decide (l ∈ ks)) as [Hin|Hin].
      * by rewrite decide_True by by right.
      * destruct (decide (k = l)) as [->|Hne].
        -- by rewrite decide_True by left.
        -- rewrite decide_False; [done|]. intros [->|?]%elem_of_cons; done.
Qed.

Lemma dict_comprehension_range (f : nat → result V) (g : nat → V) (n : nat) :
  (∀ k, (k < n)%nat → f k = Ok (g k)) →
  dict_comprehension (seq 0 n) f = Ok (dict_of_range n g).
Proof.
  intros Hf. unfold dict_comprehension.
  destruct (for_in_insert f g (seq 0 n)) with (acc := (∅ : gmap nat V)) as (m & -> & Hlk).
  { intros k Hk%elem_of_seq. apply Hf. lia. }
  f_equal. apply map_eq. intros l.
  rewrite Hlk, lookup_dict_of_range, lookup_empty.
  repeat case_decide; try done; exfalso; rewrite elem_of_seq in *; lia.
Qed.

End Dicts.

Section Summary.
Context `{K : Constants}.

Lemma count_if_ext {A} (f g : A → bool) (l : list A) :
  (∀ a, f a = g a) → count_if f l = count_if g l.
Proof. intros E. induction l as [|a l IH]; simpl; [done|]. by rewrite E, IH. Qed.

Lemma count_if_nonneg {A} (f : A → bool) (l : list A) : (0 ≤ count_if f l)%Z.
Proof. induction l as [|a l IH]; simpl; [done|]. destruct (f a); lia. Qed.

Lemma dict_incr_lookup (d : gmap nat Z) (k : nat) :
  is_Some (d !! k) →
  ∃ d', dict_incr d k = Ok d'
        ∧ ∀ l, d' !! l = (fun v => v + (if bool_decide (k = l) then 1 else 0))%Z <$> d !! l.
Proof.
  intros [v Hv]. unfold dict_incr, dict_getitem. rewrite Hv.
  eexists. split; [reflexivity|]. intros l. rewrite lookup_insert.
  case_decide as E; [subst; rewrite bool_decide_eq_true_2, Hv by done; done|].
  rewrite bool_decide_eq_false_2 by done.
  destruct (d !! l); simpl; [f_equal; lia|done].
Qed.

Lemma tally_step (p q : Data.t → bool) (d : Data.t) (num den : gmap nat Z) :
  is_Some (num !! Data.lane d) → is_Some (den !! Data.lane d) →
  ∃ num' den',
    tally p q d (num, den) = Ok (num', den')
    ∧ ∀ l, num' !! l
           = (fun v => v + (if p d && q d && bool_decide (Data.lane d = l) then 1 else 0))%Z
               <$> num !! l
           ∧ den' !! l
             = (fun v => v + (if p d && bool_decide (Data.lane d = l) then 1 else 0))%Z
                 <$> den !! l.
Proof.
  intros Hn Hd. unfold tally.
  assert (Hid : ∀ (m : gmap nat Z) l, m !! l = (fun v => v + 0)%Z <$> m !! l).
  { intros m l. destruct (m !! l); simpl; [f_equal; lia|done]. }
  destruct (p d); cbn [andb]; [|exists num, den; by split].
  destruct (dict_incr_lookup den (Data.lane d) Hd) as (den1 & -> & Hden1).
  cbn [mbind result_bind].
  destruct (q d); cbn [andb].
  - destruct (dict_incr_lookup num (Data.lane d) Hn) as (num1 & -> & Hnum1).
    cbn [mbind result_bind]. exists num1, den1. split; [done|]. intros l.
    by rewrite Hnum1, Hden1.
  - exists num, den1. split; [done|]. intros l. by rewrite Hden1.
Qed.

(** The counting loops: each lane's counters grow by the number of events
    of the lane that the loop counts. *)
Lemma tally_loop (p q : Data.t → bool) (ds : list Data.t) :
  ∀ num den : gmap nat Z,
  (∀ d, d ∈ ds → is_Some (num !! Data.lane d) ∧ is_Some (den !! Data.lane d)) →
  ∃ num' den',
    for_in ds (tally p q) (num, den) = Ok (num', den')
    ∧ ∀ l, num' !! l = (fun v => v + lane_count (fun d => p d && q d) l ds)%Z <$> num !! l
           ∧ den' !! l = (fun v => v + lane_count p l ds)%Z <$> den !! l.
Proof.
  induction ds as [|d ds IH]; intros num den Hdom.
  - exists num, den. split; [done|]. intros l. unfold lane_count. simpl.
    split; [destruct (num !! l)|destruct (den !! l)]; simpl; try done; f_equal; lia.
  - destruct (Hdom d) as [Hn Hd]; [by left|].
    destruct (tally_step p q d num den Hn Hd) as (num1 & den1 & Hstep & Hlk1).
    destruct (IH num1 den1) as (num' & den' & Hrun & Hlk).
    { intros d' Hd'. destruct (Hlk1 (Data.lane d')) as [-> ->].
      destruct (Hdom d') as [[? ->] [? ->]]; [by right|]. by split. }
    exists num', den'. split.
    + cbn [for_in]. rewrite Hstep. exact Hrun.
    + intros l. destruct (Hlk l) as [-> ->]. destruct (Hlk1 l) as [-> ->].
      unfold lane_count. cbn [count_if].
      split; [destruct (num !! l)|destruct (den !! l)]; simpl; try done; f_equal; lia.
Qed.

Lemma tally_reaction_loop (ds : list Data.t) :
  ∀ lrt : gmap nat (list Z),
  (∀ d, d ∈ ds → is_Some (lrt !! Data.lane d)) →
  ∃ lrt',
    for_in ds DataCollector.tally_reaction lrt = Ok lrt'
    ∧ ∀ l, lrt' !! l = (fun ts => ts ++ lane_times l ds) <$> lrt !! l.
Proof.
  induction ds as [|d ds IH]; intros lrt Hdom.
  - exists lrt. split; [done|]. intros l. unfold lane_times. simpl.
    destruct (lrt !! l); simpl; [by rewrite app_nil_r|done].
  - assert (Hstep : ∃ lrt1, DataCollector.tally_reaction d lrt = Ok lrt1
              ∧ ∀ l, lrt1 !! l
                     = (fun ts => ts ++ lane_times l [d]) <$> lrt !! l).
    { unfold DataCollector.tally_reaction, lane_times. cbn [omap list_omap].
      destruct (Data.reaction_time d) as [r|] eqn:Er.
      - destruct (Hdom d) as [ts Hts]; [by left|].
        unfold dict_append, dict_getitem. rewrite Hts. cbn [mbind result_bind].
        eexists. split; [reflexivity|]. intros l. rewrite lookup_insert.
        case_decide as E.
        + subst. rewrite bool_decide_eq_true_2, Hts by done. by rewrite ?Er.
        + rewrite bool_decide_eq_false_2 by done.
          destruct (lrt !! l); simpl; [by rewrite app_nil_r|done].
      - exists lrt. split; [done|]. intros l.
        destruct (bool_decide (Data.lane d = l)); rewrite ?Er;
          destruct (lrt !! l); simpl; by rewrite ?app_nil_r. }
    destruct Hstep as (lrt1 & Hstep & Hlk1).
    destruct (IH lrt1) as (lrt' & Hrun & Hlk).
    { intros d' Hd'. rewrite Hlk1. destruct (Hdom d') as [? ->]; [by right|]. done. }
    exists lrt'. split.
    + cbn [for_in]. rewrite Hstep. exact Hrun.
    + intros l. rewrite Hlk, Hlk1. unfold lane_times. cbn [omap list_omap].
      destruct (lrt !! l) as [ts|]; simpl; [|done]. f_equal.
      destruct (bool_decide (Data.lane d = l)); [|by rewrite app_nil_r].
      destruct (Data.reaction_time d); simpl; [|by rewrite app_nil_r].
      by rewrite <- app_assoc.
Qed.

Lemma dict_of_range_ext {V} (f g : nat → V) (n : nat) :
  (∀ l, (l < n)%nat → f l = g l) → dict_of_range n f = dict_of_range n g.
Proof.
  intros E. apply map_eq. intros l. rewrite !lookup_dict_of_range.
  case_decide; [|done]. by rewrite E.
Qed.

Lemma lane_count_ext (f g : Data.t → bool) (l : nat) (ds : list Data.t) :
  (∀ d, f d = g d) → lane_count f l ds = lane_count g l ds.
Proof. intros E. apply count_if_ext. intros d. by rewrite E. Qed.

Lemma zeros_lookup {V} (v : nat → V) (ds : list Data.t) (d : Data.t) :
  Forall (fun d => (Data.lane d < length KEYS)%nat) ds → d ∈ ds →
  is_Some (dict_of_range (length KEYS) v !! Data.lane d).
Proof.
  intros Hall Hd. rewrite Forall_forall in Hall. specialize (Hall d Hd).
  rewrite lookup_dict_of_range. by rewrite decide_True by done.
Qed.

(** The loops of [tally]: started from the all-zero dicts, the per-lane
    rate that [analyze_data] derives is the rate of the per-lane counts. *)
Lemma lane_rates_run (p q : Data.t → bool) (ds : list Data.t) :
  Forall (fun d => (Data.lane d < length KEYS)%nat) ds →
  let zeros : gmap nat Z := dict_of_range (length KEYS) (fun _ => 0%Z) in
  ∃ num den,
    for_in ds (tally p q) (zeros, zeros) = Ok (num, den)
    ∧ dict_comprehension (seq 0 (length KEYS)) (DataCollector.lane_rate num den)
      = Ok (dict_of_range (length KEYS)
              (fun l => rate (lane_count (fun d => p d && q d) l ds) (lane_count p l ds))).
Proof.
  intros Hall zeros.
  destruct (tally_loop p q ds zeros zeros) as (num & den & Hrun & Hlk).
  { intros d Hd. split; by eapply zeros_lookup. }
  exists num, den. split; [exact Hrun|].
  apply dict_comprehension_range. intros k Hk.
  destruct (Hlk k) as [Hnum Hden]. unfold zeros in Hnum, Hden.
  rewrite lookup_dict_of_range, decide_True in Hnum, Hden by done.
  cbn [fmap option_fmap option_map] in Hnum, Hden. rewrite Z.add_0_l in Hnum, Hden.
  unfold DataCollector.lane_rate, dict_getitem, rate. rewrite Hden.
  cbn [mbind result_bind].
  destruct (0 <? lane_count p k ds)%Z; [|reflexivity]. by rewrite Hnum.
Qed.

(** [analyze_data] computes the row [summary] and empties the buffer,
    provided every event lies in one of the lanes of [KEYS]. *)
Lemma analyze_data_summary (total_time : Q) (exited : bool) (dc : DataCollector.t) :
  Forall (fun d => (Data.lane d < length KEYS)%nat) (DataCollector.session_data dc) →
  DataCollector.analyze_data total_time exited dc
  = Ok (DataCollector.set_session_data []
          (DataCollector.append_analysis (summary total_time exited dc) dc)).
Proof.
  intros Hall. unfold DataCollector.analyze_data.
  set (sd := DataCollector.session_data dc) in *.
  change DataCollector.tally_hit
    with (tally (DataCollector.status_in [status_hit; status_miss])
                (DataCollector.is_status status_hit)).
  change DataCollector.tally_incorrect
    with (tally (DataCollector.status_in [status_hit; status_incorrect])
                (DataCollector.is_status status_incorrect)).
  destruct (lane_rates_run (DataCollector.status_in [status_hit; status_miss])
              (DataCollector.is_status status_hit) sd Hall)
    as (lane_hits & lane_totals & -> & Hrates).
  cbn [mbind result_bind]. rewrite Hrates. cbn [mbind result_bind].
  destruct (tally_reaction_loop sd (dict_of_range (length KEYS) (fun _ => [])))
    as (lrt & -> & Hlrt).
  { intros d Hd. by eapply zeros_lookup. }
  cbn [mbind result_bind].
  destruct (lane_rates_run (DataCollector.status_in [status_hit; status_incorrect])
              (DataCollector.is_status status_incorrect) sd Hall)
    as (lane_inc & lane_eff & -> & Hrates').
  cbn [mbind result_bind]. rewrite Hrates'. cbn [mbind result_bind].
  do 3 f_equal. unfold summary. fold sd. f_equal.
  - apply dict_of_range_ext. intros l _. f_equal.
    apply lane_count_ext. intros d. unfold DataCollector.status_in, DataCollector.is_status.
    by destruct (Data.hit_status d).
  - apply map_eq. intros l. rewrite lookup_fmap, Hlrt, !lookup_dict_of_range.
    by case_decide.
  - apply dict_of_range_ext. intros l _. f_equal.
    apply lane_count_ext. intros d. unfold DataCollector.status_in, DataCollector.is_status.
    by destruct (Data.hit_status d).
Qed.

End Summary.

Section Rates.
Context `{K : Constants}.

Lemma count_if_split (ds : list Data.t) (f g h : Data.t → bool) :
  (∀ d, f d = g d || h d) → (∀ d, g d && h d = false) →
  count_if f ds = (count_if g ds + count_if h ds)%Z.
Proof.
  intros E1 E2. induction ds as [|d ds IH]; simpl; [done|].
  rewrite IH, E1. specialize (E2 d). destruct (g d), (h d); simpl in *; try done; lia.
Qed.

Lemma notes_split (ds : list Data.t) :
  count_if (DataCollector.status_in [status_hit; status_miss]) ds
  = (count_if (DataCollector.is_status status_hit) ds
     + count_if (DataCollector.is_status status_miss) ds)%Z.
Proof.
  apply count_if_split; intros d;
    unfold DataCollector.status_in, DataCollector.is_status;
    by destruct (Data.hit_status d).
Qed.

Lemma lane_notes_split (l : nat) (ds : list Data.t) :
  lane_count (DataCollector.status_in [status_hit; status_miss]) l ds
  = (lane_count (DataCollector.is_status status_hit) l ds
     + lane_count (DataCollector.is_status status_miss) l ds)%Z.
Proof.
  apply count_if_split; intros d;
    unfold DataCollector.status_in, DataCollector.is_status;
    destruct (Data.hit_status d), (bool_decide (Data.lane d = l)); done.
Qed.

Lemma rate_half (h : Z) : (0 < h)%Z → (rate h (h + h) == 1 # 2)%Q.
Proof.
  intros Hh. unfold rate, truediv.
  destruct (Z.ltb_spec 0 (h + h)) as [_|?]; [|lia].
  rewrite inject_Z_plus.
  assert (Hpos : (0 < inject_Z h)%Q) by (unfold Qlt; simpl; lia).
  field. intros E. revert E Hpos. unfold Qeq, Qlt. simpl. lia.
Qed.

(** C9: a buffer whose events lie in the lanes of [KEYS] and hold [k] hits
    and [k] misses, [k] at least 1, the hits evenly split over the lanes and
    so the misses: [analyze_data] succeeds, the row it appends has hit rate
    1/2 overall and 1/2 in every lane, and the buffer is empty afterwards. *)
Theorem C9_balanced_buffer_rates (dc : DataCollector.t) (k : Z)
    (total_time : Q) (exited : bool) :
  (1 ≤ k)%Z →
  Forall (fun d => (Data.lane d < length KEYS)%nat) (DataCollector.session_data dc) →
  count_if (DataCollector.is_status status_hit) (DataCollector.session_data dc) = k →
  count_if (DataCollector.is_status status_miss) (DataCollector.session_data dc) = k →
  (∀ lane, (lane < length KEYS)%nat →
     (Z.of_nat (length KEYS)
      * lane_count (DataCollector.is_status status_hit) lane (DataCollector.session_data dc)
      = k)%Z
     ∧ (Z.of_nat (length KEYS)
        * lane_count (DataCollector.is_status status_miss) lane (DataCollector.session_data dc)
        = k)%Z) →
  ∃ dc' row,
    DataCollector.analyze_data total_time exited dc = Ok dc'
    ∧ DataCollector.session_data dc' = []
    ∧ DataCollector.analysis_rows dc' = DataCollector.analysis_rows dc ++ [row]
    ∧ (Analysis.hit_rate row == 1 # 2)%Q
    ∧ ∀ lane, (lane < length KEYS)%nat →
        ∃ r, Analysis.lane_hit_rates row !! lane = Some r ∧ (r == 1 # 2)%Q.
Proof.
  intros Hk Hall Hhits Hmisses Hlanes.
  eexists. exists (summary total_time exited dc).
  split; [by apply analyze_data_summary|].
  split; [reflexivity|]. split; [reflexivity|]. split.
  - cbn [summary Analysis.hit_rate]. rewrite notes_split, Hhits, Hmisses.
    apply rate_half. lia.
  - intros lane Hlane. eexists. split.
    + cbn [summary Analysis.lane_hit_rates]. rewrite lookup_dict_of_range.
      by rewrite decide_True by done.
    + destruct (Hlanes lane Hlane) as [Eh Em]. rewrite lane_notes_split.
      replace (lane_count (DataCollector.is_status status_miss) lane
                 (DataCollector.session_data dc))
        with (lane_count (DataCollector.is_status status_hit) lane
                (DataCollector.session_data dc)) by nia.
      apply rate_half. nia.
Qed.

Lemma record_hit_event (now : Q) (note : Note.t) (level : Z) (st : HitStatus)
    (dc : DataCollector.t) :
  ∃ e, DataCollector.session_data (DataCollector.record_hit now note level st dc)
       = DataCollector.session_data dc ++ [e]
       ∧ Data.lane e = Note.lane note
       ∧ Data.hit_status e = st
       ∧ Data.reaction_time e =
           match Note.hit_time note, Note.start_hit_time note with
           | Some h, Some s =>
             if truthy h && truthy s
             then (if truthy (h - s) then Some (py_int ((h - s) * 1000)) else None)
             else None
           | _, _ => None
           end
       ∧ Data.reaction_distance e =
           (if opt_truthy (Note.hit_time note) then
              let d := Qabs (Note.y note - inject_Z HIT_LINE_Y) in
              if truthy d then Some (py_int d) else None
            else None).
Proof.
  eexists. split; [reflexivity|]. do 2 (split; [reflexivity|]). split.
  - cbn. destruct (Note.hit_time note) as [h|], (Note.start_hit_time note) as [s|];
      try reflexivity. by destruct (truthy h && truthy s).
  - cbn. by destruct (opt_truthy (Note.hit_time note)).
Qed.

(** C10: [record_hit] stores a reaction time that computes to 0 as [None],
    and a reaction distance that computes to 0 as [None]. The averages of
    the reaction time that [analyze_data] writes, overall and per lane, are
    taken over the events whose stored reaction time is present: an event
    whose reaction time is [None] leaves them the same as if it had not
    been recorded, and an event with a reaction time enters them, whether
    its reaction distance is stored or [None]. *)
Theorem C10_zero_reaction_stored_as_absent (now : Q) (note : Note.t) (level : Z)
    (st : HitStatus) (dc : DataCollector.t) (total_time : Q) (exited : bool) :
  Forall (fun d => (Data.lane d < length KEYS)%nat) (DataCollector.session_data dc) →
  (Note.lane note < length KEYS)%nat →
  ∃ e,
    DataCollector.session_data (DataCollector.record_hit now note level st dc)
    = DataCollector.session_data dc ++ [e]
    ∧ (∀ h s, Note.hit_time note = Some h → Note.start_hit_time note = Some s →
              (h - s == 0)%Q → Data.reaction_time e = None)
    ∧ ((Qabs (Note.y note - inject_Z HIT_LINE_Y) == 0)%Q → Data.reaction_distance e = None)
    ∧ ∃ dcA dcB rowA rowB,
        DataCollector.analyze_data total_time exited dc = Ok dcA
        ∧ DataCollector.analyze_data total_time exited
            (DataCollector.record_hit now note level st dc) = Ok dcB
        ∧ DataCollector.analysis_rows dcA = DataCollector.analysis_rows dc ++ [rowA]
        ∧ DataCollector.analysis_rows dcB = DataCollector.analysis_rows dc ++ [rowB]
        ∧ (Data.reaction_time e = None →
           Analysis.avg_reaction_time rowB = Analysis.avg_reaction_time rowA
           ∧ Analysis.avg_lane_reaction_times rowB = Analysis.avg_lane_reaction_times rowA)
        ∧ (∀ t, Data.reaction_time e = Some t →
             Analysis.avg_reaction_time rowB
             = DataCollector.average
                 (omap Data.reaction_time (DataCollector.session_data dc) ++ [t])
             ∧ Analysis.avg_lane_reaction_times rowB !! Note.lane note
               = Some (DataCollector.average
                         (lane_times (Note.lane note) (DataCollector.session_data dc)
                          ++ [t]))).
Proof.
  intros Hall Hlane.
  destruct (record_hit_event now note level st dc) as (e & Hsd & Hl & _ & Hrt & Hrd).
  exists e. split; [exact Hsd|]. split; [|split].
  - intros h s Hh Hs Hz. rewrite Hrt, Hh, Hs.
    destruct (truthy h && truthy s); [|done].
    by rewrite (proj2 (truthy_false _) Hz).
  - intros Hz. rewrite Hrd. destruct (opt_truthy (Note.hit_time note)); [|done].
    cbv zeta. by rewrite (proj2 (truthy_false _) Hz).
  - set (dc' := DataCollector.record_hit now note level st dc) in *.
    assert (Hall' : Forall (fun d => (Data.lane d < length KEYS)%nat)
                      (DataCollector.session_data dc')).
    { rewrite Hsd. apply Forall_app. split; [done|]. constructor; [|done]. by rewrite Hl. }
    eexists _, _, (summary total_time exited dc), (summary total_time exited dc').
    split; [by apply analyze_data_summary|].
    split; [by apply analyze_data_summary|].
    split; [reflexivity|]. split; [reflexivity|].
    cbn [summary Analysis.avg_reaction_time Analysis.avg_lane_reaction_times].
    rewrite Hsd. split.
    + intros Hnone. split.
      * rewrite omap_app. cbn [omap list_omap]. rewrite Hnone. by rewrite app_nil_r.
      * apply dict_of_range_ext. intros l _. unfold lane_times.
        rewrite omap_app. cbn [omap list_omap].
        destruct (bool_decide (Data.lane e = l)); rewrite ?Hnone; by rewrite app_nil_r.
    + intros t Ht. split.
      * rewrite omap_app. cbn [omap list_omap]. by rewrite Ht.
      * rewrite lookup_dict_of_range, decide_True by done.
        cbn [fmap option_fmap option_map]. f_equal. f_equal. unfold lane_times.
        rewrite omap_app. cbn [omap list_omap].
        rewrite bool_decide_eq_true_2 by done. by rewrite Ht.
Qed.

End Rates.

Lemma C9_balanced_buffer_rates_witness :
  ∃ dc' row,
    @DataCollector.analyze_data rhythmGame 70 false balanced_collector = Ok dc'
    ∧ DataCollector.session_data dc' = []
    ∧ DataCollector.analysis_rows dc'
      = DataCollector.analysis_rows balanced_collector ++ [row]
    ∧ (Analysis.hit_rate row == 1 # 2)%Q
    ∧ ∀ lane, (lane < length (@KEYS rhythmGame))%nat →
        ∃ r, Analysis.lane_hit_rates row !! lane = Some r ∧ (r == 1 # 2)%Q.
Proof.
  apply (@C9_balanced_buffer_rates rhythmGame balanced_collector 4 70 false).
  - lia.
  - repeat constructor.
  - reflexivity.
  - reflexivity.
  - intros lane Hlane.
    destruct lane as [|[|[|[|lane]]]]; [split; reflexivity ..|].
    exfalso. simpl in Hlane. lia.
Defined.

Lemma C10_zero_reaction_stored_as_absent_witness :
  ∃ e,
    DataCollector.session_data
      (@DataCollector.record_hit rhythmGame (epoch 8) instant_note 1 status_hit
         (Game.data_collector started))
    = DataCollector.session_data (Game.data_collector started) ++ [e]
    ∧ Data.reaction_time e = None
    ∧ Data.reaction_distance e = None.
Proof.
  destruct (@C10_zero_reaction_stored_as_absent rhythmGame (epoch 8) instant_note 1
              status_hit (Game.data_collector started) 70 false)
    as (e & Hsd & Hrt & Hrd & _).
  - constructor.
  - simpl. lia.
  - exists e. split; [exact Hsd|]. split.
    + apply (Hrt (epoch 7) (epoch 7)); reflexivity.
    + apply Hrd. reflexivity.
Defined.

(** The claim as the specification words it does not hold: the hit
    [line_note] has a reaction distance that computes to 0, which is stored
    as [None], and a reaction time of one second; recorded in an empty
    buffer, it moves the overall average of the reaction time and the
    average of its lane from 0 to 1000 milliseconds. *)
Lemma C10_counterexample :
  ∃ e dcA dcB rowA rowB,
    DataCollector.session_data
      (@DataCollector.record_hit rhythmGame (epoch 9) line_note 1 status_hit
         (Game.data_collector started)) = [e]
    ∧ (Qabs (Note.y line_note - inject_Z (@HIT_LINE_Y rhythmGame)) == 0)%Q
    ∧ Data.reaction_distance e = None
    ∧ Data.reaction_time e = Some 1000%Z
    ∧ @DataCollector.analyze_data rhythmGame 70 false (Game.data_collector started)
      = Ok dcA
    ∧ @DataCollector.analyze_data rhythmGame 70 false
        (@DataCollector.record_hit rhythmGame (epoch 9) line_note 1 status_hit
           (Game.data_collector started)) = Ok dcB
    ∧ DataCollector.analysis_rows dcA = [rowA]
    ∧ DataCollector.analysis_rows dcB = [rowB]
    ∧ (Analysis.avg_reaction_time rowA == 0)%Q
    ∧ (Analysis.avg_reaction_time rowB == 1000)%Q
    ∧ (∃ a, Analysis.avg_lane_reaction_times rowA !! 1%nat = Some a ∧ (a == 0)%Q)
    ∧ (∃ b, Analysis.avg_lane_reaction_times rowB !! 1%nat = Some b ∧ (b == 1000)%Q)
    ∧ ¬ (Analysis.avg_reaction_time rowB == Analysis.avg_reaction_time rowA)%Q.
Proof.
  do 5 eexists.
  split; [vm_compute; reflexivity|]. split; [vm_compute; reflexivity|].
  split; [vm_compute; reflexivity|]. split; [vm_compute; reflexivity|].
  split; [vm_compute; reflexivity|]. split; [vm_compute; reflexivity|].
  split; [vm_compute; reflexivity|]. split; [vm_compute; reflexivity|].
  split; [vm_compute; reflexivity|]. split; [vm_compute; reflexivity|].
  split; [eexists; split; vm_compute; reflexivity|].
  split; [eexists; split; vm_compute; reflexivity|].
  vm_compute. discriminate.
Qed.

(** * Further properties of the code *)

Section Levels.

Lemma list_getitem_nonneg {A} (l : list A) (i : Z) (a : A) :
  (0 ≤ i)%Z → l !! Z.to_nat i = Some a → list_getitem l i = Ok a.
Proof.
  intros Hi Ha. unfold list_getitem.
  assert (E : (i <? 0)%Z = false) by lia.
  rewrite E. cbv zeta. by rewrite E, Ha.
Qed.

(** X1: [set_level n] with [n] between 1 and the number of levels selects
    the [n]-th level of the list: the speed and the acceleration become
    those of [levels[n - 1]]. *)
Theorem X1_set_level_in_range (dm : DifficultyManager.t) (n : Z) :
  (1 ≤ n ≤ Z.of_nat (length (DifficultyManager.levels dm)))%Z →
  ∃ l, DifficultyManager.levels dm !! Z.to_nat (n - 1) = Some l
       ∧ DifficultyManager.set_level n dm
         = Ok (DifficultyManager.mk (DifficultyManager.levels dm) n
                 (Level.speed l) (Level.acceleration l)).
Proof.
  intros Hn.
  destruct (lookup_lt_is_Some_2 (DifficultyManager.levels dm) (Z.to_nat (n - 1)))
    as [l Hl]; [lia|].
  exists l. split; [exact Hl|].
  unfold DifficultyManager.set_level. cbn [DifficultyManager.levels].
  destruct (Z.leb_spec n (Z.of_nat (length (DifficultyManager.levels dm)))); [|lia].
  assert (Hg : list_getitem (DifficultyManager.levels dm) (n - 1) = Ok l)
    by (apply list_getitem_nonneg; [lia|done]).
  rewrite !Hg. cbn [mbind result_bind DifficultyManager.levels]. by rewrite ?Hg.
Qed.

Lemma X1_set_level_in_range_witness :
  ∃ l, DifficultyManager.levels five_levels !! Z.to_nat (3 - 1) = Some l
       ∧ DifficultyManager.set_level 3 five_levels
         = Ok (DifficultyManager.mk (DifficultyManager.levels five_levels) 3
                 (Level.speed l) (Level.acceleration l)).
Proof. apply X1_set_level_in_range. vm_compute. split; discriminate. Defined.

Lemma list_getitem_negative {A} (l : list A) (i : Z) (a : A) :
  (i < 0)%Z → (0 ≤ i + Z.of_nat (length l))%Z →
  l !! Z.to_nat (i + Z.of_nat (length l)) = Some a → list_getitem l i = Ok a.
Proof.
  intros Hi Hj Ha. unfold list_getitem.
  assert (E : (i <? 0)%Z = true) by lia.
  assert (E' : (i + Z.of_nat (length l) <? 0)%Z = false) by lia.
  rewrite E. cbv zeta. by rewrite E', Ha.
Qed.

(** X2: [set_level n] with [n] at most 0 but above minus the number of
    levels raises nothing: Python's negative index counts from the end of
    the list, so that [set_level(0)] selects the last level. *)
Theorem X2_set_level_wraps_around (dm : DifficultyManager.t) (n : Z) :
  (- Z.of_nat (length (DifficultyManager.levels dm)) < n ≤ 0)%Z →
  ∃ l, DifficultyManager.levels dm
         !! Z.to_nat (Z.of_nat (length (DifficultyManager.levels dm)) + n - 1) = Some l
       ∧ DifficultyManager.set_level n dm
         = Ok (DifficultyManager.mk (DifficultyManager.levels dm) n
                 (Level.speed l) (Level.acceleration l)).
Proof.
  intros Hn.
  destruct (lookup_lt_is_Some_2 (DifficultyManager.levels dm)
              (Z.to_nat (Z.of_nat (length (DifficultyManager.levels dm)) + n - 1)))
    as [l Hl]; [lia|].
  exists l. split; [exact Hl|].
  unfold DifficultyManager.set_level. cbn [DifficultyManager.levels].
  destruct (Z.leb_spec n (Z.of_nat (length (DifficultyManager.levels dm)))); [|lia].
  assert (Hg : list_getitem (DifficultyManager.levels dm) (n - 1) = Ok l).
  { apply list_getitem_negative; [lia..|].
    by replace (n - 1 + Z.of_nat (length (DifficultyManager.levels dm)))%Z
      with (Z.of_nat (length (DifficultyManager.levels dm)) + n - 1)%Z by lia. }
  rewrite !Hg. cbn [mbind result_bind DifficultyManager.levels]. by rewrite ?Hg.
Qed.

Lemma X2_set_level_wraps_around_witness :
  ∃ l, last (DifficultyManager.levels five_levels) = Some l
       ∧ DifficultyManager.set_level 0 five_levels
         = Ok (DifficultyManager.mk (DifficultyManager.levels five_levels) 0
                 (Level.speed l) (Level.acceleration l)).
Proof.
  destruct (X2_set_level_wraps_around five_levels 0) as (l & Hl & Hs).
  - vm_compute. split; [reflexivity|discriminate].
  - exists l. split; [exact Hl|exact Hs].
Defined.

(** X3: [set_level n] with [n] at most minus the number of levels raises
    [IndexError]; on an empty list of levels that is every [n] at most 0. *)
Theorem X3_set_level_index_error (dm : DifficultyManager.t) (n : Z) :
  (n ≤ - Z.of_nat (length (DifficultyManager.levels dm)))%Z →
  DifficultyManager.set_level n dm = Raise IndexError.
Proof.
  intros Hn. unfold DifficultyManager.set_level. cbn [DifficultyManager.levels].
  destruct (Z.leb_spec n (Z.of_nat (length (DifficultyManager.levels dm)))); [|lia].
  unfold list_getitem.
  assert (E : (n - 1 <? 0)%Z = true) by lia.
  assert (E' : (n - 1 + Z.of_nat (length (DifficultyManager.levels dm)) <? 0)%Z = true)
    by lia.
  rewrite E. cbv zeta. by rewrite E'.
Qed.

Lemma X3_set_level_index_error_witness :
  DifficultyManager.set_level (-5) five_levels = Raise IndexError
  ∧ DifficultyManager.set_level 0 DifficultyManager.__init__ = Raise IndexError.
Proof.
  split; apply X3_set_level_index_error; vm_compute; discriminate.
Defined.

End Levels.

Section Setup.
Context `{K : Constants}.

Lemma set_level_first (dm : DifficultyManager.t) (l : Level.t) (ls : list Level.t) :
  DifficultyManager.levels dm = l :: ls →
  DifficultyManager.set_level 1 dm
  = Ok (DifficultyManager.mk (l :: ls) 1 (Level.speed l) (Level.acceleration l)).
Proof.
  destruct dm as [lv cl sp ac]. cbn [DifficultyManager.levels]. intros ->.
  unfold DifficultyManager.set_level. cbn [DifficultyManager.levels].
  destruct (Z.leb_spec 1 (Z.of_nat (length (l :: ls)))) as [_|H];
    [|simpl length in H; lia].
  reflexivity.
Qed.

Lemma level_speeds_lookup (i : nat) :
  (i < Z.to_nat LEVELS)%nat →
  Game.level_speeds !! i
  = Some (Level.mk (BASIC_SPEED + inject_Z (Z.of_nat i) * LEVEL_SPEED_ACCR) BLOCK_SPEED_ACCR).
Proof.
  intros Hi. unfold Game.level_speeds. rewrite list_lookup_fmap.
  by rewrite lookup_seq_lt.
Qed.

Lemma level_speeds_length : length Game.level_speeds = Z.to_nat LEVELS.
Proof. unfold Game.level_speeds. by rewrite length_fmap, length_seq. Qed.

(** The session that [init_game] builds from the list of levels [lv]. *)
Lemma init_game_with (inp : Input.t) (g : Game.t) (lv : list Level.t) :
  (if bool_decide (Game.mode g = Some "normal"%string) then Game.level_speeds
   else if bool_decide (Game.mode g = Some "test"%string)
        then Input.shuffle inp Game.level_speeds else []) = lv →
  ∀ dm, DifficultyManager.set_level 1
          (DifficultyManager.set_levels lv DifficultyManager.__init__) = Ok dm →
  ∃ g', Game.init_game inp g = Ok (tt, g')
        ∧ Game.difficulty_manager g' = dm
        ∧ Game.start_time g' = Game.wall g (S (Game.reads g))
        ∧ DataCollector.start_time (Game.data_collector g') = Game.wall g (Game.reads g)
        ∧ session_data g' = []
        ∧ Game.mode g' = Game.mode g ∧ Game.in_menu g' = Game.in_menu g.
Proof.
  intros Hlv dm Hdm. unfold Game.init_game. run_M. rewrite Hlv, Hdm.
  eexists. split; [reflexivity|]. by repeat split.
Qed.

(** X4: in normal mode, with at least one level declared, [init_game] builds
    [LEVELS] levels whose speeds grow linearly with the index
    ([BASIC_SPEED + i * LEVEL_SPEED_ACCR]), each with the acceleration
    [BLOCK_SPEED_ACCR], in that order, and starts the session at the first
    of them: the current speed is [BASIC_SPEED]. *)
Theorem X4_normal_mode_levels (inp : Input.t) (g : Game.t) :
  Game.mode g = Some "normal"%string → (0 < LEVELS)%Z →
  ∃ g',
    Game.init_game inp g = Ok (tt, g')
    ∧ length (DifficultyManager.levels (Game.difficulty_manager g')) = Z.to_nat LEVELS
    ∧ (∀ i, (i < Z.to_nat LEVELS)%nat →
         DifficultyManager.levels (Game.difficulty_manager g') !! i
         = Some (Level.mk (BASIC_SPEED + inject_Z (Z.of_nat i) * LEVEL_SPEED_ACCR)
                   BLOCK_SPEED_ACCR))
    ∧ DifficultyManager.current_level (Game.difficulty_manager g') = 1%Z
    ∧ (DifficultyManager.current_speed (Game.difficulty_manager g') == BASIC_SPEED)%Q
    ∧ DifficultyManager.current_acceleration (Game.difficulty_manager g')
      = BLOCK_SPEED_ACCR.
Proof.
  intros Hmode Hpos.
  destruct Game.level_speeds as [|l ls] eqn:Els.
  { pose proof level_speeds_length as Hlen. rewrite Els in Hlen. simpl in Hlen. lia. }
  assert (Hl : l = Level.mk (BASIC_SPEED + inject_Z (Z.of_nat 0) * LEVEL_SPEED_ACCR)
                 BLOCK_SPEED_ACCR).
  { pose proof (level_speeds_lookup 0 ltac:(lia)) as H0. rewrite Els in H0.
    by injection H0. }
  destruct (init_game_with inp g (l :: ls)) with
    (dm := DifficultyManager.mk (l :: ls) 1 (Level.speed l) (Level.acceleration l))
    as (g' & Hrun & Hdm & _).
  { by rewrite (bool_decide_eq_true_2 _ Hmode). }
  { by apply set_level_first. }
  exists g'. split; [exact Hrun|]. rewrite Hdm.
  cbn [DifficultyManager.levels DifficultyManager.current_level
       DifficultyManager.current_speed DifficultyManager.current_acceleration].
  split; [by rewrite <- Els, level_speeds_length|].
  split; [intros i Hi; rewrite <- Els; by apply level_speeds_lookup|].
  split; [done|]. rewrite Hl. cbn. split; [ring|done].
Qed.

(** X5: in test mode, when [random.shuffle] permutes the list, the session
    holds the same levels as in normal mode, each exactly once, in the
    shuffled order, and starts at the speed of the level shuffled to the
    front. *)
Theorem X5_test_mode_levels (inp : Input.t) (g : Game.t) :
  Game.mode g = Some "test"%string → (0 < LEVELS)%Z →
  Input.shuffle inp Game.level_speeds ≡ₚ Game.level_speeds →
  ∃ g' l,
    Game.init_game inp g = Ok (tt, g')
    ∧ DifficultyManager.levels (Game.difficulty_manager g')
      = Input.shuffle inp Game.level_speeds
    ∧ DifficultyManager.levels (Game.difficulty_manager g') ≡ₚ Game.level_speeds
    ∧ head (Input.shuffle inp Game.level_speeds) = Some l
    ∧ DifficultyManager.current_speed (Game.difficulty_manager g') = Level.speed l
    ∧ ∃ i, (i < Z.to_nat LEVELS)%nat
           ∧ Level.speed l = (BASIC_SPEED + inject_Z (Z.of_nat i) * LEVEL_SPEED_ACCR)%Q.
Proof.
  intros Hmode Hpos Hperm.
  destruct (Input.shuffle inp Game.level_speeds) as [|l ls] eqn:Esh.
  { apply Permutation_length in Hperm. rewrite level_speeds_length in Hperm.
    simpl in Hperm. lia. }
  destruct (init_game_with inp g (l :: ls)) with
    (dm := DifficultyManager.mk (l :: ls) 1 (Level.speed l) (Level.acceleration l))
    as (g' & Hrun & Hdm & _).
  { rewrite bool_decide_eq_false_2 by (rewrite Hmode; discriminate).
    by rewrite (bool_decide_eq_true_2 _ Hmode). }
  { by apply set_level_first. }
  exists g', l. split; [exact Hrun|]. rewrite Hdm.
  cbn [DifficultyManager.levels DifficultyManager.current_speed].
  do 4 (split; [done|]).
  assert (Hin : l ∈ Game.level_speeds) by (rewrite <- Hperm; by left).
  apply list_elem_of_lookup in Hin as [i Hi].
  assert (Hlt : (i < Z.to_nat LEVELS)%nat)
    by (rewrite <- level_speeds_length; by eapply lookup_lt_Some).
  exists i. split; [exact Hlt|].
  rewrite (level_speeds_lookup i Hlt) in Hi. by injection Hi as <-.
Qed.

End Setup.

Lemma X4_normal_mode_levels_witness :
  ∃ g',
    @Game.init_game rhythmGame no_input menu_normal = Ok (tt, g')
    ∧ length (DifficultyManager.levels (Game.difficulty_manager g')) = 5%nat
    ∧ (DifficultyManager.current_speed (Game.difficulty_manager g') == 2)%Q.
Proof.
  destruct (@X4_normal_mode_levels rhythmGame no_input menu_normal)
    as (g' & Hrun & Hlen & _ & _ & Hsp & _).
  - reflexivity.
  - reflexivity.
  - exists g'. split; [exact Hrun|]. split; [exact Hlen|exact Hsp].
Defined.

Lemma X5_test_mode_levels_witness :
  ∃ g',
    @Game.init_game rhythmGame reverse_input menu_test = Ok (tt, g')
    ∧ DifficultyManager.levels (Game.difficulty_manager g')
      ≡ₚ @Game.level_speeds rhythmGame
    ∧ (DifficultyManager.current_speed (Game.difficulty_manager g') == 16)%Q.
Proof.
  destruct (@X5_test_mode_levels rhythmGame reverse_input menu_test)
    as (g' & l & Hrun & _ & Hperm & Hhd & Hsp & _).
  - reflexivity.
  - reflexivity.
  - apply reverse_Permutation.
  - exists g'. split; [exact Hrun|]. split; [exact Hperm|].
    rewrite Hsp. injection Hhd as <-. reflexivity.
Defined.

Section Spawn.
Context `{K : Constants}.

Lemma note_init (lane : nat) (speed y : Q) :
  (0 < length KEYS)%nat →
  ∃ x, Note.__init__ lane speed y
       = Ok (Note.mk lane x y speed state_active None None None).
Proof.
  intros Hk. unfold Note.__init__, floordiv.
  destruct (Z.eqb_spec (Z.of_nat (length KEYS)) 0) as [E|E]; [lia|].
  eexists. reflexivity.
Qed.

Lemma randint_lane (draw : nat) :
  (0 < length KEYS)%nat →
  ∃ lane, random_randint draw 0 (Z.of_nat (length KEYS) - 1) = Ok lane
          ∧ (0 ≤ lane < Z.of_nat (length KEYS))%Z.
Proof.
  intros Hk. unfold random_randint.
  destruct (Z.ltb_spec (Z.of_nat (length KEYS) - 1) 0) as [?|_]; [lia|].
  eexists. split; [reflexivity|].
  replace (Z.of_nat (length KEYS) - 1 - 0 + 1)%Z with (Z.of_nat (length KEYS)) by lia.
  pose proof (Z.mod_pos_bound (Z.of_nat draw) (Z.of_nat (length KEYS))). lia.
Qed.

Lemma spawn_due (dm : DifficultyManager.t) (draw : nat) (ct : Q) (ng : NoteGenerator.t) :
  (0 < length KEYS)%nat →
  (NoteGenerator.spawn_interval ng <= ct - NoteGenerator.last_spawn_time ng)%Q →
  ∃ lane x,
    (lane < length KEYS)%nat
    ∧ NoteGenerator.update dm draw ct ng
      = Ok (NoteGenerator.mk
              (NoteGenerator.notes ng
               ++ [Note.mk lane x 0 (DifficultyManager.current_speed dm) state_active
                     None None None])
              ct (NoteGenerator.spawn_interval ng)).
Proof.
  intros Hk Hdue. unfold NoteGenerator.update.
  rewrite (proj2 (Qle_bool_iff _ _) Hdue).
  destruct (randint_lane draw Hk) as (lane & -> & Hlane).
  cbn [mbind result_bind].
  destruct (note_init (Z.to_nat lane) (DifficultyManager.current_speed dm) 0 Hk)
    as (x & Hx).
  unfold DifficultyManager.get_speed. rewrite Hx. cbn [mbind result_bind].
  exists (Z.to_nat lane), x. split; [lia|reflexivity].
Qed.

Lemma spawn_not_due (dm : DifficultyManager.t) (draw : nat) (ct : Q) (ng : NoteGenerator.t) :
  (ct - NoteGenerator.last_spawn_time ng < NoteGenerator.spawn_interval ng)%Q →
  NoteGenerator.update dm draw ct ng = Ok ng.
Proof.
  intros Hnot. unfold NoteGenerator.update.
  by rewrite (proj2 (Qle_bool_false _ _) Hnot).
Qed.

(** X6: with at least one lane, the generator spawns when, and only when,
    the spawn interval has passed since [last_spawn_time]: then it appends
    one note at position 0, active, with no time stamp, at the current
    speed of the difficulty manager and in a lane of [KEYS], keeps the notes
    it had, and records the current time as [last_spawn_time]; otherwise it
    changes nothing. *)
Theorem X6_spawn_when_due (dm : DifficultyManager.t) (draw : nat) (ct : Q)
    (ng : NoteGenerator.t) :
  (0 < length KEYS)%nat →
  ((NoteGenerator.spawn_interval ng <= ct - NoteGenerator.last_spawn_time ng)%Q →
   ∃ ng' note,
     NoteGenerator.update dm draw ct ng = Ok ng'
     ∧ NoteGenerator.notes ng' = NoteGenerator.notes ng ++ [note]
     ∧ NoteGenerator.last_spawn_time ng' = ct
     ∧ NoteGenerator.spawn_interval ng' = NoteGenerator.spawn_interval ng
     ∧ (Note.lane note < length KEYS)%nat
     ∧ Note.y note = 0%Q
     ∧ Note.speed note = DifficultyManager.current_speed dm
     ∧ Note.state note = state_active
     ∧ Note.hit_time note = None ∧ Note.start_hit_time note = None
     ∧ Note.miss_time note = None)
  ∧ ((ct - NoteGenerator.last_spawn_time ng < NoteGenerator.spawn_interval ng)%Q →
     NoteGenerator.update dm draw ct ng = Ok ng).
Proof.
  intros Hk. split.
  - intros Hdue. destruct (spawn_due dm draw ct ng Hk Hdue) as (lane & x & Hlane & ->).
    eexists. eexists. split; [reflexivity|]. by repeat split.
  - apply spawn_not_due.
Qed.

(** X7: no catch-up. However long ago the last spawn was, a call spawns
    exactly one note, and a second call at the same time spawns none
    (for a positive spawn interval). *)
Theorem X7_one_spawn_per_call (dm : DifficultyManager.t) (draw draw' : nat) (ct : Q)
    (ng : NoteGenerator.t) :
  (0 < length KEYS)%nat →
  (0 < NoteGenerator.spawn_interval ng)%Q →
  (NoteGenerator.spawn_interval ng <= ct - NoteGenerator.last_spawn_time ng)%Q →
  ∃ ng',
    NoteGenerator.update dm draw ct ng = Ok ng'
    ∧ length (NoteGenerator.notes ng') = S (length (NoteGenerator.notes ng))
    ∧ NoteGenerator.update dm draw' ct ng' = Ok ng'.
Proof.
  intros Hk Hpos Hdue.
  destruct (spawn_due dm draw ct ng Hk Hdue) as (lane & x & Hlane & ->).
  eexists. split; [reflexivity|]. split.
  - cbn. rewrite length_app. simpl. lia.
  - apply spawn_not_due. cbn.
    assert (E : (ct - ct == 0)%Q) by ring. by rewrite E.
Qed.

(** X8: with no lane at all ([KEYS] empty) the first spawn that is due
    raises [ValueError], from [random.randint(0, -1)]. *)
Theorem X8_spawn_without_lanes (dm : DifficultyManager.t) (draw : nat) (ct : Q)
    (ng : NoteGenerator.t) :
  KEYS = [] →
  (NoteGenerator.spawn_interval ng <= ct - NoteGenerator.last_spawn_time ng)%Q →
  NoteGenerator.update dm draw ct ng = Raise ValueError.
Proof.
  intros Hk Hdue. unfold NoteGenerator.update.
  rewrite (proj2 (Qle_bool_iff _ _) Hdue), Hk. reflexivity.
Qed.

Lemma list_index_not_in (l : list string) (key : string) :
  key ∉ l → list_index l key = Raise ValueError.
Proof.
  induction l as [|k l IH]; intros Hin; [done|]. simpl.
  destruct (String.eqb_spec k key) as [->|Hne].
  - exfalso. apply Hin. by left.
  - rewrite IH; [done|]. intros ?. apply Hin. by right.
Qed.

(** X9: [handle_note_hit] on a key that is not one of [KEYS] raises
    [ValueError] (from [KEYS.index]), whatever the state of the game. *)
Theorem X9_unknown_key_raises (key : string) (g : Game.t) :
  key ∉ KEYS → Game.handle_note_hit key g = Raise ValueError.
Proof.
  intros Hk. unfold Game.handle_note_hit. run_M.
  by rewrite (list_index_not_in _ _ Hk).
Qed.

(** X10: tie-break of a press. Among the notes of the list, the first one
    that is active, in the lane of the key and inside the judgment window is
    the one that is hit: it alone leaves the list, every other note stays as
    it was and where it was, one 'hit' event of the lane is recorded, combo,
    hits and total_notes grow by 1 and incorrect_hits does not change. *)
Theorem X10_first_eligible_note_is_hit (g : Game.t) (key : string) (lane : nat)
    (pre post : list Note.t) (n : Note.t) :
  list_index KEYS key = Ok lane →
  Game.notes g = pre ++ n :: post →
  Forall (fun m => eligible lane m = false) pre →
  eligible lane n = true →
  ∃ g' e,
    Game.handle_note_hit key g = Ok (tt, g')
    ∧ Game.notes g' = pre ++ post
    ∧ session_data g' = session_data g ++ [e]
    ∧ Data.hit_status e = status_hit
    ∧ Data.lane e = lane
    ∧ Data.level e = Game.current_level g
    ∧ Game.combo g' = (Game.combo g + 1)%Z
    ∧ Game.hits g' = (Game.hits g + 1)%Z
    ∧ Game.total_notes g' = (Game.total_notes g + 1)%Z
    ∧ Game.incorrect_hits g' = Game.incorrect_hits g
    ∧ Game.hit_line_flash_timer g' = Game.hit_line_flash_timer g.
Proof.
  intros Hk Hns Hpre Hn.
  exists (after_hit (length pre) n g).
  destruct (hit_event (length pre) n g) as (e & Hsd & Hst & Hlane & Hlv & _).
  exists e. split; [by eapply handle_note_hit_hit|].
  split.
  { change (Game.notes (after_hit (length pre) n g))
      with (delete (length pre) (Game.notes g)).
    rewrite Hns. clear. induction pre as [|p pre IH]; [done|]. simpl. by rewrite IH. }
  split; [done|]. split; [done|].
  split; [rewrite Hlane; by apply eligible_spec in Hn as (? & _)|].
  split; [done|]. by repeat split.
Qed.

End Spawn.

Lemma X6_spawn_when_due_witness :
  ∃ ng' note,
    @NoteGenerator.update rhythmGame five_levels 6 30 idle_generator = Ok ng'
    ∧ NoteGenerator.notes ng' = NoteGenerator.notes idle_generator ++ [note]
    ∧ NoteGenerator.last_spawn_time ng' = 30%Q
    ∧ (Note.lane note < 4)%nat
    ∧ Note.state note = state_active.
Proof.
  destruct (@X6_spawn_when_due rhythmGame five_levels 6 30 idle_generator) as [Hdue _].
  - vm_compute. lia.
  - destruct Hdue as (ng' & note & Hrun & Hnotes & Hlast & _ & Hlane & _ & _ & Hst & _);
      [vm_compute; discriminate|].
    exists ng', note. by repeat split.
Defined.

Lemma X7_one_spawn_per_call_witness :
  ∃ ng',
    @NoteGenerator.update rhythmGame five_levels 6 30 idle_generator = Ok ng'
    ∧ length (NoteGenerator.notes ng') = S (length (NoteGenerator.notes idle_generator))
    ∧ @NoteGenerator.update rhythmGame five_levels 1 30 ng' = Ok ng'.
Proof.
  apply (@X7_one_spawn_per_call rhythmGame five_levels 6 1 30 idle_generator).
  - vm_compute. lia.
  - vm_compute. reflexivity.
  - vm_compute. discriminate.
Defined.

Lemma X8_spawn_without_lanes_witness :
  @NoteGenerator.update no_lanes five_levels 6 30 idle_generator = Raise ValueError.
Proof.
  apply (@X8_spawn_without_lanes no_lanes).
  - reflexivity.
  - vm_compute. discriminate.
Defined.

Lemma X9_unknown_key_raises_witness :
  @Game.handle_note_hit rhythmGame "A" scenario_A = Raise ValueError.
Proof.
  apply (@X9_unknown_key_raises rhythmGame).
  intros H. repeat (apply elem_of_cons in H as [H|H]; [discriminate H|]).
  by apply elem_of_nil in H.
Defined.

Lemma X10_first_eligible_note_is_hit_witness :
  ∃ g' e,
    @Game.handle_note_hit rhythmGame "J" crowded = Ok (tt, g')
    ∧ Game.notes g' = [marker_A0] ++ [marker_A2]
    ∧ session_data g' = session_data crowded ++ [e]
    ∧ Data.hit_status e = status_hit.
Proof.
  destruct (@X10_first_eligible_note_is_hit rhythmGame crowded "J" 2
              [marker_A0] [marker_A2] marker_A)
    as (g' & e & Hrun & Hnotes & Hsd & Hst & _).
  - reflexivity.
  - reflexivity.
  - repeat constructor.
  - reflexivity.
  - exists g', e. by repeat split.
Defined.

Section Collector.
Context `{K : Constants}.

(** X11: the collector never drops an event from the file of events.
    Any sequence of [record_hit], [save_feedback] and [analyze_data] on
    notes of the lanes of [KEYS] runs to its end; the rows of the event file
    only grow, by one row per [record_hit]; the buffer of the level is always
    the tail of that file, and the analysis file grows by one row per
    [analyze_data]. *)
Theorem X11_event_file_only_grows (cs : list CollectorCall) (dc : DataCollector.t) :
  DataCollector.session_data dc `suffix_of` DataCollector.event_rows dc →
  Forall (fun d => (Data.lane d < length KEYS)%nat) (DataCollector.session_data dc) →
  Forall in_lanes cs →
  ∃ dc',
    collector_calls cs dc = Ok dc'
    ∧ DataCollector.session_data dc' `suffix_of` DataCollector.event_rows dc'
    ∧ DataCollector.event_rows dc `prefix_of` DataCollector.event_rows dc'
    ∧ Z.of_nat (length (DataCollector.event_rows dc'))
      = (Z.of_nat (length (DataCollector.event_rows dc)) + count_if is_record_hit cs)%Z
    ∧ Z.of_nat (length (DataCollector.analysis_rows dc'))
      = (Z.of_nat (length (DataCollector.analysis_rows dc))
         + count_if is_analyze_data cs)%Z.
Proof.
  unfold collector_calls. revert dc.
  induction cs as [|c cs IH]; intros dc Hsuf Hbuf Hcs; cbn [for_in count_if].
  - exists dc. repeat split; [done|done|lia..].
  - apply Forall_cons in Hcs as [Hc Hcs].
    assert (H1 : ∃ dc1,
              collector_call c dc = Ok dc1
              ∧ DataCollector.session_data dc1 `suffix_of` DataCollector.event_rows dc1
              ∧ Forall (fun d => (Data.lane d < length KEYS)%nat)
                  (DataCollector.session_data dc1)
              ∧ DataCollector.event_rows dc `prefix_of` DataCollector.event_rows dc1
              ∧ Z.of_nat (length (DataCollector.event_rows dc1))
                = (Z.of_nat (length (DataCollector.event_rows dc))
                   + (if is_record_hit c then 1 else 0))%Z
              ∧ Z.of_nat (length (DataCollector.analysis_rows dc1))
                = (Z.of_nat (length (DataCollector.analysis_rows dc))
                   + (if is_analyze_data c then 1 else 0))%Z).
    { destruct c as [now note level st|level fb tt ex|tt ex];
        cbn [collector_call is_record_hit is_analyze_data in_lanes] in *.
      - eexists. split; [reflexivity|]. cbn. destruct Hsuf as [k Hk].
        split; [exists k; by rewrite Hk, app_assoc|].
        split; [apply Forall_app; split; [done|]; by repeat constructor|].
        split; [by apply prefix_app_r|]. rewrite length_app. simpl. lia.
      - eexists. split; [reflexivity|]. cbn. split; [done|]. split; [done|].
        split; [done|]. lia.
      - eexists. split; [by apply analyze_data_summary|]. cbn.
        split; [apply suffix_nil|]. split; [constructor|]. split; [done|].
        rewrite length_app. simpl. lia. }
    destruct H1 as (dc1 & -> & Hsuf1 & Hbuf1 & Hpre1 & Hlen1 & Hana1).
    cbn [mbind result_bind].
    destruct (IH dc1 Hsuf1 Hbuf1 Hcs) as (dc' & Hrun & Hsuf' & Hpre' & Hlen' & Hana').
    exists dc'. split; [done|]. split; [done|]. split; [by etrans|]. lia.
Qed.

Lemma rate_bounds (a b : Z) : (0 ≤ a ≤ b)%Z → (0 <= rate a b ∧ rate a b <= 1)%Q.
Proof.
  intros Hab. unfold rate. destruct (Z.ltb_spec 0 b) as [Hb|Hb]; [|by split].
  unfold truediv.
  assert (Hpos : (0 < inject_Z b)%Q) by (unfold Qlt; simpl; lia).
  split.
  - apply Qle_shift_div_l; [done|]. unfold Qle. simpl. lia.
  - apply Qle_shift_div_r; [done|]. unfold Qle. simpl. lia.
Qed.

Lemma count_if_le {A} (f g : A → bool) (l : list A) :
  (∀ a, f a = true → g a = true) → (0 ≤ count_if f l ≤ count_if g l)%Z.
Proof.
  intros Hfg. induction l as [|a l IH]; simpl; [lia|].
  specialize (Hfg a). destruct (f a), (g a); try lia; by specialize (Hfg eq_refl).
Qed.

(** X12: every rate that [analyze_data] writes lies between 0 and 1: the
    overall hit rate and incorrect-press rate, and the rates of each lane. *)
Theorem X12_rates_between_0_and_1 (total_time : Q) (exited : bool)
    (dc : DataCollector.t) :
  Forall (fun d => (Data.lane d < length KEYS)%nat) (DataCollector.session_data dc) →
  ∃ dc' row,
    DataCollector.analyze_data total_time exited dc = Ok dc'
    ∧ DataCollector.analysis_rows dc' = DataCollector.analysis_rows dc ++ [row]
    ∧ (0 <= Analysis.hit_rate row ∧ Analysis.hit_rate row <= 1)%Q
    ∧ (0 <= Analysis.incorrect_hit_rate row ∧ Analysis.incorrect_hit_rate row <= 1)%Q
    ∧ (∀ lane r, Analysis.lane_hit_rates row !! lane = Some r → (0 <= r ∧ r <= 1)%Q)
    ∧ (∀ lane r, Analysis.lane_incorrect_hit_rates row !! lane = Some r →
                 (0 <= r ∧ r <= 1)%Q).
Proof.
  intros Hall. eexists. exists (summary total_time exited dc).
  split; [by apply analyze_data_summary|]. split; [reflexivity|].
  assert (Hhit : ∀ st l d, DataCollector.is_status st d = true → st ∈ l →
                           DataCollector.status_in l d = true).
  { intros st l d Hst Hin. unfold DataCollector.is_status, DataCollector.status_in in *.
    apply bool_decide_eq_true in Hst. apply bool_decide_eq_true. by rewrite Hst. }
  cbn [summary Analysis.hit_rate Analysis.incorrect_hit_rate Analysis.lane_hit_rates
       Analysis.lane_incorrect_hit_rates].
  split; [|split; [|split]].
  - apply rate_bounds. apply count_if_le. intros d Hd. eapply Hhit; [done|]. by left.
  - apply rate_bounds.
    pose proof (count_if_nonneg (DataCollector.is_status status_hit)
                  (DataCollector.session_data dc)).
    pose proof (count_if_nonneg (DataCollector.is_status status_incorrect)
                  (DataCollector.session_data dc)). lia.
  - intros lane r. rewrite lookup_dict_of_range. case_decide; [|done].
    intros [= <-]. apply rate_bounds. apply count_if_le. intros d.
    rewrite !andb_true_iff. intros [Hd ?]. split; [|done].
    eapply Hhit; [done|]. by left.
  - intros lane r. rewrite lookup_dict_of_range. case_decide; [|done].
    intros [= <-]. apply rate_bounds. apply count_if_le. intros d.
    rewrite !andb_true_iff. intros [Hd ?]. split; [|done].
    eapply Hhit; [done|]. right. by left.
Qed.

(** X13: on an empty buffer [analyze_data] divides by nothing: it appends a
    row whose hit rate, incorrect-press rate and mean reaction time are 0,
    overall and in each lane of [KEYS], with no entry for any other lane. *)
Theorem X13_empty_buffer_zero_row (total_time : Q) (exited : bool)
    (dc : DataCollector.t) :
  DataCollector.session_data dc = [] →
  ∃ dc' row,
    DataCollector.analyze_data total_time exited dc = Ok dc'
    ∧ DataCollector.analysis_rows dc' = DataCollector.analysis_rows dc ++ [row]
    ∧ Analysis.hit_rate row = 0%Q
    ∧ Analysis.incorrect_hit_rate row = 0%Q
    ∧ Analysis.avg_reaction_time row = 0%Q
    ∧ Analysis.game_duration row = total_time
    ∧ Analysis.exit_rate row = (if exited then 1 else 0)%Z
    ∧ ∀ lane,
        Analysis.lane_hit_rates row !! lane
        = (if decide (lane < length KEYS)%nat then Some 0%Q else None)
        ∧ Analysis.lane_incorrect_hit_rates row !! lane
          = (if decide (lane < length KEYS)%nat then Some 0%Q else None)
        ∧ Analysis.avg_lane_reaction_times row !! lane
          = (if decide (lane < length KEYS)%nat then Some 0%Q else None).
Proof.
  intros Hsd. eexists. exists (summary total_time exited dc).
  split; [apply analyze_data_summary; rewrite Hsd; constructor|].
  split; [reflexivity|]. unfold summary. rewrite Hsd.
  cbn [Analysis.hit_rate Analysis.incorrect_hit_rate Analysis.avg_reaction_time
       Analysis.game_duration Analysis.exit_rate Analysis.lane_hit_rates
       Analysis.lane_incorrect_hit_rates Analysis.avg_lane_reaction_times].
  do 5 (split; [reflexivity|]).
  intros lane. rewrite !lookup_dict_of_range. by case_decide.
Qed.

Lemma for_in_app {A S} (l1 l2 : list A) (body : A → S → result S) (s : S) :
  for_in (l1 ++ l2) body s = for_in l1 body s ≫= for_in l2 body.
Proof.
  revert s. induction l1 as [|a l1 IH]; intros s; [done|].
  cbn [app for_in]. destruct (body a s) as [s'|e]; [|done].
  cbn [mbind result_bind]. apply IH.
Qed.

(** X14: an event of a hit or a miss in a lane that [KEYS] does not have
    makes [analyze_data] raise [KeyError] (from [lane_totals[d['lane']]]):
    nothing is written and the buffer is not cleared. *)
Theorem X14_unknown_lane_key_error (total_time : Q) (exited : bool)
    (dc : DataCollector.t) (pre post : list Data.t) (d : Data.t) :
  DataCollector.session_data dc = pre ++ d :: post →
  Forall (fun d => (Data.lane d < length KEYS)%nat) pre →
  (length KEYS ≤ Data.lane d)%nat →
  Data.hit_status d = status_hit ∨ Data.hit_status d = status_miss →
  DataCollector.analyze_data total_time exited dc = Raise KeyError.
Proof.
  intros Hsd Hpre Hlane Hst. unfold DataCollector.analyze_data. rewrite Hsd.
  change DataCollector.tally_hit
    with (tally (DataCollector.status_in [status_hit; status_miss])
                (DataCollector.is_status status_hit)).
  cbv zeta.
  rewrite (for_in_app pre (d :: post)
             (tally (DataCollector.status_in [status_hit; status_miss])
                    (DataCollector.is_status status_hit))).
  destruct (tally_loop (DataCollector.status_in [status_hit; status_miss])
              (DataCollector.is_status status_hit) pre
              (dict_of_range (length KEYS) (fun _ => 0%Z))
              (dict_of_range (length KEYS) (fun _ => 0%Z)))
    as (num & den & -> & Hlk).
  { intros d' Hd'. split; by eapply zeros_lookup. }
  assert (Hp : DataCollector.status_in [status_hit; status_miss] d = true).
  { unfold DataCollector.status_in. apply bool_decide_eq_true.
    destruct Hst as [-> | ->]; [by left|right; by left]. }
  destruct (Hlk (Data.lane d)) as [_ Hden].
  rewrite lookup_dict_of_range, decide_False in Hden by lia.
  assert (Hstep : tally (DataCollector.status_in [status_hit; status_miss])
                    (DataCollector.is_status status_hit) d (num, den)
                  = Raise KeyError).
  { unfold tally. rewrite Hp. unfold dict_incr, dict_getitem.
    cbn in Hden. by rewrite Hden. }
  cbn [mbind result_bind for_in]. by rewrite Hstep.
Qed.

(** X15: the per-lane dictionaries that [analyze_data] fills in its loops
    have exactly the lanes of [KEYS] as keys, and the row is the closed form
    of the buffer: the hit rate is hits over hits plus misses, the
    incorrect-press rate is incorrect presses over hits plus incorrect
    presses, each 0 when the denominator is 0, overall and per lane, and the
    mean reaction time is the mean of the reaction times that are present. *)
Theorem X15_summary_closed_form (total_time : Q) (exited : bool) (dc : DataCollector.t) :
  Forall (fun d => (Data.lane d < length KEYS)%nat) (DataCollector.session_data dc) →
  let sd := DataCollector.session_data dc in
  let hit := DataCollector.is_status status_hit in
  let miss := DataCollector.is_status status_miss in
  let incorrect := DataCollector.is_status status_incorrect in
  ∃ dc' row,
    DataCollector.analyze_data total_time exited dc = Ok dc'
    ∧ DataCollector.analysis_rows dc' = DataCollector.analysis_rows dc ++ [row]
    ∧ Analysis.level row = DataCollector.level dc
    ∧ Analysis.hit_rate row = rate (count_if hit sd) (count_if hit sd + count_if miss sd)
    ∧ Analysis.incorrect_hit_rate row
      = rate (count_if incorrect sd) (count_if hit sd + count_if incorrect sd)
    ∧ Analysis.avg_reaction_time row = DataCollector.average (omap Data.reaction_time sd)
    ∧ ∀ lane,
        Analysis.lane_hit_rates row !! lane
        = (if decide (lane < length KEYS)%nat
           then Some (rate (lane_count hit lane sd)
                        (lane_count hit lane sd + lane_count miss lane sd))
           else None)
        ∧ Analysis.lane_incorrect_hit_rates row !! lane
          = (if decide (lane < length KEYS)%nat
             then Some (rate (lane_count incorrect lane sd)
                          (lane_count hit lane sd + lane_count incorrect lane sd))
             else None)
        ∧ Analysis.avg_lane_reaction_times row !! lane
          = (if decide (lane < length KEYS)%nat
             then Some (DataCollector.average (lane_times lane sd))
             else None).
Proof.
  intros Hall sd hit miss incorrect. eexists. exists (summary total_time exited dc).
  split; [by apply analyze_data_summary|]. split; [reflexivity|].
  split; [reflexivity|]. unfold summary.
  cbn [Analysis.hit_rate Analysis.incorrect_hit_rate Analysis.avg_reaction_time
       Analysis.lane_hit_rates Analysis.lane_incorrect_hit_rates
       Analysis.avg_lane_reaction_times].
  fold sd hit miss incorrect.
  assert (Heff : ∀ l, lane_count (DataCollector.status_in [status_hit; status_incorrect]) l sd
                      = (lane_count hit l sd + lane_count incorrect l sd)%Z).
  { intros l. apply count_if_split; intros d;
      unfold hit, incorrect, DataCollector.status_in, DataCollector.is_status;
      destruct (Data.hit_status d), (bool_decide (Data.lane d = l)); done. }
  split; [by rewrite notes_split|]. split; [done|]. split; [done|].
  intros lane. rewrite !lookup_dict_of_range.
  case_decide; [|done]. by rewrite lane_notes_split, Heff.
Qed.

(** X16: an incorrect press does not touch the hit rates, and a miss does
    not touch the incorrect-press rates: recording the one or the other
    leaves these rates of the row, overall and per lane, as they are without
    the event. *)
Theorem X16_rates_ignore_other_events (now : Q) (note : Note.t) (level : Z)
    (dc : DataCollector.t) (total_time : Q) (exited : bool) :
  Forall (fun d => (Data.lane d < length KEYS)%nat) (DataCollector.session_data dc) →
  (Note.lane note < length KEYS)%nat →
  ∃ dc0 dci dcm row0 rowi rowm,
    DataCollector.analyze_data total_time exited dc = Ok dc0
    ∧ DataCollector.analyze_data total_time exited
        (DataCollector.record_hit now note level status_incorrect dc) = Ok dci
    ∧ DataCollector.analyze_data total_time exited
        (DataCollector.record_hit now note level status_miss dc) = Ok dcm
    ∧ DataCollector.analysis_rows dc0 = DataCollector.analysis_rows dc ++ [row0]
    ∧ DataCollector.analysis_rows dci = DataCollector.analysis_rows dc ++ [rowi]
    ∧ DataCollector.analysis_rows dcm = DataCollector.analysis_rows dc ++ [rowm]
    ∧ Analysis.hit_rate rowi = Analysis.hit_rate row0
    ∧ Analysis.lane_hit_rates rowi = Analysis.lane_hit_rates row0
    ∧ Analysis.incorrect_hit_rate rowm = Analysis.incorrect_hit_rate row0
    ∧ Analysis.lane_incorrect_hit_rates rowm = Analysis.lane_incorrect_hit_rates row0.
Proof.
  intros Hall Hlane.
  set (dci := DataCollector.record_hit now note level status_incorrect dc).
  set (dcm := DataCollector.record_hit now note level status_miss dc).
  destruct (record_hit_event now note level status_incorrect dc)
    as (ei & Hsdi & Hli & Hsti & _).
  destruct (record_hit_event now note level status_miss dc)
    as (em & Hsdm & Hlm & Hstm & _).
  fold dci in Hsdi. fold dcm in Hsdm.
  assert (Halli : Forall (fun d => (Data.lane d < length KEYS)%nat)
                    (DataCollector.session_data dci)).
  { rewrite Hsdi. apply Forall_app. split; [done|]. constructor; [|done]. by rewrite Hli. }
  assert (Hallm : Forall (fun d => (Data.lane d < length KEYS)%nat)
                    (DataCollector.session_data dcm)).
  { rewrite Hsdm. apply Forall_app. split; [done|]. constructor; [|done]. by rewrite Hlm. }
  assert (Hcount : ∀ (f : Data.t → bool) e ds, f e = false →
                     count_if f (ds ++ [e]) = count_if f ds).
  { intros f e ds Hf. induction ds as [|d ds IH]; simpl; [rewrite Hf; lia|].
    by rewrite IH. }
  assert (Hlcount : ∀ (f : Data.t → bool) e l ds, f e = false →
                     lane_count f l (ds ++ [e]) = lane_count f l ds).
  { intros f e l ds Hf. apply Hcount. by rewrite Hf. }
  eexists _, _, _, (summary total_time exited dc), (summary total_time exited dci),
    (summary total_time exited dcm).
  do 3 (split; [by apply analyze_data_summary|]).
  do 3 (split; [reflexivity|]).
  unfold summary.
  cbn [Analysis.hit_rate Analysis.incorrect_hit_rate Analysis.lane_hit_rates
       Analysis.lane_incorrect_hit_rates].
  rewrite Hsdi, Hsdm.
  assert (Hi1 : DataCollector.is_status status_hit ei = false)
    by (unfold DataCollector.is_status; rewrite Hsti; done).
  assert (Hi2 : DataCollector.status_in [status_hit; status_miss] ei = false)
    by (unfold DataCollector.status_in; rewrite Hsti; done).
  assert (Hm1 : DataCollector.is_status status_incorrect em = false)
    by (unfold DataCollector.is_status; rewrite Hstm; done).
  assert (Hm2 : DataCollector.status_in [status_hit; status_incorrect] em = false)
    by (unfold DataCollector.status_in; rewrite Hstm; done).
  assert (Hm3 : DataCollector.is_status status_hit em = false)
    by (unfold DataCollector.is_status; rewrite Hstm; done).
  split; [by rewrite !Hcount|].
  split; [apply dict_of_range_ext; intros l _; by rewrite !Hlcount|].
  split; [by rewrite !Hcount|].
  apply dict_of_range_ext. intros l _. by rewrite !Hlcount.
Qed.

End Collector.

Lemma X11_event_file_only_grows_witness :
  ∃ dc',
    @collector_calls rhythmGame busy_level (Game.data_collector started) = Ok dc'
    ∧ DataCollector.session_data dc' `suffix_of` DataCollector.event_rows dc'
    ∧ Z.of_nat (length (DataCollector.event_rows dc'))
      = (Z.of_nat (length (DataCollector.event_rows (Game.data_collector started)))
         + count_if is_record_hit busy_level)%Z.
Proof.
  destruct (@X11_event_file_only_grows rhythmGame busy_level
              (Game.data_collector started)) as (dc' & Hrun & Hsuf & _ & Hlen & _).
  - apply suffix_nil.
  - constructor.
  - repeat constructor; simpl; lia.
  - exists dc'. split; [exact Hrun|]. split; [exact Hsuf|exact Hlen].
Defined.

Lemma X12_rates_between_0_and_1_witness :
  ∃ dc' row,
    @DataCollector.analyze_data rhythmGame 70 false balanced_collector = Ok dc'
    ∧ DataCollector.analysis_rows dc'
      = DataCollector.analysis_rows balanced_collector ++ [row]
    ∧ (0 <= Analysis.hit_rate row ∧ Analysis.hit_rate row <= 1)%Q.
Proof.
  destruct (@X12_rates_between_0_and_1 rhythmGame 70 false balanced_collector)
    as (dc' & row & Hrun & Hrows & Hhit & _).
  - repeat constructor.
  - exists dc', row. split; [exact Hrun|]. split; [exact Hrows|exact Hhit].
Defined.

Lemma X13_empty_buffer_zero_row_witness :
  ∃ dc' row,
    @DataCollector.analyze_data rhythmGame 70 true (Game.data_collector started) = Ok dc'
    ∧ DataCollector.analysis_rows dc'
      = DataCollector.analysis_rows (Game.data_collector started) ++ [row]
    ∧ Analysis.hit_rate row = 0%Q
    ∧ Analysis.exit_rate row = 1%Z.
Proof.
  destruct (@X13_empty_buffer_zero_row rhythmGame 70 true (Game.data_collector started))
    as (dc' & row & Hrun & Hrows & Hhit & _ & _ & _ & Hexit & _).
  - reflexivity.
  - exists dc', row. split; [exact Hrun|]. split; [exact Hrows|].
    split; [exact Hhit|exact Hexit].
Defined.

Lemma X14_unknown_lane_key_error_witness :
  @DataCollector.analyze_data rhythmGame 70 false stray_collector = Raise KeyError.
Proof.
  apply (@X14_unknown_lane_key_error rhythmGame 70 false stray_collector
           [balanced_event status_hit 1] [balanced_event status_hit 2]
           (balanced_event status_miss 7)).
  - reflexivity.
  - repeat constructor.
  - simpl. lia.
  - by right.
Defined.

Lemma X15_summary_closed_form_witness :
  ∃ dc' row,
    @DataCollector.analyze_data rhythmGame 70 false balanced_collector = Ok dc'
    ∧ DataCollector.analysis_rows dc'
      = DataCollector.analysis_rows balanced_collector ++ [row]
    ∧ Analysis.hit_rate row = rate 4 (4 + 4).
Proof.
  destruct (@X15_summary_closed_form rhythmGame 70 false balanced_collector)
    as (dc' & row & Hrun & Hrows & _ & Hhit & _).
  - repeat constructor.
  - exists dc', row. split; [exact Hrun|]. split; [exact Hrows|exact Hhit].
Defined.

Lemma X16_rates_ignore_other_events_witness :
  ∃ dc0 dci row0 rowi,
    @DataCollector.analyze_data rhythmGame 70 false balanced_collector = Ok dc0
    ∧ @DataCollector.analyze_data rhythmGame 70 false
        (@DataCollector.record_hit rhythmGame (epoch 9) instant_note 1 status_incorrect
           balanced_collector) = Ok dci
    ∧ DataCollector.analysis_rows dc0
      = DataCollector.analysis_rows balanced_collector ++ [row0]
    ∧ DataCollector.analysis_rows dci
      = DataCollector.analysis_rows balanced_collector ++ [rowi]
    ∧ Analysis.hit_rate rowi = Analysis.hit_rate row0.
Proof.
  destruct (@X16_rates_ignore_other_events rhythmGame (epoch 9) instant_note 1
              balanced_collector 70 false)
    as (dc0 & dci & _ & row0 & rowi & _ & H0 & Hi & _ & R0 & Ri & _ & Hhit & _).
  - repeat constructor.
  - simpl. lia.
  - exists dc0, dci, row0, rowi. by repeat split.
Defined.

Section Loop.
Context `{K : Constants}.

Lemma events_appended_nil (dc : DataCollector.t) : events_appended [] dc dc.
Proof. unfold events_appended. rewrite !app_nil_r. by repeat split. Qed.

Lemma events_appended_trans (evs1 evs2 : list Data.t) (dc dc1 dc2 : DataCollector.t) :
  events_appended evs1 dc dc1 → events_appended evs2 dc1 dc2 →
  events_appended (evs1 ++ evs2) dc dc2.
Proof.
  unfold events_appended. intros (?&?&?&?&?&?&?&?) (?&?&?&?&?&?&?&?).
  rewrite !app_assoc. repeat split; congruence.
Qed.

Lemma loop_frame_refl (g : Game.t) : loop_frame [] g g.
Proof.
  exists (Game.notes g), (Game.combo g), (Game.total_notes g), (Game.data_collector g),
    (Game.reads g).
  split; [by destruct g as [? ? ? ? ? ? ? ? [] ? ? ? ? ? ? ? ? ? ? ? ? ?]|].
  split; [done|]. split; [simpl; lia|]. split; [apply events_appended_nil|].
  split; [done|constructor].
Qed.

Lemma loop_frame_reads (g : Game.t) (r : nat) :
  (Game.reads g ≤ r)%nat → loop_frame [] g (Game.set_reads r g).
Proof.
  intros Hr.
  exists (Game.notes g), (Game.combo g), (Game.total_notes g), (Game.data_collector g), r.
  split; [by destruct g as [? ? ? ? ? ? ? ? [] ? ? ? ? ? ? ? ? ? ? ? ? ?]|].
  split; [done|]. split; [simpl; lia|]. split; [apply events_appended_nil|].
  split; [done|constructor].
Qed.

Lemma loop_frame_notes (evs : list Data.t) (g g' : Game.t) (ns : list Note.t) :
  loop_frame evs g g' → loop_frame evs g (Game.set_notes ns g').
Proof.
  intros (ns1 & c & t & dc & r & -> & Hrest).
  exists ns, c, t, dc, r. split; [|done].
  by destruct g as [? ? ? ? ? ? ? ? [] ? ? ? ? ? ? ? ? ? ? ? ? ?].
Qed.

Lemma loop_frame_trans (evs1 evs2 : list Data.t) (g g1 g2 : Game.t) :
  loop_frame evs1 g g1 → loop_frame evs2 g1 g2 → loop_frame (evs1 ++ evs2) g g2.
Proof.
  intros (ns1 & c1 & t1 & dc1 & r1 & -> & -> & -> & Hdc1 & Hr1 & Hev1)
         (ns2 & c2 & t2 & dc2 & r2 & -> & -> & -> & Hdc2 & Hr2 & Hev2).
  exists ns2,
    (match evs1 ++ evs2 with [] => Game.combo g | _ => 0%Z end),
    (Game.total_notes g + Z.of_nat (length (evs1 ++ evs2)))%Z, dc2, r2.
  split.
  { destruct g as [? ? ? ? ? ? ? ? [] ? ? ? ? ? ? ? ? ? ? ? ? ?]. cbn.
    rewrite length_app, Nat2Z.inj_add, Z.add_assoc.
    by destruct evs1, evs2. }
  split; [done|]. split; [done|].
  split; [by eapply events_appended_trans|].
  split; [cbn in Hr2; lia|].
  apply Forall_app. split; [done|]. by destruct g.
Qed.

Lemma loop_frame_clock (evs : list Data.t) (g g' : Game.t) :
  loop_frame evs g g' → same_clock g g'.
Proof.
  intros (ns & c & t & dc & r & -> & _ & _ & _ & Hr & _).
  unfold same_clock. by destruct g.
Qed.

Lemma loop_frame_intro (evs : list Data.t) (g : Game.t) ns c t dc r :
  c = match evs with [] => Game.combo g | _ => 0%Z end →
  t = (Game.total_notes g + Z.of_nat (length evs))%Z →
  events_appended evs (Game.data_collector g) dc →
  (Game.reads g ≤ r)%nat →
  Forall (fun e => Data.hit_status e = status_miss
                   ∧ (Data.lane e < length KEYS)%nat
                   ∧ Data.level e = Game.current_level g) evs →
  loop_frame evs g
    (Game.set_notes ns
       (Game.set_combo c
          (Game.set_total_notes t (Game.set_data_collector dc (Game.set_reads r g))))).
Proof. intros. exists ns, c, t, dc, r. do 4 (split; [done|]). by split. Qed.

(** One pass of the body of the loop of [update]. *)
Lemma update_note_step (i : nat) (n : Note.t) (g : Game.t) :
  note_ok n →
  ∃ j g' evs,
    Game.update_note i n g = Ok (j, g')
    ∧ loop_frame evs g g'
    ∧ Data.lane <$> evs = (if crossing n then [Note.lane n] else [])
    ∧ ((∃ n', j = S i ∧ Game.notes g' = <[i := n']> (Game.notes g) ∧ ticked n')
       ∨ (j = S i ∧ Game.notes g' = Game.notes g ∧ ticked n)
       ∨ (j = i ∧ Game.notes g' = delete i (Game.notes g))).
Proof.
  intros (Hlane & Hnh & Hht & Hmt).
  destruct n as [ln x y sp st ht sht mt]. cbn in Hlane, Hnh, Hht, Hmt. subst ht.
  destruct g as [? ? ? ? ? ? ? ? [ns lst si] dc ? ? ? ? ? ? ? ? ? w r ?].
  unfold crossing. cbn [Note.state Note.y Note.speed Note.lane].
  destruct st; [|by destruct Hnh|].
  - (* an active note *)
    assert (Hd : bool_decide (state_active = state_active) = true) by reflexivity.
    rewrite Hd. cbn [andb].
    unfold Game.update_note. cbn [Note.state]. run_M. note_simpl.
    destruct (Qle_bool (y + sp) (inject_Z HIT_LINE_Y)) eqn:Ey; cbn [negb].
    + assert (Hle := proj1 (Qle_bool_iff _ _) Ey).
      destruct sht as [s|];
        [|destruct (Qle_bool (inject_Z (HIT_LINE_Y - NOTE_HEIGHT)) (y + sp)) eqn:Ew];
        cbv beta iota; note_simpl; rewrite Ey, Hd; cbv beta iota; cbn [negb andb];
        (eexists _, _, []; split; [reflexivity|]);
        (split; [apply (loop_frame_intro []);
                   [done|simpl; lia|apply events_appended_nil|simpl; lia|constructor]|]);
        (split; [reflexivity|left; eexists; split; [reflexivity|]; split; [reflexivity|]]).
      * repeat split; try done; cbn; intros _ _; by eexists.
      * repeat split; try done; cbn; intros _ _; by eexists.
      * repeat split; try done; cbn; intros _ Hw; apply Qle_bool_iff in Hw; congruence.
    + destruct sht as [s|];
        [|destruct (Qle_bool (inject_Z (HIT_LINE_Y - NOTE_HEIGHT)) (y + sp)) eqn:Ew];
        cbv beta iota; note_simpl; rewrite Ey, Hd; cbv beta iota; cbn [negb andb];
        (eexists _, _, [_]; split; [reflexivity|]);
        (split; [eexists _, _, _, _, _; split; [reflexivity|];
                   split; [reflexivity|]; split; [reflexivity|];
                   split; [by destruct dc|]; split; [simpl; lia|by repeat constructor]|]);
        (split; [reflexivity|left; eexists; split; [reflexivity|]; split; [reflexivity|]]);
        repeat split; try done; cbn; by eexists.
  - (* a missed note *)
    destruct (Hmt eq_refl) as [m ->]. cbn [andb].
    unfold Game.update_note. cbn [Note.state Note.miss_time]. run_M.
    match goal with |- context [Qle_bool ?a ?b] => destruct (Qle_bool a b) end;
      cbn [negb]; (eexists _, _, []; split; [reflexivity|]);
      (split; [try apply loop_frame_notes; apply loop_frame_reads; simpl; lia|]);
      (split; [reflexivity|]).
    + right. left. repeat split; try done; cbn; by eexists.
    + right. right. by split.
Qed.

(** The loop of [update] over the copy of the notes, from any position on. *)
Lemma update_loop_run (snapshot : list Note.t) : ∀ (done : list Note.t) (g : Game.t),
  Game.notes g = done ++ snapshot → Forall note_ok snapshot →
  ∃ g' out evs,
    Game.update_loop (length done) snapshot g = Ok (tt, g')
    ∧ Game.notes g' = done ++ out
    ∧ Forall ticked out ∧ (length out ≤ length snapshot)%nat
    ∧ loop_frame evs g g'
    ∧ Data.lane <$> evs = crossing_lanes snapshot
    ∧ ∃ after,
        Forall2 (marker_tick (Game.wall g) (Game.reads g) (Game.reads g')) snapshot after
        ∧ out = omap id after.
Proof.
  induction snapshot as [|n rest IH]; intros done g Hns Hok.
  - exists g, [], []. split; [done|]. split; [done|]. split; [constructor|].
    split; [done|]. split; [apply loop_frame_refl|]. split; [done|].
    exists []. split; [constructor|done].
  - apply Forall_cons in Hok as [Hn Hrest].
    destruct (update_note_step (length done) n g Hn)
      as (j & g1 & evs1 & Hstep & Hf1 & Hl1 & Hcase).
    assert (Hlk : Game.notes g !! length done = Some n)
      by (rewrite Hns; apply list_lookup_middle; done).
    assert (Hlt : (length done < length (Game.notes g))%nat) by by eapply lookup_lt_Some.
    destruct (update_note_marker (length done) n g Hlk Hn)
      as (j' & g1' & o & Hstep' & Hrel & Hshape).
    rewrite Hstep in Hstep'. injection Hstep' as <- <-.
    pose proof (loop_frame_clock _ _ _ Hf1) as (_ & _ & _ & _ & _ & _ & _ & _ & Hw1 & Hr1).
    assert (Hlanes : ∀ evs2, Data.lane <$> evs2 = crossing_lanes rest →
              Data.lane <$> evs1 ++ evs2 = crossing_lanes (n :: rest)).
    { intros evs2 Hl2. rewrite fmap_app, Hl1, Hl2. unfold crossing_lanes.
      cbn [omap list_omap]. by destruct (crossing n). }
    assert (Hmarks : ∀ g' after2,
              (Game.reads g1 ≤ Game.reads g')%nat →
              Forall2 (marker_tick (Game.wall g1) (Game.reads g1) (Game.reads g')) rest after2 →
              Forall2 (marker_tick (Game.wall g) (Game.reads g) (Game.reads g'))
                (n :: rest) (o :: after2)).
    { intros g' after2 Hr2 H2. constructor.
      - eapply marker_tick_span; [| |exact Hrel]; [lia|exact Hr2].
      - eapply Forall2_impl; [exact H2|]. intros n0 o0 H0. rewrite Hw1 in H0.
        eapply marker_tick_span; [| |exact H0]; [exact Hr1|lia]. }
    cbn [Game.update_loop]. cbv [mbind Game.M_bind]. rewrite Hstep.
    destruct Hcase as [(n' & -> & Hns1 & Ht) | [(-> & Hns1 & Ht) | (-> & Hns1)]].
    + destruct o as [n''|]; [|destruct Hshape as [? _]; lia].
      destruct Hshape as [_ Hns1'].
      assert (n'' = n') as ->.
      { rewrite Hns1 in Hns1'. apply (f_equal (.!! length done)) in Hns1'.
        rewrite !list_lookup_insert_eq in Hns1' by exact Hlt. by injection Hns1' as ->. }
      rewrite Hns, insert_app_r_alt, Nat.sub_diag in Hns1 by done. cbn in Hns1.
      destruct (IH (done ++ [n']) g1)
        as (g' & out & evs2 & Hrun & Hns' & Hout & Hlen & Hf2 & Hl2 & after2 & Ha2 & ->);
        [by rewrite <- app_assoc|done|].
      rewrite length_app, Nat.add_1_r in Hrun.
      exists g', (n' :: omap id after2), (evs1 ++ evs2). split; [done|].
      split; [by rewrite Hns', <- app_assoc|]. split; [by constructor|].
      split; [simpl; lia|]. split; [by eapply loop_frame_trans|].
      split; [by apply Hlanes|].
      exists (Some n' :: after2). split; [|done]. apply Hmarks; [|done].
      by apply (loop_frame_clock _ _ _ Hf2).
    + destruct o as [n''|]; [|destruct Hshape as [? _]; lia].
      destruct Hshape as [_ Hns1'].
      assert (n'' = n) as ->.
      { rewrite Hns1 in Hns1'. apply (f_equal (.!! length done)) in Hns1'.
        rewrite list_lookup_insert_eq, Hlk in Hns1' by exact Hlt. by injection Hns1' as ->. }
      rewrite Hns in Hns1.
      destruct (IH (done ++ [n]) g1)
        as (g' & out & evs2 & Hrun & Hns' & Hout & Hlen & Hf2 & Hl2 & after2 & Ha2 & ->);
        [by rewrite <- app_assoc|done|].
      rewrite length_app, Nat.add_1_r in Hrun.
      exists g', (n :: omap id after2), (evs1 ++ evs2). split; [done|].
      split; [by rewrite Hns', <- app_assoc|]. split; [by constructor|].
      split; [simpl; lia|]. split; [by eapply loop_frame_trans|].
      split; [by apply Hlanes|].
      exists (Some n :: after2). split; [|done]. apply Hmarks; [|done].
      by apply (loop_frame_clock _ _ _ Hf2).
    + destruct o as [n''|]; [destruct Hshape as [? _]; lia|].
      rewrite Hns, delete_middle in Hns1.
      destruct (IH done g1)
        as (g' & out & evs2 & Hrun & Hns' & Hout & Hlen & Hf2 & Hl2 & after2 & Ha2 & ->);
        [done|done|].
      exists g', (omap id after2), (evs1 ++ evs2). split; [done|]. split; [done|].
      split; [done|].
      split; [simpl; lia|]. split; [by eapply loop_frame_trans|].
      split; [by apply Hlanes|].
      exists (None :: after2). split; [|done]. apply Hmarks; [|done].
      by apply (loop_frame_clock _ _ _ Hf2).
Qed.

End Loop.

Section Update.
Context `{K : Constants}.

Lemma ticked_ok (n : Note.t) : ticked n → note_ok n.
Proof. by intros [? _]. Qed.

(** [update] up to the test for the end of the level. *)
Lemma update_run (inp : Input.t) (g : Game.t) :
  Game.paused g = false → Game.in_menu g = false → Game.game_over g = false →
  (0 < length KEYS)%nat → Forall note_ok (Game.notes g) →
  ∃ g4 spawned ns evs,
    Game.update inp g
    = (if Qle_bool GAME_DURATION (elapsed g (Game.wall g (Game.reads g)))
       then (Game.show_feedback inp false;; advance_level) g4
       else Ok (tt, g4))
    ∧ tick_frame inp ns evs g g4
    ∧ Forall ticked ns
    ∧ (length ns ≤ length (Game.notes g ++ spawned))%nat
    ∧ Data.lane <$> evs = crossing_lanes (Game.notes g ++ spawned)
    ∧ (length spawned ≤ 1)%nat
    ∧ Forall (fun n => (Note.lane n < length KEYS)%nat ∧ Note.y n = 0%Q
                       ∧ Note.speed n
                         = DifficultyManager.current_speed (Game.difficulty_manager g)
                       ∧ Note.state n = state_active) spawned
    ∧ (spawned ≠ [] ↔
       (NoteGenerator.spawn_interval (Game.note_generator g)
        <= elapsed g (Game.wall g (Game.reads g))
           - NoteGenerator.last_spawn_time (Game.note_generator g))%Q)
    ∧ ∃ after,
        Forall2 (marker_tick (Game.wall g) (Game.reads g) (Game.reads g4))
          (Game.notes g ++ spawned) after
        ∧ ns = omap id after.
Proof.
  intros Hp Hm Ho Hk Hok.
  set (ct := elapsed g (Game.wall g (Game.reads g))).
  unfold Game.update. run_M. rewrite Hp, Hm, Ho. cbn [negb andb].
  set (g1 := Game.set_current_time _ _).
  assert (Hg1 : g1 = Game.set_current_time ct (Game.set_reads (S (Game.reads g)) g))
    by reflexivity.
  (* the generator *)
  assert (Hspawn : ∃ spawned lst,
            NoteGenerator.update (Game.difficulty_manager g1) (Input.draw inp)
              (Game.current_time g1) (Game.note_generator g1)
            = Ok (NoteGenerator.mk (Game.notes g ++ spawned) lst
                    (NoteGenerator.spawn_interval (Game.note_generator g)))
            ∧ (length spawned ≤ 1)%nat
            ∧ Forall (fun n => note_ok n ∧ Note.y n = 0%Q
                               ∧ Note.speed n
                                 = DifficultyManager.current_speed (Game.difficulty_manager g)
                               ∧ Note.state n = state_active) spawned
            ∧ (spawned ≠ [] ↔
               (NoteGenerator.spawn_interval (Game.note_generator g)
                <= ct - NoteGenerator.last_spawn_time (Game.note_generator g))%Q)).
  { destruct (Qle_bool (NoteGenerator.spawn_interval (Game.note_generator g))
                (ct - NoteGenerator.last_spawn_time (Game.note_generator g))) eqn:Es.
    - apply Qle_bool_iff in Es.
      destruct (spawn_due (Game.difficulty_manager g1) (Input.draw inp)
                  (Game.current_time g1) (Game.note_generator g1) Hk)
        as (lane & x & Hlane & Hs); [exact Es|].
      eexists [_], _. split; [exact Hs|]. split; [simpl; lia|].
      split; [|by split]. constructor; [|constructor].
      by repeat split.
    - apply Qle_bool_false in Es.
      exists [], (NoteGenerator.last_spawn_time (Game.note_generator g)).
      split.
      { rewrite spawn_not_due by exact Es. rewrite app_nil_r.
        by destruct g as [? ? ? ? ? ? ? ? [] ? ? ? ? ? ? ? ? ? ? ? ? ?]. }
      split; [simpl; lia|]. split; [constructor|].
      split; [done|]. intros Hle. exfalso. by apply (Qlt_not_le _ _ Es). }
  destruct Hspawn as (spawned & lst & -> & Hlen & Hsp & Hiff).
  set (g2 := Game.set_note_generator _ g1).
  (* the loop over the notes *)
  destruct (update_loop_run (Game.notes g2) [] g2) as
    (g3 & ns & evs & Hrun & Hns & Hticked & Hlenns & Hframe & Hlanes & Hmarks); [done|..].
  { subst g2. cbn. apply Forall_app. split; [done|].
    eapply Forall_impl; [exact Hsp|]. by intros n [? _]. }
  cbn [length] in Hrun. rewrite Hrun.
  exists (Game.set_hit_line_flash_timer (flash_after inp (Game.hit_line_flash_timer g3)) g3),
    spawned, ns, evs.
  destruct Hframe as (ns' & c & t & dc & r & Hg3 & Hc & Ht & Hdc & Hr & Hev).
  split; [|split; [|split; [done|split; [done|split; [done|split; [done|split]]]]]].
  - (* the result *)
    assert (Hct3 : Game.current_time g3 = ct) by (rewrite Hg3; reflexivity).
    unfold flash_after.
    destruct (negb (Qle_bool (Game.hit_line_flash_timer g3) 0)) eqn:Ef; cbv beta iota.
    + match goal with
      | |- context [Game.current_time (Game.set_hit_line_flash_timer ?f g3)] =>
        change (Game.current_time (Game.set_hit_line_flash_timer f g3))
          with (Game.current_time g3)
      end.
      rewrite Hct3. by destruct (Qle_bool GAME_DURATION ct).
    + assert (Game.set_hit_line_flash_timer (Game.hit_line_flash_timer g3) g3 = g3)
        as -> by by destruct g3.
      rewrite Hct3. by destruct (Qle_bool GAME_DURATION ct).
  - (* the frame *)
    exists lst, c, t, dc, r.
    split.
    { rewrite Hg3 in Hns. cbn in Hns. subst ns'. rewrite Hg3. subst g2 g1. clear.
      destruct g as [? ? ? ? ? ? ? ? [] ? ? ? ? ? ? ? ? ? ? ? ? ?]. reflexivity. }
    split; [done|]. split; [done|]. split; [done|]. split; [cbn in Hr; lia|done].
  - eapply Forall_impl; [exact Hsp|]. intros n ((? & _) & ? & ? & ?). by repeat split.
  - split; [done|]. destruct Hmarks as (after & Hafter & ->). exists after.
    split; [|done]. eapply Forall2_impl; [exact Hafter|]. intros n o Hno.
    eapply marker_tick_span; [| |exact Hno]; [subst g2 g1; cbn; lia|done].
Qed.

End Update.


Section Markers.
Context `{K : Constants}.

(** C8: a tick of [update] on a running game, for every marker of the
    list. The loop over the markers runs in every such tick ([g'] is the
    game it leaves, which is the result unless the time of the level is
    used up, when the questionnaire and the change of level follow). What
    it makes of each marker is [marker_tick]: an active marker advances by
    its speed, and it becomes missed in this tick exactly when that takes
    it beyond the judgment line, with a reading of the clock taken in this
    tick as its [miss_time]; the notes after the tick are what is left of
    the notes before it and of the note that the tick may spawn, in order.
    Each marker that becomes missed is one miss event of its lane and level
    and counts in [total_notes], and the combo is 0 after a tick in which a
    marker becomes missed. A missed marker is taken out of the list by the
    tick whose readings of the clock are more than 0.5 seconds after its
    [miss_time], and it is still in the list after a tick whose readings
    are not. *)
Theorem C8_missed_transition_and_removal (inp : Input.t) (g : Game.t) :
  Game.paused g = false → Game.in_menu g = false → Game.game_over g = false →
  (0 < length KEYS)%nat → Forall note_ok (Game.notes g) →
  ∃ g' spawned after evs,
    ((elapsed g (Game.wall g (Game.reads g)) < GAME_DURATION)%Q →
     Game.update inp g = Ok (tt, g'))
    ∧ ((GAME_DURATION <= elapsed g (Game.wall g (Game.reads g)))%Q →
       Game.update inp g = (Game.show_feedback inp false;; advance_level) g')
    ∧ Forall2 (marker_tick (Game.wall g) (Game.reads g) (Game.reads g'))
        (Game.notes g ++ spawned) after
    ∧ Game.notes g' = omap id after
    ∧ (length spawned ≤ 1)%nat
    ∧ Forall (fun n => Note.y n = 0%Q ∧ Note.state n = state_active) spawned
    ∧ session_data g' = session_data g ++ evs
    ∧ Forall (fun e => Data.hit_status e = status_miss
                       ∧ Data.level e = Game.current_level g) evs
    ∧ Data.lane <$> evs = crossing_lanes (Game.notes g ++ spawned)
    ∧ Game.total_notes g' = (Game.total_notes g + Z.of_nat (length evs))%Z
    ∧ Game.combo g' = match evs with [] => Game.combo g | _ => 0%Z end
    ∧ (∀ n, n ∈ Game.notes g → Note.state n = state_active →
         (inject_Z HIT_LINE_Y < Note.y n + Note.speed n)%Q →
         Game.combo g' = 0%Z
         ∧ ∃ e, e ∈ evs ∧ Data.hit_status e = status_miss ∧ Data.lane e = Note.lane n)
    ∧ (∀ n m, n ∈ Game.notes g → Note.state n = state_missed →
         Note.miss_time n = Some m →
         ((∀ k, (Game.reads g ≤ k < Game.reads g')%nat →
                (5 # 10 < Game.wall g k - m)%Q) →
          n ∉ Game.notes g')
         ∧ ((∀ k, (Game.reads g ≤ k < Game.reads g')%nat →
                  (Game.wall g k - m <= 5 # 10)%Q) →
            n ∈ Game.notes g')).
Proof.
  intros Hp Hm Ho Hk Hok.
  destruct (update_run inp g Hp Hm Ho Hk Hok) as
    (g4 & spawned & ns & evs & Hrun & Hframe & Hticked & Hlen & Hlanes & Hsp1 & Hsp & _
     & after & Hafter & ->).
  exists g4, spawned, after, evs.
  assert (Hns4 : Game.notes g4 = omap id after).
  { destruct Hframe as (lst & c & t & dc & r & -> & _). reflexivity. }
  assert (Hcombo : Game.combo g4 = match evs with [] => Game.combo g | _ => 0%Z end).
  { destruct Hframe as (lst & c & t & dc & r & -> & -> & _). reflexivity. }
  assert (Hevs : Forall (fun e => Data.hit_status e = status_miss
                                  ∧ Data.level e = Game.current_level g) evs).
  { destruct Hframe as (lst & c & t & dc & r & _ & _ & _ & _ & _ & Hev).
    eapply Forall_impl; [exact Hev|]. by intros e (? & _ & ?). }
  split.
  { intros Hlt. by rewrite (proj2 (Qle_bool_false _ _) Hlt) in Hrun. }
  split.
  { intros Hle. by rewrite (proj2 (Qle_bool_iff _ _) Hle) in Hrun. }
  split; [done|]. split; [done|]. split; [done|].
  split; [eapply Forall_impl; [exact Hsp|]; by intros n (_ & ? & _ & ?)|].
  split.
  { destruct Hframe as (lst & c & t & dc & r & -> & _ & _ & (Hsd & _) & _). exact Hsd. }
  split; [done|]. split; [done|].
  split.
  { destruct Hframe as (lst & c & t & dc & r & -> & _ & -> & _). reflexivity. }
  split; [done|].
  split.
  - (* a marker that crosses the line *)
    intros n Hin Hst Hgt.
    assert (Hcross : crossing n = true).
    { unfold crossing. rewrite Hst, (proj2 (Qle_bool_false _ _) Hgt). reflexivity. }
    assert (Hl : Note.lane n ∈ Data.lane <$> evs).
    { rewrite Hlanes. unfold crossing_lanes. apply list_elem_of_omap.
      exists n. split; [apply elem_of_app; by left|]. by rewrite Hcross. }
    apply list_elem_of_fmap in Hl as (e & He & Hine).
    split.
    + rewrite Hcombo. destruct evs; [by apply elem_of_nil in Hine|done].
    + exists e. split; [done|]. split; [|done].
      by apply (proj1 (Forall_forall _ _) Hevs e Hine).
  - (* a missed marker *)
    intros n m Hin Hst Hmt. split.
    + intros Hall Hin'. rewrite Hns4 in Hin'.
      apply list_elem_of_omap in Hin' as (o & Ho' & Hid). cbn in Hid. subst o.
      apply list_elem_of_lookup in Ho' as [j Hj].
      destruct (Forall2_lookup_r _ _ _ _ _ Hafter Hj) as (n0 & _ & Hrel).
      unfold marker_tick in Hrel. destruct (Note.state n0) eqn:E0.
      * destruct Hrel as (n' & [= <-] & _ & _ & Hbeyond & Hstay).
        destruct (Qlt_le_dec (inject_Z HIT_LINE_Y) (Note.y n0 + Note.speed n0))
          as [Hgt|Hle].
        -- destruct (Hbeyond Hgt) as (_ & k & Hk' & Hmk).
           rewrite Hmt in Hmk. injection Hmk as ->.
           specialize (Hall k Hk').
           assert (E : (Game.wall g k - Game.wall g k == 0)%Q) by ring.
           rewrite E in Hall. discriminate Hall.
        -- destruct (Hstay Hle) as (Hact & _). congruence.
      * injection Hrel as <-. congruence.
      * destruct Hrel as (k & m0 & Hk' & Hm0 & Hgone & Hkept).
        destruct (Qlt_le_dec (5 # 10) (Game.wall g k - m0)) as [Hgt|Hle].
        -- by specialize (Hgone Hgt).
        -- specialize (Hkept Hle). injection Hkept as <-.
           rewrite Hmt in Hm0. injection Hm0 as <-.
           by apply (Qlt_not_le _ _ (Hall k Hk')).
    + intros Hall. rewrite Hns4.
      assert (Hin2 : n ∈ Game.notes g ++ spawned) by (apply elem_of_app; by left).
      apply list_elem_of_lookup in Hin2 as [j Hj].
      destruct (Forall2_lookup_l _ _ _ _ _ Hafter Hj) as (o & Hjo & Hrel).
      unfold marker_tick in Hrel. rewrite Hst in Hrel.
      destruct Hrel as (k & m0 & Hk' & Hm0 & _ & Hkept).
      rewrite Hmt in Hm0. injection Hm0 as <-.
      rewrite (Hkept (Hall k Hk')) in Hjo.
      apply list_elem_of_omap. exists (Some n). split; [|done].
      by eapply list_elem_of_lookup_2.
Qed.

End Markers.

Lemma C8_missed_transition_and_removal_witness :
  ∃ g',
    @Game.update rhythmGame no_input scenario_B = Ok (tt, g')
    ∧ Game.combo g' = 0%Z
    ∧ (∃ e, e ∈ session_data g' ∧ Data.hit_status e = status_miss
            ∧ Data.lane e = Note.lane marker_B)
    ∧ Note.state <$> Game.notes g' = [state_missed; state_active].
Proof.
  destruct (@C8_missed_transition_and_removal rhythmGame no_input scenario_B)
    as (g' & spawned & after & evs & Hrun & _ & _ & _ & _ & _ & Hsd & _ & _ & _ & _
        & Hcross & _).
  - reflexivity.
  - reflexivity.
  - reflexivity.
  - simpl. lia.
  - by repeat constructor.
  - assert (Hlt : (elapsed scenario_B (Game.wall scenario_B (Game.reads scenario_B))
                   < @GAME_DURATION rhythmGame)%Q) by (vm_compute; reflexivity).
    specialize (Hrun Hlt).
    destruct (Hcross marker_B) as (Hc & e & He & Hst & Hl).
    + by apply list_elem_of_here.
    + reflexivity.
    + vm_compute. reflexivity.
    + exists g'. split; [exact Hrun|]. split; [exact Hc|]. split.
      * exists e. split; [|by split]. rewrite Hsd. apply elem_of_app. by right.
      * assert (E : Ok (tt, g') = @Game.update rhythmGame no_input scenario_B)
          by (symmetry; exact Hrun).
        vm_compute in E. injection E as ->. reflexivity.
Defined.

Section Levels.
Context `{K : Constants}.

Lemma set_level_ok (n : Z) (dm : DifficultyManager.t) :
  (1 ≤ n)%Z →
  ∃ dm',
    DifficultyManager.set_level n dm = Ok dm'
    ∧ DifficultyManager.levels dm' = DifficultyManager.levels dm
    ∧ DifficultyManager.current_level dm' = n
    ∧ (∀ l, DifficultyManager.levels dm !! Z.to_nat (n - 1) = Some l →
         DifficultyManager.current_speed dm' = Level.speed l
         ∧ DifficultyManager.current_acceleration dm' = Level.acceleration l)
    ∧ ((Z.of_nat (length (DifficultyManager.levels dm)) < n)%Z →
       DifficultyManager.current_speed dm' = DifficultyManager.current_speed dm
       ∧ DifficultyManager.current_acceleration dm'
         = DifficultyManager.current_acceleration dm).
Proof.
  intros Hn. unfold DifficultyManager.set_level. cbn [DifficultyManager.levels].
  destruct (Z.leb_spec n (Z.of_nat (length (DifficultyManager.levels dm)))) as [Hle|Hgt].
  - destruct (lookup_lt_is_Some_2 (DifficultyManager.levels dm) (Z.to_nat (n - 1)))
      as [l Hl]; [lia|].
    assert (Hg : list_getitem (DifficultyManager.levels dm) (n - 1) = Ok l)
      by (apply list_getitem_nonneg; [lia|done]).
    rewrite !Hg. cbn [mbind result_bind DifficultyManager.levels]. rewrite ?Hg.
    eexists. split; [reflexivity|]. cbn. split; [done|]. split; [done|]. split.
    + intros l' Hl'. rewrite Hl in Hl'. by injection Hl' as <-.
    + lia.
  - eexists. split; [reflexivity|]. cbn. split; [done|]. split; [done|]. split; [|done].
    intros l Hl. apply lookup_lt_Some in Hl. lia.
Qed.

Lemma answers_rated (inp : Input.t) (answers : list Z) :
  Input.answers inp = Some answers → Input.feedback inp = Input.rated answers.
Proof. unfold Input.answers. destruct (Input.feedback inp); congruence. Qed.

Lemma show_feedback_run (inp : Input.t) (skipped : bool) (answers : list Z) (g : Game.t) :
  Input.answers inp = Some answers →
  Forall (fun d => (Data.lane d < length KEYS)%nat) (session_data g) →
  Game.pygame_quit g = false →
  Game.show_feedback inp skipped g
  = Ok (tt, Game.set_data_collector (fed skipped answers g) g).
Proof.
  intros Ha%answers_rated Hall Hq. unfold Game.show_feedback. rewrite Ha.
  cbv [Game.pygame_call]. run_M. rewrite Hq.
  by rewrite analyze_data_summary.
Qed.

Lemma advance_level_finished (g : Game.t) :
  (LEVELS < Game.current_level g + 1)%Z → advance_level g = Ok (tt, finished g).
Proof.
  intros Hl. unfold advance_level. run_M.
  cbn [Game.current_level Game.set_current_level].
  destruct (Z.ltb_spec LEVELS (Game.current_level g + 1)) as [_|?]; [|lia].
  reflexivity.
Qed.

Lemma advance_level_next (g : Game.t) :
  (Game.current_level g + 1 ≤ LEVELS)%Z → (1 ≤ Game.current_level g + 1)%Z →
  ∃ dm,
    DifficultyManager.set_level (Game.current_level g + 1) (Game.difficulty_manager g)
    = Ok dm
    ∧ advance_level g = Ok (tt, next_level dm g).
Proof.
  intros Hl H1.
  destruct (set_level_ok (Game.current_level g + 1) (Game.difficulty_manager g) H1)
    as (dm & Hdm & _).
  exists dm. split; [done|]. unfold advance_level. run_M.
  cbn [Game.current_level Game.difficulty_manager Game.set_current_level].
  destruct (Z.ltb_spec LEVELS (Game.current_level g + 1)) as [?|_]; [lia|].
  rewrite Hdm. reflexivity.
Qed.

End Levels.

Section Invariant.
Context `{K : Constants}.

Lemma record_hit_appended (now : Q) (note : Note.t) (level : Z) (st : HitStatus)
    (dc : DataCollector.t) :
  ∃ e, events_appended [e] dc (DataCollector.record_hit now note level st dc)
       ∧ Data.lane e = Note.lane note
       ∧ Data.hit_status e = st
       ∧ Data.level e = level.
Proof. eexists. split; [by destruct dc|]. by repeat split. Qed.

Lemma consistent_events (evs : list Data.t) (dc : DataCollector.t) (g : Game.t)
    (c h i t : Z) :
  consistent g →
  events_appended evs (Game.data_collector g) dc →
  Forall (fun e => (Data.lane e < length KEYS)%nat) evs →
  (0 ≤ c ≤ h)%Z → (h ≤ t)%Z → (0 ≤ i)%Z →
  consistent
    (Game.set_combo c
       (Game.set_hits h
          (Game.set_incorrect_hits i
             (Game.set_total_notes t (Game.set_data_collector dc g))))).
Proof.
  intros (Hq & Hn & Hl & Hs & Hp & Hlev & Hc & Hh & Hi) (Hsd & Her & _) Hev Hc' Hh' Hi'.
  unfold consistent, session_data in *.
  destruct g as [? ? ? ? ? ? ? ? [] ? ? ? ? ? ? ? ? ? ? ? ? ?]. cbn in *. split; [exact Hq|].
  rewrite Hsd, Her.
  split; [done|]. split; [by apply Forall_app|]. split; [by apply suffix_app|].
  repeat split; try done; lia.
Qed.

Lemma consistent_tick (inp : Input.t) (ns : list Note.t) (evs : list Data.t)
    (g g' : Game.t) :
  consistent g → tick_frame inp ns evs g g' → Forall ticked ns → consistent g'.
Proof.
  intros Hg (lst & c & t & dc & r & -> & -> & -> & Hdc & Hr & Hev) Hns.
  assert (Hlanes : Forall (fun e => (Data.lane e < length KEYS)%nat) evs).
  { eapply Forall_impl; [exact Hev|]. by intros e (_ & ? & _). }
  destruct Hg as (Hq & Hn & Hl & Hs & Hp & Hlev & Hc & Hh & Hi).
  destruct Hdc as (Hsd & Her & _).
  unfold consistent, session_data in *.
  destruct g as [? ? ? ? ? ? ? ? [] ? ? ? ? ? ? ? ? ? ? ? ? ?]. cbn in *. split; [exact Hq|].
  rewrite Hsd, Her.
  split; [eapply Forall_impl; [exact Hns|apply ticked_ok]|].
  split; [by apply Forall_app|]. split; [by apply suffix_app|].
  split; [done|]. split; [done|].
  split; [destruct evs; lia|]. split; lia.
Qed.

Lemma consistent_fed (skipped : bool) (answers : list Z) (g : Game.t) :
  consistent g → consistent (Game.set_data_collector (fed skipped answers g) g).
Proof.
  intros (Hq & Hn & Hl & Hs & Hp & Hlev & Hc & Hh & Hi).
  unfold consistent, session_data in *.
  destruct g as [? ? ? ? ? ? ? ? [] ? ? ? ? ? ? ? ? ? ? ? ? ?]. cbn in *. split; [exact Hq|].
  split; [done|]. split; [constructor|]. split; [apply suffix_nil|]. repeat split; try done; lia.
Qed.

Lemma consistent_finished (g : Game.t) : consistent g → consistent (finished g).
Proof.
  intros (Hq & Hn & Hl & Hs & Hp & Hlev & Hc & Hh & Hi).
  unfold consistent, session_data in *.
  destruct g as [? ? ? ? ? ? ? ? [] ? ? ? ? ? ? ? ? ? ? ? ? ?]. cbn in *. split; [exact Hq|].
  repeat split; try done; lia.
Qed.

Lemma consistent_next_level (dm : DifficultyManager.t) (g : Game.t) :
  consistent g → consistent (next_level dm g).
Proof.
  intros (Hq & Hn & Hl & Hs & Hp & Hlev & Hc & Hh & Hi).
  unfold consistent, session_data in *.
  destruct g as [? ? ? ? ? ? ? ? [] ? ? ? ? ? ? ? ? ? ? ? ? ?]. cbn in *. split; [exact Hq|].
  split; [constructor|]. repeat split; try done; lia.
Qed.

Lemma consistent_flags (g : Game.t) (r m o : bool) :
  consistent g →
  consistent (Game.set_running r (Game.set_in_menu m (Game.set_game_over o g))).
Proof.
  intros (Hq & Hn & Hl & Hs & Hp & Hlev & Hc & Hh & Hi).
  unfold consistent, session_data in *.
  destruct g as [? ? ? ? ? ? ? ? [] ? ? ? ? ? ? ? ? ? ? ? ? ?]. cbn in *. split; [exact Hq|].
  repeat split; try done; lia.
Qed.

Lemma consistent_after_hit (g : Game.t) (pre post : list Note.t) (n : Note.t) :
  consistent g → Game.notes g = pre ++ n :: post →
  consistent (after_hit (length pre) n g).
Proof.
  intros (Hq & Hn & Hl & Hs & Hp & Hlev & Hc & Hh & Hi) Hns.
  rewrite Hns in Hn. apply Forall_app in Hn as [Hpre [Hnn Hpost]%Forall_cons].
  unfold consistent, session_data, after_hit in *.
  destruct g as [? ? ? ? ? ? ? ? [ns ? ?] dc ? ? ? ? ? ? ? ? ? ? ? ?]. cbn in *. split; [exact Hq|]. subst ns.
  rewrite delete_middle.
  split; [by apply Forall_app|].
  split; [apply Forall_app; split; [done|]; constructor; [apply Hnn|constructor]|].
  split; [by apply suffix_app|]. repeat split; try done; lia.
Qed.

Lemma consistent_after_incorrect (g : Game.t) (lane : nat) :
  consistent g → (lane < length KEYS)%nat → consistent (after_incorrect lane g).
Proof.
  intros (Hq & Hn & Hl & Hs & Hp & Hlev & Hc & Hh & Hi) Hlane.
  unfold consistent, session_data, after_incorrect in *.
  destruct g as [? ? ? ? ? ? ? ? [ns ? ?] dc ? ? ? ? ? ? ? ? ? ? ? ?]. cbn in *. split; [exact Hq|].
  split; [done|].
  split; [apply Forall_app; split; [done|]; by repeat constructor|].
  split; [by apply suffix_app|]. repeat split; try done; lia.
Qed.

Lemma handle_note_hit_consistent (key : string) (g : Game.t) :
  key ∈ KEYS → consistent g →
  ∃ g', Game.handle_note_hit key g = Ok (tt, g') ∧ consistent g'.
Proof.
  intros Hkey Hg.
  assert (Hidx : ∃ lane, list_index KEYS key = Ok lane).
  { clear Hg. induction KEYS as [|k ks IH]; [by apply elem_of_nil in Hkey|].
    cbn. destruct (String.eqb k key) eqn:E; [by eexists|].
    apply elem_of_cons in Hkey as [->|Hin]; [by rewrite String.eqb_refl in E|].
    destruct (IH Hin) as [lane ->]. by eexists. }
  destruct Hidx as [lane Hidx].
  destruct (first_eligible_or_none lane (Game.notes g))
    as [Hall|(pre & n & post & Hns & Hpre & Hn)].
  - exists (after_incorrect lane g). split; [by apply handle_note_hit_incorrect|].
    apply consistent_after_incorrect; [done|]. by eapply list_index_lt.
  - exists (after_hit (length pre) n g). split; [by eapply handle_note_hit_hit|].
    by apply consistent_after_hit with post.
Qed.

End Invariant.

Section Flow.
Context `{K : Constants}.

(** X17: a tick of a running game that does not end the level never fails.
    The elapsed time is recomputed from the clock; at most one note is
    spawned, at position 0; after the tick no active note lies beyond the
    judgment line and every active note inside the judgment window carries
    its [start_hit_time]; each active note that the tick moves beyond the
    line is recorded as one miss of its lane, in list order, counted in
    [total_notes], and the combo is reset if there is one; hits, incorrect
    presses and the level are untouched, and the invariant is kept. *)
Theorem X17_tick_of_a_running_game (inp : Input.t) (g : Game.t) :
  Game.paused g = false → Game.in_menu g = false → Game.game_over g = false →
  (0 < length KEYS)%nat → consistent g →
  (elapsed g (Game.wall g (Game.reads g)) < GAME_DURATION)%Q →
  ∃ g' spawned evs,
    Game.update inp g = Ok (tt, g')
    ∧ Game.current_time g' = elapsed g (Game.wall g (Game.reads g))
    ∧ (length spawned ≤ 1)%nat
    ∧ Forall (fun n => Note.y n = 0%Q ∧ Note.state n = state_active) spawned
    ∧ (length (Game.notes g') ≤ length (Game.notes g) + length spawned)%nat
    ∧ Forall ticked (Game.notes g')
    ∧ session_data g' = session_data g ++ evs
    ∧ Forall (fun e => Data.hit_status e = status_miss
                       ∧ Data.level e = Game.current_level g) evs
    ∧ Data.lane <$> evs = crossing_lanes (Game.notes g ++ spawned)
    ∧ Game.total_notes g' = (Game.total_notes g + Z.of_nat (length evs))%Z
    ∧ Game.combo g' = match evs with [] => Game.combo g | _ => 0%Z end
    ∧ Game.hits g' = Game.hits g
    ∧ Game.incorrect_hits g' = Game.incorrect_hits g
    ∧ Game.current_level g' = Game.current_level g
    ∧ Game.hit_line_flash_timer g' = flash_after inp (Game.hit_line_flash_timer g)
    ∧ consistent g'.
Proof.
  intros Hp Hm Ho Hk Hg Hlt.
  destruct (update_run inp g Hp Hm Ho Hk) as
    (g4 & spawned & ns & evs & Hrun & Hframe & Hticked & Hlen & Hlanes & Hsp1 & Hsp & _);
    [apply Hg|].
  rewrite (proj2 (Qle_bool_false _ _) Hlt) in Hrun.
  exists g4, spawned, evs. split; [done|].
  assert (Hcons : consistent g4) by by eapply consistent_tick.
  destruct Hframe as (lst & c & t & dc & r & -> & -> & -> & (Hsd & _) & Hr & Hev).
  split; [done|]. split; [done|].
  split; [eapply Forall_impl; [exact Hsp|]; by intros n (_ & ? & _ & ?)|].
  split; [by rewrite length_app in Hlen|]. split; [done|].
  split; [done|].
  split; [eapply Forall_impl; [exact Hev|]; by intros e (? & _ & ?)|].
  do 7 (split; [done|]). exact Hcons.
Qed.

(** [update] on a game whose level has run its time. *)
Lemma update_level_end (inp : Input.t) (answers : list Z) (g : Game.t) :
  Game.paused g = false → Game.in_menu g = false → Game.game_over g = false →
  (0 < length KEYS)%nat → consistent g →
  (GAME_DURATION <= elapsed g (Game.wall g (Game.reads g)))%Q →
  Input.answers inp = Some answers →
  ∃ g4 ns evs,
    tick_frame inp ns evs g g4 ∧ consistent g4
    ∧ Game.update inp g
      = advance_level (Game.set_data_collector (fed false answers g4) g4).
Proof.
  intros Hp Hm Ho Hk Hg Hle Ha.
  destruct (update_run inp g Hp Hm Ho Hk) as
    (g4 & spawned & ns & evs & Hrun & Hframe & Hticked & _); [apply Hg|].
  rewrite (proj2 (Qle_bool_iff _ _) Hle) in Hrun.
  assert (Hcons : consistent g4) by by eapply consistent_tick.
  exists g4, ns, evs. split; [done|]. split; [done|].
  rewrite Hrun. cbv [mbind Game.M_bind].
  rewrite (show_feedback_run inp false answers g4 Ha); [done|apply Hcons|apply Hcons].
Qed.

(** X18: the tick that finds the time of the level used up, on a level
    that is not the last one, asks for the feedback and starts the next
    level: one feedback row and one analysis row of the level that ends are
    written, both marked as not exited and with the elapsed time as
    duration; the buffer of events and the list of notes are emptied, combo,
    hits, incorrect presses, paused time and elapsed time restart at 0 and
    the difficulty manager moves to the next level; [total_notes] is not
    reset, and the invariant is kept. *)
Theorem X18_level_completed (inp : Input.t) (answers : list Z) (g : Game.t) :
  Game.paused g = false → Game.in_menu g = false → Game.game_over g = false →
  (0 < length KEYS)%nat → consistent g →
  (GAME_DURATION <= elapsed g (Game.wall g (Game.reads g)))%Q →
  Input.answers inp = Some answers →
  (Game.current_level g + 1 ≤ LEVELS)%Z →
  ∃ g' row,
    Game.update inp g = Ok (tt, g')
    ∧ Game.current_level g' = (Game.current_level g + 1)%Z
    ∧ DifficultyManager.set_level (Game.current_level g + 1) (Game.difficulty_manager g)
      = Ok (Game.difficulty_manager g')
    ∧ Game.notes g' = [] ∧ session_data g' = []
    ∧ Game.combo g' = 0%Z ∧ Game.hits g' = 0%Z ∧ Game.incorrect_hits g' = 0%Z
    ∧ Game.total_paused_time g' = 0%Q ∧ Game.current_time g' = 0%Q
    ∧ (Game.total_notes g ≤ Game.total_notes g')%Z
    ∧ Game.in_menu g' = false ∧ Game.game_over g' = false ∧ Game.paused g' = false
    ∧ DataCollector.feedback_rows (Game.data_collector g')
      = DataCollector.feedback_rows (Game.data_collector g)
        ++ [Feedback.mk (Game.current_level g) answers
              (elapsed g (Game.wall g (Game.reads g))) false]
    ∧ DataCollector.analysis_rows (Game.data_collector g')
      = DataCollector.analysis_rows (Game.data_collector g) ++ [row]
    ∧ Analysis.level row = Game.current_level g
    ∧ Analysis.game_duration row = elapsed g (Game.wall g (Game.reads g))
    ∧ Analysis.exit_rate row = 0%Z
    ∧ consistent g'.
Proof.
  intros Hp Hm Ho Hk Hg Hle Ha Hlev.
  destruct (update_level_end inp answers g Hp Hm Ho Hk Hg Hle Ha)
    as (g4 & ns & evs & Hframe & Hcons & ->).
  set (gf := Game.set_data_collector (fed false answers g4) g4).
  assert (Hgf : consistent gf) by by apply consistent_fed.
  assert (Hl4 : Game.current_level gf = Game.current_level g
                ∧ Game.difficulty_manager gf = Game.difficulty_manager g).
  { destruct Hframe as (lst & c & t & dc & r & -> & _). by destruct g. }
  destruct Hl4 as [Hl4 Hdm4].
  destruct (advance_level_next gf) as (dm & Hdm & ->).
  { rewrite Hl4. lia. }
  { destruct Hg as (_ & _ & _ & _ & _ & ? & _). rewrite Hl4. lia. }
  rewrite Hl4, Hdm4 in Hdm.
  exists (next_level dm gf),
    (summary (Game.current_time g4) false
       (DataCollector.save_feedback (Game.current_level g4) answers
          (Game.current_time g4) false (Game.data_collector g4))).
  assert (Hnext : consistent (next_level dm gf)) by by apply consistent_next_level.
  destruct Hframe as (lst & c & t & dc & r & Hg4 & -> & -> & Hdc & Hr & Hev).
  destruct Hdc as (_ & _ & _ & _ & _ & _ & Hfb & Han).
  split_and!; try exact Hnext; try exact Hdm; try reflexivity;
    subst gf; rewrite Hg4;
    destruct g as [? ? ? ? ? ? ? ? [] ? ? ? ? ? ? ? ? ? ? ? ? ?]; cbn in *;
    rewrite ?Hfb, ?Han; try done; lia.
Qed.


(** [update] keeps the invariant. *)
Lemma update_consistent (inp : Input.t) (g : Game.t) :
  (0 < length KEYS)%nat → consistent g → is_Some (Input.answers inp) →
  ∃ g', Game.update inp g = Ok (tt, g') ∧ consistent g'.
Proof.
  intros Hk Hg [answers Ha].
  destruct (Game.paused g) eqn:Hp; [|destruct (Game.in_menu g) eqn:Hm;
    [|destruct (Game.game_over g) eqn:Ho]];
    try (exists g; split; [unfold Game.update; run_M; by rewrite ?Hp, ?Hm, ?Ho|done]).
  destruct (update_run inp g Hp Hm Ho Hk) as
    (g4 & spawned & ns & evs & Hrun & Hframe & Hticked & _); [apply Hg|].
  assert (Hcons : consistent g4) by by eapply consistent_tick.
  rewrite Hrun.
  destruct (Qle_bool GAME_DURATION (elapsed g (Game.wall g (Game.reads g))));
    [|by exists g4].
  cbv [mbind Game.M_bind].
  rewrite (show_feedback_run inp false answers g4 Ha); [|apply Hcons|apply Hcons].
  set (gf := Game.set_data_collector (fed false answers g4) g4).
  assert (Hgf : consistent gf) by by apply consistent_fed.
  destruct (Z.lt_ge_cases LEVELS (Game.current_level gf + 1)) as [Hl|Hl].
  - rewrite (advance_level_finished gf Hl). eexists. split; [reflexivity|].
    by apply consistent_finished.
  - destruct (advance_level_next gf) as (dm & _ & ->); [lia|..].
    { destruct Hgf as (_ & _ & _ & _ & _ & ? & _). lia. }
    eexists. split; [reflexivity|]. by apply consistent_next_level.
Qed.

(** X20: [update] never raises on a game that satisfies the invariant, as
    long as the questionnaire is answered, and it keeps the invariant; on a
    game that is paused, in the menu or over it changes nothing at all and
    does not even read the clock. *)
Theorem X20_update_keeps_invariant (inp : Input.t) (g : Game.t) :
  (0 < length KEYS)%nat → consistent g → is_Some (Input.answers inp) →
  ∃ g',
    Game.update inp g = Ok (tt, g')
    ∧ consistent g'
    ∧ (Game.paused g = true ∨ Game.in_menu g = true ∨ Game.game_over g = true → g' = g).
Proof.
  intros Hk Hg Ha.
  destruct (update_consistent inp g Hk Hg Ha) as (g' & Hrun & Hg').
  exists g'. split; [done|]. split; [done|]. intros Hidle.
  assert (Hsame : Game.update inp g = Ok (tt, g)).
  { unfold Game.update. run_M.
    destruct Hidle as [-> |[-> | ->]]; [done|..].
    - by destruct (Game.paused g).
    - by destruct (Game.paused g), (Game.in_menu g). }
  rewrite Hsame in Hrun. by injection Hrun as <-.
Qed.

End Flow.

(** A game at the start of a level satisfies the invariant. *)
Lemma consistent_fresh `{K : Constants} (g : Game.t) (ns : list Note.t) :
  Game.notes g = ns → Forall note_ok ns → session_data g = [] →
  Game.paused g = false → (1 ≤ Game.current_level g)%Z →
  Game.combo g = 0%Z → Game.hits g = 0%Z → (0 ≤ Game.total_notes g)%Z →
  (0 ≤ Game.incorrect_hits g)%Z → Game.pygame_quit g = false →
  consistent g.
Proof.
  intros Hns Hok Hsd Hp Hl Hc Hh Ht Hi Hq. unfold consistent.
  rewrite Hns, Hsd, Hp, Hc, Hh, Hq.
  split_and!; try done; try lia; try constructor; apply suffix_nil.
Qed.

Lemma started_consistent : @consistent rhythmGame started.
Proof. apply (consistent_fresh _ []); try (vm_compute; done); constructor. Qed.

Lemma scenario_miss_consistent : @consistent rhythmGame scenario_miss.
Proof.
  apply (consistent_fresh _ [marker_B]); try (vm_compute; done).
  constructor; [|constructor]. unfold note_ok. split_and!; try done. vm_compute. lia.
Qed.

Lemma late_session_consistent : @consistent rhythmGame late_session.
Proof. apply (consistent_fresh _ []); try (vm_compute; done); constructor. Qed.


Lemma X17_tick_of_a_running_game_witness :
  ∃ g' evs,
    @Game.update rhythmGame no_input scenario_miss = Ok (tt, g')
    ∧ session_data g' = session_data scenario_miss ++ evs
    ∧ Forall (fun e => Data.hit_status e = status_miss
                       ∧ Data.level e = Game.current_level scenario_miss) evs
    ∧ Game.total_notes g'
      = (Game.total_notes scenario_miss + Z.of_nat (length evs))%Z
    ∧ @consistent rhythmGame g'.
Proof.
  destruct (@X17_tick_of_a_running_game rhythmGame no_input scenario_miss)
    as (g' & spawned & evs & Hrun & _ & _ & _ & _ & _ & Hsd & Hev & _ & Ht & _ & _ & _
        & _ & _ & Hc).
  - reflexivity.
  - reflexivity.
  - reflexivity.
  - simpl. lia.
  - exact scenario_miss_consistent.
  - vm_compute. reflexivity.
  - exists g', evs. by split_and!.
Defined.

Lemma X18_level_completed_witness :
  ∃ g',
    @Game.update rhythmGame yes_input late_session = Ok (tt, g')
    ∧ Game.current_level g' = 2%Z
    ∧ Game.notes g' = []
    ∧ Game.hits g' = 0%Z
    ∧ @consistent rhythmGame g'.
Proof.
  destruct (@X18_level_completed rhythmGame yes_input [3; 3; 3]%Z late_session)
    as (g' & row & Hrun & Hl & _ & Hn & _ & _ & Hh & Hrest).
  - reflexivity.
  - reflexivity.
  - reflexivity.
  - simpl. lia.
  - exact late_session_consistent.
  - vm_compute. discriminate.
  - reflexivity.
  - vm_compute. discriminate.
  - exists g'. split; [exact Hrun|]. split; [exact Hl|]. split; [exact Hn|].
    split; [exact Hh|]. apply Hrest.
Defined.


Lemma X20_update_keeps_invariant_witness :
  ∃ g', @Game.update rhythmGame yes_input started = Ok (tt, g')
        ∧ @consistent rhythmGame g'.
Proof.
  destruct (@X20_update_keeps_invariant rhythmGame yes_input started)
    as (g' & Hrun & Hc & _).
  - simpl. lia.
  - exact started_consistent.
  - by eexists.
  - exists g'. by split.
Defined.

Section Events.
Context `{K : Constants}.

Lemma outcome_bind {A B} (m : Game.M A) (f : A → Game.M B) (g : Game.t)
    (Q1 : A → Game.t → Prop) (Q : B → Game.t → Prop) (E : Prop) :
  outcome Q1 E (m g) → (∀ a g1, Q1 a g1 → outcome Q E (f a g1)) →
  outcome Q E ((m ≫= f) g).
Proof.
  unfold outcome, mbind, Game.M_bind. destruct (m g) as [[a g1]|e]; [|done].
  intros H1 Hf. by apply Hf.
Qed.

Lemma skip_level_run (inp : Input.t) (answers : list Z) (g : Game.t) :
  Input.answers inp = Some answers →
  Forall (fun d => (Data.lane d < length KEYS)%nat) (session_data g) →
  Game.pygame_quit g = false →
  Game.skip_level inp g = advance_level (left_early answers g).
Proof.
  intros Ha Hall Hq.
  change (Game.skip_level inp g) with ((Game.show_feedback inp true;; advance_level) g).
  cbv [mbind Game.M_bind]. by rewrite (show_feedback_run inp true answers g Ha Hall Hq).
Qed.

Lemma return_to_menu_run (inp : Input.t) (answers : list Z) (g : Game.t) :
  Input.answers inp = Some answers →
  Forall (fun d => (Data.lane d < length KEYS)%nat) (session_data g) →
  Game.pygame_quit g = false →
  Game.return_to_menu inp g
  = Ok (tt, Game.set_game_over true (Game.set_in_menu true (left_early answers g))).
Proof.
  intros Ha Hall Hq. unfold Game.return_to_menu. cbv [mbind Game.M_bind].
  by rewrite (show_feedback_run inp true answers g Ha Hall Hq).
Qed.

Lemma advance_level_consistent (g : Game.t) :
  consistent g → ∃ g', advance_level g = Ok (tt, g') ∧ consistent g'.
Proof.
  intros Hg.
  destruct (Z.lt_ge_cases LEVELS (Game.current_level g + 1)) as [Hl|Hl].
  - rewrite (advance_level_finished g Hl). eexists. split; [reflexivity|].
    by apply consistent_finished.
  - destruct (advance_level_next g) as (dm & _ & ->); [lia|..].
    { destruct Hg as (_ & _ & _ & _ & _ & ? & _). lia. }
    eexists. split; [reflexivity|]. by apply consistent_next_level.
Qed.

Lemma skip_level_consistent (inp : Input.t) (g : Game.t) :
  consistent g → is_Some (Input.answers inp) →
  ∃ g', Game.skip_level inp g = Ok (tt, g') ∧ consistent g'.
Proof.
  intros Hg [answers Ha]. rewrite (skip_level_run inp answers g Ha) by apply Hg.
  apply advance_level_consistent. by apply consistent_fed.
Qed.

Lemma return_to_menu_consistent (inp : Input.t) (g : Game.t) :
  consistent g → is_Some (Input.answers inp) →
  ∃ g', Game.return_to_menu inp g = Ok (tt, g') ∧ consistent g'.
Proof.
  intros Hg [answers Ha]. rewrite (return_to_menu_run inp answers g Ha) by apply Hg.
  eexists. split; [reflexivity|].
  assert (Hf : consistent (left_early answers g)) by by apply consistent_fed.
  revert Hf. generalize (left_early answers g). clear. intros g.
  intros (Hq & Hn & Hl & Hs & Hp & Hlev & Hc & Hh & Hi).
  unfold consistent, session_data in *.
  destruct g as [? ? ? ? ? ? ? ? [] ? ? ? ? ? ? ? ? ? ? ? ? ?]. cbn in *. split; [exact Hq|].
  split_and!; try done; lia.
Qed.

Lemma consistent_paused_at (g : Game.t) : consistent g → consistent (paused_at g).
Proof.
  intros (Hq & Hn & Hl & Hs & Hp & Hlev & Hc & Hh & Hi).
  unfold consistent, session_data, paused_at in *.
  destruct g as [? ? ? ? ? ? ? ? [] ? ? ? ? ? ? ? ? ? ? ? ? ?]. cbn in *. split; [exact Hq|].
  split_and!; try done; try lia; by eexists.
Qed.

Lemma consistent_resumed_at (p : Q) (g : Game.t) :
  consistent g → consistent (resumed_at p g).
Proof.
  intros (Hq & Hn & Hl & Hs & Hp & Hlev & Hc & Hh & Hi).
  unfold consistent, session_data, resumed_at in *.
  destruct g as [? ? ? ? ? ? ? ? [] ? ? ? ? ? ? ? ? ? ? ? ? ?]. cbn in *. split; [exact Hq|].
  split_and!; try done; lia.
Qed.

Lemma init_game_consistent (inp : Input.t) (g : Game.t) :
  Game.pygame_quit g = false →
  ∃ g', Game.init_game inp g = Ok (tt, g')
        ∧ consistent g'
        ∧ Game.mode g' = Game.mode g ∧ Game.player_name g' = Game.player_name g
        ∧ Game.in_menu g' = Game.in_menu g ∧ Game.running g' = Game.running g
        ∧ Game.paused g' = false ∧ Game.game_over g' = false
        ∧ Game.current_level g' = 1%Z
        ∧ Game.notes g' = [] ∧ Game.total_notes g' = 0%Z
        ∧ Game.pause_start_time g' = None
        ∧ DataCollector.player_name (Game.data_collector g') = Game.player_name g
        ∧ DataCollector.mode (Game.data_collector g') = Game.mode g
        ∧ DataCollector.event_rows (Game.data_collector g') = [].
Proof.
  intros Hq. unfold Game.init_game. run_M.
  match goal with
  | |- context [DifficultyManager.set_level 1 ?dm] =>
    destruct (set_level_ok 1 dm) as (dm' & Hdm & _); [lia|]; rewrite Hdm
  end.
  eexists. split; [reflexivity|].
  split; [by apply (consistent_fresh _ [])|]. by split_and!.
Qed.

Lemma elem_of_list_index (key : string) :
  key ∈ KEYS → ∃ lane, list_index KEYS key = Ok lane.
Proof.
  induction KEYS as [|k ks IH]; intros Hkey; [by apply elem_of_nil in Hkey|].
  cbn. destruct (String.eqb k key) eqn:E; [by eexists|].
  apply elem_of_cons in Hkey as [->|Hin]; [by rewrite String.eqb_refl in E|].
  destruct (IH Hin) as [lane ->]. by eexists.
Qed.

(** The action bound to the key itself, before the dispatch on the menu. *)
Lemma key_action_outcome (inp : Input.t) (g : Game.t) (m : Game.M unit) (key : Key) :
  consistent g → answered inp →
  m = (match key return Game.M unit with
       | K_SPACE =>
         g ← Game.get;
         if negb (Game.in_menu g) && negb (Game.game_over g) then
           Game.modify (fun g => Game.set_paused (negb (Game.paused g)) g);;
           g ← Game.get;
           if Game.paused g then
             now ← Game.time_time;
             Game.modify (Game.set_pause_start_time (Some now))
           else
             now ← Game.time_time;
             match Game.pause_start_time g with
             | None => Game.raise TypeError
             | Some p =>
               let paused_duration := (now - p)%Q in
               Game.modify (fun g => Game.set_total_paused_time
                                       (Game.total_paused_time g + paused_duration) g);;
               Game.modify (Game.set_pause_start_time None)
             end
         else mret tt
       | K_s =>
         confirmed ← Game.confirm_action inp;
         if confirmed : bool then Game.skip_level inp else mret tt
       | K_m =>
         confirmed ← Game.confirm_action inp;
         if confirmed : bool then Game.return_to_menu inp else mret tt
       | K_q =>
         confirmed ← Game.confirm_action inp;
         if confirmed : bool then Game.modify (Game.set_running false) else mret tt
       | _ => mret tt
       end) →
  outcome (fun _ g' => consistent g')
    (Input.confirm inp = None ∧ (key = K_s ∨ key = K_m ∨ key = K_q)) (m g).
Proof.
  intros Hg [Ha _] ->. pose proof Hg as (Hq & _).
  assert (Hrun : ∀ g r, consistent g → consistent (Game.set_running r g)).
  { clear. intros g r (Hq & Hn & Hl & Hs & Hp & Hlev & Hc & Hh & Hi).
    unfold consistent, session_data in *.
    destruct g as [? ? ? ? ? ? ? ? [] ? ? ? ? ? ? ? ? ? ? ? ? ?]. cbn in *. split; [exact Hq|].
    split_and!; try done; lia. }
  destruct key; try exact Hg.
  - (* SPACE *)
    match goal with
    | |- outcome _ _ (?m g) =>
      assert (Hsp : ∃ g', m g = Ok (tt, g') ∧ consistent g');
        [|by destruct Hsp as (g' & -> & Hg')]
    end.
    destruct (Game.in_menu g) eqn:Hm.
    { exists g. split; [|done]. clear -Hm. destruct g. cbn in Hm. by subst. }
    destruct (Game.game_over g) eqn:Ho.
    { exists g. split; [|done]. clear -Hm Ho. destruct g. cbn in Hm, Ho. by subst. }
    destruct (Game.paused g) eqn:Hpa.
    + pose proof Hg as (_ & _ & _ & _ & Hp & _). destruct (Hp Hpa) as [p Hps].
      exists (resumed_at p g). split.
      { clear -Hm Ho Hpa Hps. destruct g. cbn in Hm, Ho, Hpa, Hps. by subst. }
      by apply consistent_resumed_at.
    + exists (paused_at g). split.
      { clear -Hm Ho Hpa. destruct g. cbn in Hm, Ho, Hpa. by subst. }
      by apply consistent_paused_at.
  - (* S *)
    unfold Game.confirm_action. destruct (Input.confirm inp) as [[|]|]; run_M;
      rewrite Hq; [|exact Hg|split_and!; auto].
    destruct (skip_level_consistent inp g Hg Ha) as (g' & -> & Hg'). exact Hg'.
  - (* M *)
    unfold Game.confirm_action. destruct (Input.confirm inp) as [[|]|]; run_M;
      rewrite Hq; [|exact Hg|split_and!; auto].
    destruct (return_to_menu_consistent inp g Hg Ha) as (g' & -> & Hg'). exact Hg'.
  - (* Q *)
    unfold Game.confirm_action. destruct (Input.confirm inp) as [[|]|]; run_M;
      rewrite Hq; [|exact Hg|split_and!; auto].
    by apply Hrun.
Qed.

(** The dispatch after the action of the key: a new game from the menu, a
    press in a lane otherwise. *)
Lemma key_dispatch_outcome (inp : Input.t) (g : Game.t) (key : Key) :
  consistent g → answered inp →
  ∃ g',
    (g ← Game.get;
     if Game.in_menu g then
       if bool_decide (key ∈ [K_1; K_2]) then
         Game.modify (Game.set_mode
           (Some (if bool_decide (key = K_1) then "test" else "normal")%string));;
         Game.get_player_name inp;;
         Game.modify (Game.set_in_menu false);;
         Game.init_game inp
       else mret tt
     else
       let key := upper (key_name key) in
       if bool_decide (key ∈ KEYS) then Game.handle_note_hit key else mret tt) g
    = Ok (tt, g')
    ∧ consistent g'.
Proof.
  intros Hg [_ [name Hname]]. pose proof Hg as (Hq & _).
  cbv [mbind Game.M_bind Game.get]. cbv zeta.
  destruct (Game.in_menu g).
  - destruct (bool_decide (key ∈ [K_1; K_2])); [|by exists g].
    cbv [Game.modify]. unfold Game.get_player_name. rewrite Hname.
    cbv [Game.modify mret mbind Game.M_bind Game.M_ret Game.pygame_call].
    cbn [Game.pygame_quit Game.set_mode]. rewrite Hq.
    match goal with
    | |- context [Game.init_game inp ?g0] =>
      destruct (init_game_consistent inp g0) as (g' & -> & Hg' & _)
    end; [exact Hq|]. by exists g'.
  - destruct (bool_decide (upper (key_name key) ∈ KEYS)) eqn:Hk; [|by exists g].
    apply bool_decide_eq_true in Hk. by apply handle_note_hit_consistent.
Qed.

Lemma bind_Raise {A B} (m : Game.M A) (f : A → Game.M B) (g : Game.t) (e : PyError) :
  (m ≫= f) g = Raise e →
  m g = Raise e ∨ ∃ a g', m g = Ok (a, g') ∧ f a g' = Raise e.
Proof.
  cbv [mbind Game.M_bind]. destruct (m g) as [[a g']|e'].
  - intros H. right. by exists a, g'.
  - intros [= ->]. by left.
Qed.

Lemma handle_event_outcome (inp : Input.t) (event : Event) (g : Game.t) :
  consistent g → answered inp →
  (∃ g', Game.handle_event inp event g = Ok (tt, g') ∧ consistent g')
  ∨ (Game.handle_event inp event g = Raise SystemExit
     ∧ Input.confirm inp = None
     ∧ (event = KEYDOWN K_s ∨ event = KEYDOWN K_m ∨ event = KEYDOWN K_q)).
Proof.
  intros Hg Ha. destruct event as [|key|].
  - left. eexists. split; [reflexivity|].
    destruct Hg as (Hq & Hn & Hl & Hs & Hp & Hlev & Hc & Hh & Hi).
    unfold consistent, session_data in *.
    destruct g as [? ? ? ? ? ? ? ? [] ? ? ? ? ? ? ? ? ? ? ? ? ?]. cbn in *. split; [exact Hq|].
    split_and!; try done; lia.
  - destruct (Game.handle_event inp (KEYDOWN key) g) as [[[] g']|e] eqn:Hev.
    + left. exists g'. split; [done|]. unfold Game.handle_event in Hev.
      apply bind_Ok in Hev as ([] & g1 & Hact & Hdis).
      match type of Hact with
      | ?t = _ =>
        assert (Hout : outcome (fun _ g' => consistent g')
                         (Input.confirm inp = None
                          ∧ (key = K_s ∨ key = K_m ∨ key = K_q)) t)
          by (eapply key_action_outcome; [exact Hg|exact Ha|reflexivity])
      end.
      rewrite Hact in Hout. cbn in Hout.
      destruct (key_dispatch_outcome inp g1 key Hout Ha) as (g2 & Hd2 & Hg2).
      assert (E : Ok (tt, g2) = Ok (tt, g')) by (rewrite <- Hd2; exact Hdis).
      by injection E as <-.
    + right. unfold Game.handle_event in Hev.
      apply bind_Raise in Hev as [Hact|([] & g1 & Hact & Hdis)].
      * match type of Hact with
        | ?t = _ =>
          assert (Hout : outcome (fun _ g' => consistent g')
                           (Input.confirm inp = None
                            ∧ (key = K_s ∨ key = K_m ∨ key = K_q)) t)
            by (eapply key_action_outcome; [exact Hg|exact Ha|reflexivity])
        end.
        rewrite Hact in Hout. cbn in Hout. destruct Hout as (-> & Hc & Hkey).
        split; [done|]. split; [done|].
        destruct Hkey as [->|[->| ->]]; auto.
      * match type of Hact with
        | ?t = _ =>
          assert (Hout : outcome (fun _ g' => consistent g')
                           (Input.confirm inp = None
                            ∧ (key = K_s ∨ key = K_m ∨ key = K_q)) t)
            by (eapply key_action_outcome; [exact Hg|exact Ha|reflexivity])
        end.
        rewrite Hact in Hout. cbn in Hout.
        destruct (key_dispatch_outcome inp g1 key Hout Ha) as (g2 & Hd2 & Hg2).
        assert (E : Ok (tt, g2) = Raise e) by (rewrite <- Hd2; exact Hdis).
        discriminate E.
  - left. by exists g.
Qed.

(** [handle_input] on a game whose window is open is its loop. *)
Lemma handle_input_open (events : list (Input.t * Event)) (g : Game.t) :
  Game.pygame_quit g = false →
  Game.handle_input events g = Game.handle_input_loop events g.
Proof. intros Hq. unfold Game.handle_input. run_M. by rewrite Hq. Qed.

Lemma handle_input_loop_safe (events : list (Input.t * Event)) (g : Game.t) :
  consistent g →
  Forall (fun ie => answered ie.1) events →
  (∃ g', Game.handle_input_loop events g = Ok (tt, g') ∧ consistent g')
  ∨ (Game.handle_input_loop events g = Raise SystemExit
     ∧ ∃ inp key, (inp, KEYDOWN key) ∈ events ∧ Input.confirm inp = None
                  ∧ key ∈ [K_s; K_m; K_q]).
Proof.
  revert g. induction events as [|[inp event] events IH]; intros g Hg Hall.
  - left. by exists g.
  - apply Forall_cons in Hall as [Ha Hall]. cbn [Game.handle_input_loop].
    cbv [mbind Game.M_bind].
    destruct (handle_event_outcome inp event g Hg Ha)
      as [(g1 & -> & Hg1)|(-> & Hc & Hkey)].
    + destruct (IH g1 Hg1 Hall) as [(g' & Hrun & Hg')|(Hrun & inp' & key & Hin & Hc & Hk)].
      * left. by exists g'.
      * right. split; [done|]. exists inp', key. split; [by right|done].
    + right. split; [done|].
      destruct Hkey as [->|[->| ->]]; eexists inp, _; (split; [by left|]);
        (split; [done|]); set_solver.
Qed.

Lemma handle_input_safe (events : list (Input.t * Event)) (g : Game.t) :
  consistent g →
  Forall (fun ie => answered ie.1) events →
  (∃ g', Game.handle_input events g = Ok (tt, g') ∧ consistent g')
  ∨ Game.handle_input events g = Raise SystemExit.
Proof.
  intros Hg Hall. rewrite handle_input_open by apply Hg.
  destruct (handle_input_loop_safe events g Hg Hall) as [?|[? _]]; [by left|by right].
Qed.

Lemma questionnaire_without_character (inp : Input.t) (key : Key) (g : Game.t) :
  Game.pygame_quit g = false → key = K_s ∨ key = K_m →
  Input.confirm inp = Some true → Input.feedback inp = Input.empty_unicode →
  Game.handle_event inp (KEYDOWN key) g = Raise ValueError.
Proof.
  intros Hq Hkey Hc Hf. unfold Game.handle_event.
  destruct Hkey as [-> | ->];
    unfold Game.confirm_action, Game.skip_level, Game.return_to_menu, Game.show_feedback;
    rewrite Hc, Hf; run_M; rewrite Hq; cbv beta iota; rewrite ?Hq; reflexivity.
Qed.

Lemma fresh_skip_or_menu (inp : Input.t) (key : Key) (f : Fresh.t) :
  Fresh.pygame_quit f = false → key = K_s ∨ key = K_m →
  Input.confirm inp = Some true → is_Some (Input.answers inp) →
  Game.fresh_handle_event inp (KEYDOWN key) f = Raise AttributeError.
Proof.
  intros Hq Hkey Hc [a Ha%answers_rated]. unfold Game.fresh_handle_event.
  destruct Hkey as [-> | ->];
    unfold Fresh.confirm_action, Fresh.skip_level, Fresh.return_to_menu, Fresh.show_feedback;
    rewrite Hq, Hc, Ha; reflexivity.
Qed.

(** X21: [handle_input] on a game on which [init_game] has run, whose
    window is open and which satisfies the invariant. As long as every
    questionnaire that the events open is answered with ratings (the window
    is not closed, no key without a character is pressed) and every prompt
    for the name is ended with the return key, [handle_input] returns a game
    that satisfies the invariant, unless the player closes the window of a
    confirmation dialog, which ends the program with [exit()]: no
    [ValueError] from [KEYS.index], no [KeyError] from the analysis, no
    [TypeError] from the resume of a pause, no [IndexError] from the list of
    levels. The provisos are needed: a key without a character in the
    questionnaire that S or M opens makes [handle_input] raise
    [ValueError]; and on the object that [Game()] leaves, on which
    [init_game] has not run, S or M confirmed and answered raises
    [AttributeError]. *)
Theorem X21_handle_input_keeps_invariant (events : list (Input.t * Event)) (g : Game.t) :
  consistent g →
  (Forall (fun ie => answered ie.1) events →
   (∃ g', Game.handle_input events g = Ok (tt, g') ∧ consistent g')
   ∨ (Game.handle_input events g = Raise SystemExit
      ∧ ∃ inp key, (inp, KEYDOWN key) ∈ events ∧ Input.confirm inp = None
                   ∧ key ∈ [K_s; K_m; K_q]))
  ∧ (∀ inp key rest,
       key = K_s ∨ key = K_m → Input.confirm inp = Some true →
       Input.feedback inp = Input.empty_unicode →
       Game.handle_input ((inp, KEYDOWN key) :: rest) g = Raise ValueError)
  ∧ (∀ inp key rest (f : Fresh.t),
       Fresh.pygame_quit f = false → key = K_s ∨ key = K_m →
       Input.confirm inp = Some true → is_Some (Input.answers inp) →
       Game.fresh_handle_input ((inp, KEYDOWN key) :: rest) f = Raise AttributeError).
Proof.
  intros Hg. pose proof Hg as (Hq & _). split; [|split].
  - intros Hall. rewrite handle_input_open by exact Hq.
    by apply handle_input_loop_safe.
  - intros inp key rest Hkey Hc Hf. rewrite handle_input_open by exact Hq.
    cbn [Game.handle_input_loop]. cbv [mbind Game.M_bind].
    by rewrite questionnaire_without_character.
  - intros inp key rest f Hf Hkey Hc Ha. unfold Game.fresh_handle_input. rewrite Hf.
    cbn [Game.fresh_handle_input_loop]. cbv [mbind result_bind].
    by rewrite fresh_skip_or_menu.
Qed.
(** X22: [skip_level] on a level that is not the last one. One feedback
    row and one analysis row of the level that is left are written, marked
    as exited, with the elapsed time of the last tick as duration; the
    buffer and the notes are emptied, the next level is selected, the clock
    of the level restarts at the next reading of the wall clock and combo,
    hits, incorrect presses and paused time restart at 0. What is not
    reset: [total_notes], the flash timer, and the pause: a game skipped
    while paused stays paused with the [pause_start_time] of the old level. *)
Theorem X22_skip_level_starts_next_level (inp : Input.t) (answers : list Z) (g : Game.t) :
  consistent g → Input.answers inp = Some answers →
  (Game.current_level g + 1 ≤ LEVELS)%Z →
  ∃ g' row,
    Game.skip_level inp g = Ok (tt, g')
    ∧ Game.current_level g' = (Game.current_level g + 1)%Z
    ∧ DifficultyManager.set_level (Game.current_level g + 1) (Game.difficulty_manager g)
      = Ok (Game.difficulty_manager g')
    ∧ Game.notes g' = [] ∧ session_data g' = []
    ∧ Game.combo g' = 0%Z ∧ Game.hits g' = 0%Z ∧ Game.incorrect_hits g' = 0%Z
    ∧ Game.total_paused_time g' = 0%Q ∧ Game.current_time g' = 0%Q
    ∧ Game.start_time g' = Game.wall g (Game.reads g)
    ∧ Game.total_notes g' = Game.total_notes g
    ∧ Game.hit_line_flash_timer g' = Game.hit_line_flash_timer g
    ∧ Game.paused g' = Game.paused g
    ∧ Game.pause_start_time g' = Game.pause_start_time g
    ∧ Game.in_menu g' = Game.in_menu g ∧ Game.game_over g' = Game.game_over g
    ∧ DataCollector.feedback_rows (Game.data_collector g')
      = DataCollector.feedback_rows (Game.data_collector g)
        ++ [Feedback.mk (Game.current_level g) answers (Game.current_time g) true]
    ∧ DataCollector.analysis_rows (Game.data_collector g')
      = DataCollector.analysis_rows (Game.data_collector g) ++ [row]
    ∧ Analysis.level row = Game.current_level g
    ∧ Analysis.game_duration row = Game.current_time g
    ∧ Analysis.exit_rate row = 1%Z
    ∧ consistent g'.
Proof.
  intros Hg Ha Hlev. rewrite (skip_level_run inp answers g Ha) by apply Hg.
  assert (Hgf : consistent (left_early answers g)) by by apply consistent_fed.
  destruct (advance_level_next (left_early answers g)) as (dm & Hdm & ->).
  { exact Hlev. }
  { destruct Hg as (_ & _ & _ & _ & _ & ? & _). cbn. lia. }
  exists (next_level dm (left_early answers g)),
    (summary (Game.current_time g) true
       (DataCollector.save_feedback (Game.current_level g) answers
          (Game.current_time g) true (Game.data_collector g))).
  assert (Hnext : consistent (next_level dm (left_early answers g)))
    by by apply consistent_next_level.
  split_and!; try exact Hnext; try exact Hdm; try reflexivity;
    clear; by destruct g as [? ? ? ? ? ? ? ? [] ? ? ? ? ? ? ? ? ? ? ? ? ?].
Qed.


(** X24: the pause does not suspend the judgment of presses. A key of
    [KEYS] pressed while the game is paused (and not in the menu) is judged
    as at any other time: one event is recorded, a hit exactly when the lane
    holds an active note inside the judgment window, an incorrect press
    otherwise; the game stays paused. *)
Theorem X24_press_while_paused (inp : Input.t) (name : string) (g : Game.t) :
  Game.paused g = true → Game.in_menu g = false →
  upper name ∈ KEYS →
  ∃ g' e lane,
    Game.handle_event inp (KEYDOWN (K_other name)) g = Ok (tt, g')
    ∧ list_index KEYS (upper name) = Ok lane
    ∧ session_data g' = session_data g ++ [e]
    ∧ (Data.hit_status e = status_hit ∨ Data.hit_status e = status_incorrect)
    ∧ (Data.hit_status e = status_hit ↔
       ∃ n, n ∈ Game.notes g ∧ Note.lane n = lane ∧ Note.state n = state_active
            ∧ (inject_Z (HIT_LINE_Y - NOTE_HEIGHT) <= Note.y n
               ∧ Note.y n <= inject_Z HIT_LINE_Y)%Q)
    ∧ Game.paused g' = true.
Proof.
  intros Hp Hm Hkey.
  destruct (elem_of_list_index _ Hkey) as [lane Hidx].
  assert (Hev : Game.handle_event inp (KEYDOWN (K_other name)) g
                = Game.handle_note_hit (upper name) g).
  { unfold Game.handle_event. cbv [mbind Game.M_bind mret Game.M_ret Game.get].
    rewrite Hm. cbn [key_name]. cbv zeta. by rewrite bool_decide_eq_true_2. }
  rewrite Hev.
  destruct (press_outcome g (upper name) lane Hidx) as (g' & e & Hrun & Hsd & Hst & Hiff).
  exists g', e, lane. split; [done|]. split; [done|]. split; [done|].
  split; [done|]. split; [done|].
  destruct (first_eligible_or_none lane (Game.notes g))
    as [Hall|(pre & n & post & Hns & Hpre & Hn)].
  - rewrite (handle_note_hit_incorrect _ _ _ Hidx Hall) in Hrun.
    injection Hrun as <-. clear -Hp. destruct g. cbn in *. done.
  - rewrite (handle_note_hit_hit _ _ _ _ _ _ Hidx Hns Hpre Hn) in Hrun.
    injection Hrun as <-. clear -Hp. destruct g. cbn in *. done.
Qed.

(** X25: the start of a game from the menu, while the window is open. Key 1
    selects test mode and key 2 normal mode; the name typed is stored,
    "Player" if it is empty, and [init_game] runs: the game leaves the menu
    at level 1, not paused, not over, with no note, the counters at 0, and
    a new collector for that name and mode with empty files. This is how a
    game is started again after a game over, and how the first game is
    started on the object that [Game()] leaves. *)
Theorem X25_start_from_menu (inp : Input.t) (key : Key) (name : string) (g : Game.t) :
  Game.in_menu g = true → Game.pygame_quit g = false → key = K_1 ∨ key = K_2 →
  Input.typed_name inp = Some name →
  (∃ g',
    Game.handle_event inp (KEYDOWN key) g = Ok (tt, g')
    ∧ Game.mode g' = Some (if bool_decide (key = K_1) then "test" else "normal")%string
    ∧ Game.player_name g'
      = Some (if bool_decide (name = ""%string) then "Player"%string else name)
    ∧ Game.in_menu g' = false ∧ Game.game_over g' = false ∧ Game.paused g' = false
    ∧ Game.running g' = Game.running g
    ∧ Game.current_level g' = 1%Z
    ∧ Game.notes g' = [] ∧ Game.total_notes g' = 0%Z
    ∧ DataCollector.player_name (Game.data_collector g') = Game.player_name g'
    ∧ DataCollector.mode (Game.data_collector g') = Game.mode g'
    ∧ DataCollector.event_rows (Game.data_collector g') = []
    ∧ consistent g')
  ∧ (∀ f : Fresh.t,
       Fresh.in_menu f = true → Fresh.pygame_quit f = false →
       ∃ g',
         Game.fresh_handle_event inp (KEYDOWN key) f = Ok (inr g')
         ∧ Game.mode g' = Some (if bool_decide (key = K_1) then "test" else "normal")%string
         ∧ Game.player_name g'
           = Some (if bool_decide (name = ""%string) then "Player"%string else name)
         ∧ Game.in_menu g' = false ∧ Game.game_over g' = false ∧ Game.paused g' = false
         ∧ Game.running g' = Fresh.running f
         ∧ Game.current_level g' = 1%Z
         ∧ Game.notes g' = [] ∧ Game.total_notes g' = 0%Z
         ∧ DataCollector.player_name (Game.data_collector g') = Game.player_name g'
         ∧ DataCollector.mode (Game.data_collector g') = Game.mode g'
         ∧ DataCollector.event_rows (Game.data_collector g') = []
         ∧ consistent g').
Proof.
  intros Hm Hq Hkey Hname.
  assert (Hb : bool_decide (key ∈ [K_1; K_2]) = true).
  { apply bool_decide_eq_true. destruct Hkey as [->| ->]; set_solver. }
  split.
  - set (g0 := Game.set_in_menu false
                 (Game.set_player_name
                    (Some (if bool_decide (name = ""%string) then "Player"%string else name))
                    (Game.set_mode
                       (Some (if bool_decide (key = K_1) then "test" else "normal")%string)
                       g))).
    assert (Hev : Game.handle_event inp (KEYDOWN key) g = Game.init_game inp g0).
    { unfold Game.handle_event, Game.get_player_name. rewrite Hname.
      cbv [mbind Game.M_bind mret Game.M_ret Game.get Game.modify Game.pygame_call].
      destruct Hkey as [->| ->]; rewrite Hm, Hb; cbn [Game.pygame_quit Game.set_mode];
        rewrite Hq; reflexivity. }
    rewrite Hev.
    destruct (init_game_consistent inp g0)
      as (g' & -> & Hg' & Hmode & Hpn & Hme & Hru & Hpa & Hov & Hl & Hns & Ht & _ & Hdn
          & Hdm & Her); [exact Hq|].
    exists g'. split; [done|]. rewrite Hmode, Hpn, Hme, Hru, Hdn, Hdm.
    by split_and!.
  - intros f Hfm Hfq.
    set (f0 := Fresh.set_in_menu false
                 (Fresh.set_player_name
                    (Some (if bool_decide (name = ""%string) then "Player"%string else name))
                    (Fresh.set_mode
                       (Some (if bool_decide (key = K_1) then "test" else "normal")%string)
                       f))).
    assert (Hev : Game.fresh_handle_event inp (KEYDOWN key) f
                  = '(_, g) ← Game.init_game inp (Game.blank f0); Ok (inr g)).
    { unfold Game.fresh_handle_event, Fresh.get_player_name. rewrite Hname.
      destruct Hkey as [->| ->]; cbn [mbind result_bind]; rewrite Hfm, Hb;
        cbn [Fresh.pygame_quit Fresh.set_mode]; rewrite Hfq; reflexivity. }
    rewrite Hev.
    destruct (init_game_consistent inp (Game.blank f0))
      as (g' & -> & Hg' & Hmode & Hpn & Hme & Hru & Hpa & Hov & Hl & Hns & Ht & _ & Hdn
          & Hdm & Her); [exact Hfq|].
    exists g'. split; [done|]. rewrite Hmode, Hpn, Hme, Hru, Hdn, Hdm.
    by split_and!.
Qed.
End Events.

Lemma scenario_A_consistent : @consistent rhythmGame scenario_A.
Proof.
  apply (consistent_fresh _ [marker_A]); try (vm_compute; done).
  constructor; [|constructor]. unfold note_ok. split_and!; try done. vm_compute. lia.
Qed.

Lemma X21_handle_input_keeps_invariant_witness :
  (∃ g', @Game.handle_input rhythmGame press_then_skip scenario_A = Ok (tt, g')
         ∧ @consistent rhythmGame g')
  ∧ @Game.handle_input rhythmGame [(shift_input, KEYDOWN K_s)] scenario_A
    = Raise ValueError
  ∧ @Game.fresh_handle_input rhythmGame [(full_input, KEYDOWN K_s)] (Game.__init__ epoch)
    = Raise AttributeError.
Proof.
  destruct (@X21_handle_input_keeps_invariant rhythmGame press_then_skip scenario_A)
    as (Hsafe & Hkey & Hfresh).
  - exact scenario_A_consistent.
  - split; [|split].
    + destruct Hsafe as [H|(_ & inp & key & Hin & Hc & _)].
      * repeat constructor; by eexists.
      * exact H.
      * exfalso. unfold press_then_skip in Hin.
        repeat (apply elem_of_cons in Hin as [[= -> _]|Hin]; [discriminate Hc|]).
        by apply elem_of_nil in Hin.
    + apply Hkey; [by left|reflexivity|reflexivity].
    + apply Hfresh; [reflexivity|by left|reflexivity|by eexists].
Defined.

Lemma X22_skip_level_starts_next_level_witness :
  ∃ g',
    @Game.skip_level rhythmGame yes_input scenario_A = Ok (tt, g')
    ∧ Game.current_level g' = 2%Z
    ∧ Game.notes g' = []
    ∧ Game.paused g' = Game.paused scenario_A
    ∧ Game.total_notes g' = Game.total_notes scenario_A.
Proof.
  destruct (@X22_skip_level_starts_next_level rhythmGame yes_input [3; 3; 3]%Z scenario_A)
    as (g' & row & Hrun & Hl & _ & Hn & _ & _ & _ & _ & _ & _ & _ & Ht & _ & Hp & _).
  - exact scenario_A_consistent.
  - reflexivity.
  - vm_compute. discriminate.
  - exists g'. by split_and!.
Defined.


Lemma X24_press_while_paused_witness :
  ∃ g' e,
    @Game.handle_event rhythmGame no_input (KEYDOWN (K_other "j")) paused_session
    = Ok (tt, g')
    ∧ session_data g' = session_data paused_session ++ [e]
    ∧ Game.paused g' = true.
Proof.
  destruct (@X24_press_while_paused rhythmGame no_input "j" paused_session)
    as (g' & e & lane & Hrun & _ & Hsd & _ & _ & Hp).
  - reflexivity.
  - reflexivity.
  - apply (bool_decide_unpack (upper "j" ∈ @KEYS rhythmGame)). vm_compute. exact I.
  - exists g', e. by split_and!.
Defined.

Lemma X25_start_from_menu_witness :
  (∃ g',
     @Game.handle_event rhythmGame name_input (KEYDOWN K_2) (Game.set_in_menu true started)
     = Ok (tt, g')
     ∧ Game.mode g' = Some "normal"%string
     ∧ Game.in_menu g' = false
     ∧ Game.current_level g' = 1%Z)
  ∧ (∃ g',
       @Game.fresh_handle_event rhythmGame name_input (KEYDOWN K_2) (Game.__init__ epoch)
       = Ok (inr g')
       ∧ Game.mode g' = Some "normal"%string
       ∧ Game.player_name g' = Some "Ada"%string
       ∧ Game.in_menu g' = false
       ∧ Game.current_level g' = 1%Z).
Proof.
  destruct (@X25_start_from_menu rhythmGame name_input K_2 "Ada"
              (Game.set_in_menu true started))
    as [(g1 & Hrun1 & Hmode1 & _ & Hm1 & _ & _ & _ & Hl1 & _) Hfresh].
  - reflexivity.
  - reflexivity.
  - by right.
  - reflexivity.
  - destruct (Hfresh (Game.__init__ epoch))
      as (g' & Hrun & Hmode & Hname & Hm & _ & _ & _ & Hl & _).
    + reflexivity.
    + reflexivity.
    + split; [exists g1|exists g']; by split_and!.
Defined.

Section ConfirmAction.

Lemma confirm_batch (batch : list DialogEvent) : ∀ s : bool * bool,
  D_QUIT ∉ batch →
  for_in batch Dialogs.confirm_event s
  = Ok (match last (omap decision batch) with
        | Some b => (b, false)
        | None => s
        end).
Proof.
  induction batch as [|e batch IH]; intros [c w] Hq; [done|].
  apply not_elem_of_cons in Hq as [He Hq].
  cbn [for_in omap list_omap].
  assert (Hstep : Dialogs.confirm_event e (c, w)
                  = Ok (match decision e with Some b => (b, false) | None => (c, w) end)).
  { destruct e as [|key u|]; [done| |done]. cbn.
    by destruct (bool_decide (key = K_y)), (bool_decide (key = K_n)). }
  rewrite Hstep. cbn [mbind result_bind]. rewrite IH by done.
  destruct (decision e) as [b|]; [|done].
  destruct (omap decision batch) as [|b' l]; [done|].
  change (last (b :: b' :: l)) with (last (b' :: l)).
  destruct (last (b' :: l)) eqn:E; [done|]. by apply last_None in E.
Qed.

Lemma confirm_batch_quit (batch : list DialogEvent) : ∀ s : bool * bool,
  D_QUIT ∈ batch → for_in batch Dialogs.confirm_event s = Raise SystemExit.
Proof.
  induction batch as [|e batch IH]; intros [c w] Hq; [by apply elem_of_nil in Hq|].
  cbn [for_in]. destruct e as [|key u|].
  - done.
  - apply elem_of_cons in Hq as [?|Hq]; [done|]. cbn.
    destruct (bool_decide (key = K_y)), (bool_decide (key = K_n));
      cbn [mbind result_bind]; by apply IH.
  - apply elem_of_cons in Hq as [?|Hq]; [done|]. cbn [Dialogs.confirm_event mbind result_bind].
    by apply IH.
Qed.

Lemma confirm_idle (idle : list (list DialogEvent)) (rest : list (list DialogEvent)) :
  Forall (Forall (fun e => e ≠ D_QUIT ∧ decision e = None)) idle →
  Dialogs.confirm_action_loop (idle ++ rest) (false, true)
  = Dialogs.confirm_action_loop rest (false, true).
Proof.
  induction idle as [|batch idle IH]; intros Hidle; [done|].
  apply Forall_cons in Hidle as [Hb Hidle].
  cbn [app Dialogs.confirm_action_loop snd].
  rewrite confirm_batch.
  - assert (E : omap decision batch = []).
    { clear -Hb. induction Hb as [|e l [_ He] _ IH]; [done|]. cbn. by rewrite He. }
    rewrite E. cbn [last mbind result_bind]. by apply IH.
  - intros Hin. rewrite Forall_forall in Hb. by destruct (Hb _ Hin).
Qed.

(** X26: [confirm_action]. While no y, n or QUIT arrives, the dialog waits;
    it is answered by the first batch of events that holds a y or an n, and
    by the last such key of that batch, not the first; a QUIT in that batch
    ends the program, even when it comes after the answer. *)
Theorem X26_confirm_action_answer (idle : list (list DialogEvent))
    (batch : list DialogEvent) (rest : list (list DialogEvent)) :
  Forall (Forall (fun e => e ≠ D_QUIT ∧ decision e = None)) idle →
  Dialogs.confirm_action idle = Ok Waiting
  ∧ (∀ b, D_QUIT ∉ batch → last (omap decision batch) = Some b →
       Dialogs.confirm_action (idle ++ batch :: rest) = Ok (Answered b))
  ∧ (D_QUIT ∈ batch →
     Dialogs.confirm_action (idle ++ batch :: rest) = Raise SystemExit).
Proof.
  intros Hidle. unfold Dialogs.confirm_action. split; [|split].
  - rewrite <- (app_nil_r idle). by rewrite confirm_idle.
  - intros b Hq Hb. rewrite confirm_idle by done.
    cbn [Dialogs.confirm_action_loop snd]. rewrite confirm_batch by done. rewrite Hb.
    cbn [mbind result_bind]. by destruct rest.
  - intros Hq. rewrite confirm_idle by done.
    cbn [Dialogs.confirm_action_loop snd]. by rewrite confirm_batch_quit.
Qed.

End ConfirmAction.

Section Typing.

Lemma for_return_app {A S R} (l1 l2 : list A) (body : A → S → result (S + R)) (s : S) :
  for_return (l1 ++ l2) body s
  = r ← for_return l1 body s;
    match r with
    | inl s' => for_return l2 body s'
    | inr v => Ok (inr v)
    end.
Proof.
  revert s. induction l1 as [|a l1 IH]; intros s; [done|].
  cbn [app for_return]. destruct (body a s) as [[s'|v]|e]; cbn [mbind result_bind]; [|done..].
  apply IH.
Qed.

Lemma name_batch (batch : list DialogEvent) :
  ∀ (name : string) (active : bool) (player_name : option string),
  Forall typing batch →
  for_return batch Dialogs.name_event (name, active, player_name)
  = Ok (inl (foldl type_key name batch, active, player_name)).
Proof.
  induction batch as [|e batch IH]; intros name active pn Hb; [done|].
  apply Forall_cons in Hb as [He Hb]. cbn [for_return foldl].
  assert (Hstep : Dialogs.name_event e (name, active, pn)
                  = Ok (inl (type_key name e, active, pn))).
  { destruct e as [|key u|]; [done| |done]. cbn in He. cbn.
    rewrite (bool_decide_eq_false_2 _ He). by destruct (bool_decide (key = K_BACKSPACE)). }
  rewrite Hstep. cbn [mbind result_bind]. by apply IH.
Qed.

Lemma name_batches (pre rest : list (list DialogEvent)) :
  ∀ (name : string) (player_name : option string),
  Forall (Forall typing) pre →
  Dialogs.get_player_name_loop (pre ++ rest) (name, true, player_name)
  = Dialogs.get_player_name_loop rest (foldl type_key name (concat pre), true, player_name).
Proof.
  induction pre as [|batch pre IH]; intros name pn Hpre; [done|].
  apply Forall_cons in Hpre as [Hb Hpre].
  cbn [app Dialogs.get_player_name_loop fst snd concat].
  rewrite name_batch by done. cbn [mbind result_bind].
  rewrite foldl_app. by apply IH.
Qed.

Lemma drop_last_snoc (name : string) (c : Ascii.ascii) :
  drop_last (name +:+ String c EmptyString) = name.
Proof.
  induction name as [|a name IH]; [done|].
  destruct name as [|b name]; [done|].
  change (drop_last (String a (String b name) +:+ String c EmptyString))
    with (String a (drop_last (String b name +:+ String c EmptyString))).
  by rewrite IH.
Qed.

(** X27: [get_player_name]. The name is built from the keys in the order
    of arrival, over any number of batches of events: a key appends its
    [unicode], a backspace drops the last character (and undoes a
    one-character key before it). RETURN stores the name, or "Player" when
    the name is empty; what is typed after RETURN in the same batch is read
    but no longer stored. A QUIT before RETURN leaves [player_name] as it
    was, whatever has been typed. *)
Theorem X27_get_player_name_typing (pre : list (list DialogEvent))
    (keys more : list DialogEvent) (unicode : string)
    (rest : list (list DialogEvent)) (old : option string) :
  Forall (Forall typing) pre → Forall typing keys → Forall typing more →
  let name := foldl type_key ""%string (concat pre ++ keys) in
  Dialogs.get_player_name pre old = Ok Waiting
  ∧ Dialogs.get_player_name (pre ++ (keys ++ D_KEYDOWN K_RETURN unicode :: more) :: rest) old
    = Ok (Answered (Some (if bool_decide (name = ""%string) then "Player"%string
                          else name)))
  ∧ Dialogs.get_player_name (pre ++ (keys ++ D_QUIT :: more) :: rest) old
    = Ok (Closed old)
  ∧ (∀ key c u, key ≠ K_BACKSPACE →
       type_key (type_key name (D_KEYDOWN key (String c EmptyString)))
         (D_KEYDOWN K_BACKSPACE u) = name).
Proof.
  intros Hpre Hkeys Hmore name. unfold Dialogs.get_player_name.
  split; [|split; [|split]].
  - rewrite <- (app_nil_r pre). by rewrite name_batches.
  - rewrite name_batches by done. cbn [Dialogs.get_player_name_loop fst snd].
    rewrite for_return_app, name_batch by done. cbn [mbind result_bind for_return].
    cbn [Dialogs.name_event]. rewrite bool_decide_eq_true_2 by done.
    cbn [mbind result_bind]. rewrite name_batch by done. cbn [mbind result_bind].
    unfold name. rewrite foldl_app. by destruct rest.
  - rewrite name_batches by done. cbn [Dialogs.get_player_name_loop fst snd].
    rewrite for_return_app, name_batch by done. by cbn.
  - intros key c u Hkey. cbn [type_key].
    rewrite (bool_decide_eq_false_2 _ Hkey), bool_decide_eq_true_2 by done.
    apply drop_last_snoc.
Qed.

End Typing.

Section Questionnaire.

Lemma feedback_printable (e : DialogEvent) (answers : list Z) (q : Z) :
  printable e →
  Dialogs.feedback_event e (answers, q)
  = Ok (inl (match rating e with
             | Some n => (answers ++ [n], q + 1)%Z
             | None => (answers, q)
             end)).
Proof.
  destruct e as [|key u|]; [done| |done]. cbn [printable]. intros Hu.
  destruct u as [|c [|c' u]]; [done| |done]. clear Hu.
  cbn [Dialogs.feedback_event rating].
  destruct c as [[] [] [] [] [] [] [] []]; vm_compute; reflexivity.
Qed.

Lemma feedback_batch (batch : list DialogEvent) : ∀ (answers : list Z) (q : Z),
  Forall printable batch →
  for_return batch Dialogs.feedback_event (answers, q)
  = Ok (inl (answers ++ omap rating batch,
             q + Z.of_nat (length (omap rating batch)))%Z).
Proof.
  induction batch as [|e batch IH]; intros answers q Hb.
  - cbn. by rewrite app_nil_r, Z.add_0_r.
  - apply Forall_cons in Hb as [He Hb]. cbn [for_return omap list_omap].
    rewrite feedback_printable by done. cbn [mbind result_bind].
    destruct (rating e) as [n|]; rewrite IH by done; [|done].
    rewrite <- app_assoc. cbn [app length]. do 3 f_equal. lia.
Qed.

Lemma feedback_batches (pre rest : list (list DialogEvent)) : ∀ answers : list Z,
  Forall (Forall printable) pre →
  (length (answers ++ omap rating (concat pre)) < 3)%nat →
  Dialogs.show_feedback_loop (pre ++ rest) (answers, Z.of_nat (length answers))
  = Dialogs.show_feedback_loop rest
      (answers ++ omap rating (concat pre),
       Z.of_nat (length (answers ++ omap rating (concat pre)))).
Proof.
  induction pre as [|batch pre IH]; intros answers Hpre Hlen.
  - cbn. by rewrite app_nil_r.
  - apply Forall_cons in Hpre as [Hb Hpre].
    cbn [concat] in Hlen |- *. rewrite omap_app, app_assoc in Hlen |- *.
    cbn [app Dialogs.show_feedback_loop fst snd].
    rewrite length_app in Hlen.
    destruct (Z.ltb_spec (Z.of_nat (length answers)) 3) as [_|?];
      [|rewrite length_app in Hlen; lia].
    rewrite feedback_batch by done. cbn [mbind result_bind].
    rewrite <- Nat2Z.inj_add, <- length_app.
    apply IH; [done|]. by rewrite length_app.
Qed.

(** X28: the questionnaire of [show_feedback]. The keys 1 to 5 are the
    ratings, every other printable key is ignored, and the dialog waits
    until three ratings have arrived. The test [current_question < 3] is
    made between the batches of events only: all the ratings of the batch
    that brings the third one are kept, so that the list of answers can hold
    more than three. A key with an empty [unicode] (Shift, an arrow key)
    passes the test [event.unicode in "12345"], and [int('')] raises
    [ValueError]. A QUIT ends the dialog with nothing to save. *)
Theorem X28_questionnaire (pre : list (list DialogEvent)) (batch : list DialogEvent)
    (rest : list (list DialogEvent)) :
  Forall (Forall printable) pre →
  (length (omap rating (concat pre)) < 3)%nat →
  Dialogs.show_feedback pre = Ok Waiting
  ∧ (Forall printable batch →
     (3 ≤ length (omap rating (concat pre ++ batch)))%nat →
     Dialogs.show_feedback (pre ++ batch :: rest)
     = Ok (Answered (omap rating (concat pre ++ batch))))
  ∧ (∀ front back key, Forall printable front →
       batch = front ++ D_KEYDOWN key EmptyString :: back →
       Dialogs.show_feedback (pre ++ batch :: rest) = Raise ValueError)
  ∧ (∀ front back, Forall printable front →
       batch = front ++ D_QUIT :: back →
       Dialogs.show_feedback (pre ++ batch :: rest) = Ok (Closed tt)).
Proof.
  intros Hpre Hlen. unfold Dialogs.show_feedback.
  change 0%Z with (Z.of_nat (length (@nil Z))).
  assert (Hopen : ∀ rest',
            Dialogs.show_feedback_loop (pre ++ rest') ([], Z.of_nat (length (@nil Z)))
            = Dialogs.show_feedback_loop rest'
                (omap rating (concat pre),
                 Z.of_nat (length (omap rating (concat pre))))).
  { intros rest'. by rewrite feedback_batches. }
  assert (Hlt : (Z.of_nat (length (omap rating (concat pre))) <? 3)%Z = true) by lia.
  split; [|split; [|split]].
  - rewrite <- (app_nil_r pre), Hopen. cbn [Dialogs.show_feedback_loop snd].
    by rewrite Hlt.
  - intros Hb Hge. rewrite Hopen. cbn [Dialogs.show_feedback_loop snd]. rewrite Hlt.
    rewrite feedback_batch by done. cbn [mbind result_bind].
    rewrite omap_app in Hge |- *. rewrite length_app in Hge.
    assert (Hdone : (Z.of_nat (length (omap rating (concat pre)))
                     + Z.of_nat (length (omap rating batch)) <? 3)%Z = false) by lia.
    destruct rest; cbn [Dialogs.show_feedback_loop fst snd]; by rewrite Hdone.
  - intros front back key Hf ->. rewrite Hopen. cbn [Dialogs.show_feedback_loop snd].
    rewrite Hlt, for_return_app, feedback_batch by done. by cbn.
  - intros front back Hf ->. rewrite Hopen. cbn [Dialogs.show_feedback_loop snd].
    rewrite Hlt, for_return_app, feedback_batch by done. by cbn.
Qed.

End Questionnaire.

Ltac by_cases :=
  unfold hesitation, no_then_yes, typed_Adx, typed_back_a, first_rating, three_ratings,
    shift_key, K_y, K_n, K_RETURN, K_BACKSPACE;
  repeat first [apply Forall_nil | apply Forall_cons; split]; cbn;
  try done; try (by split).

Lemma X26_confirm_action_answer_witness :
  Dialogs.confirm_action (hesitation ++ [no_then_yes]) = Ok (Answered true).
Proof.
  destruct (X26_confirm_action_answer hesitation no_then_yes []) as (_ & Hanswer & _).
  - by_cases.
  - apply Hanswer; [|reflexivity].
    intros Hin. repeat (apply elem_of_cons in Hin as [Hin|Hin]; [discriminate Hin|]).
    by apply elem_of_nil in Hin.
Defined.

Lemma X27_get_player_name_typing_witness :
  Dialogs.get_player_name
    (typed_Adx ++ [typed_back_a ++ [D_KEYDOWN K_RETURN EmptyString]]) None
  = Ok (Answered (Some "Ada"%string)).
Proof.
  destruct (X27_get_player_name_typing typed_Adx typed_back_a [] EmptyString [] None)
    as (_ & Hname & _).
  - by_cases.
  - by_cases.
  - by_cases.
  - exact Hname.
Defined.

Lemma X28_questionnaire_witness :
  Dialogs.show_feedback (first_rating ++ [three_ratings]) = Ok (Answered [1; 2; 3; 4]%Z)
  ∧ Dialogs.show_feedback (first_rating ++ [shift_key]) = Raise ValueError.
Proof.
  split.
  - destruct (X28_questionnaire first_rating three_ratings []) as (_ & Hanswer & _).
    + by_cases.
    + simpl. lia.
    + apply Hanswer.
      * by_cases.
      * simpl. lia.
  - destruct (X28_questionnaire first_rating shift_key []) as (_ & _ & Hcrash & _).
    + by_cases.
    + simpl. lia.
    + apply (Hcrash [D_KEYDOWN (K_other "d") "d"] [] (K_other "left shift")); [|done].
      by_cases.
Defined.

Section Drawing.
Context `{K : Constants}.

Lemma draw_game_lanes (g : Game.t) :
  (0 < length KEYS)%nat →
  ∃ cmds, Draw.draw_game g = Ok cmds.
Proof.
  intros Hk. unfold Draw.draw_game, floordiv.
  destruct (Z.eqb_spec (Z.of_nat (length KEYS)) 0) as [?|_]; [lia|].
  by eexists.
Qed.

Lemma draw_total (get_width : Text → Z) (g : Game.t) :
  (0 < length KEYS)%nat → Game.pygame_quit g = false →
  ∃ cmds, Draw.draw get_width g = Ok cmds.
Proof.
  intros Hk Hq. unfold Draw.draw. rewrite Hq. destruct (Game.in_menu g).
  - unfold Draw.draw_menu, floordiv. cbn. by eexists.
  - destruct (draw_game_lanes g Hk) as [cmds ->]. by eexists.
Qed.




End Drawing.

Section MainLoop.
Context `{K : Constants}.

(** What [init_game] leaves of the flags, whether the window is open or not. *)
Lemma init_game_flags (inp : Input.t) (g : Game.t) :
  ∃ g', Game.init_game inp g = Ok (tt, g')
        ∧ Game.paused g' = false ∧ Game.game_over g' = false
        ∧ Game.in_menu g' = Game.in_menu g ∧ Game.running g' = Game.running g
        ∧ Game.notes g' = []
        ∧ Game.pygame_quit g' = Game.pygame_quit g.
Proof.
  unfold Game.init_game. run_M.
  match goal with
  | |- context [DifficultyManager.set_level 1 ?dm] =>
    destruct (set_level_ok 1 dm) as (dm' & Hdm & _); [lia|]; rewrite Hdm
  end.
  eexists. split; [reflexivity|]. by split_and!.
Qed.

(** A frame in which the window is closed at the prompt for the name. *)
Lemma closed_prompt_frame (get_width : Text → Z) (inp inp' : Input.t) (key : Key)
    (rest : list (list (Input.t * Event) * Input.t)) (g : Game.t) :
  (0 < length KEYS)%nat → Game.pygame_quit g = false →
  Game.running g = true → Game.in_menu g = true →
  key = K_1 ∨ key = K_2 → Input.typed_name inp = None →
  run get_width (([(inp, KEYDOWN key)], inp') :: rest) g = Raise pygame_error.
Proof.
  intros Hk Hq Hr Hm Hkey Hname.
  assert (Hb : bool_decide (key ∈ [K_1; K_2]) = true).
  { apply bool_decide_eq_true. destruct Hkey as [->| ->]; set_solver. }
  set (g0 := Game.set_in_menu false
               (Game.set_pygame_quit true
                  (Game.set_mode
                     (Some (if bool_decide (key = K_1) then "test" else "normal")%string)
                     g))).
  assert (Hev : Game.handle_input [(inp, KEYDOWN key)] g
                = (Game.init_game inp;; mret tt) g0).
  { rewrite handle_input_open by exact Hq. cbn [Game.handle_input_loop].
    unfold Game.handle_event, Game.get_player_name. rewrite Hname.
    cbv [mbind Game.M_bind mret Game.M_ret Game.get Game.modify Game.pygame_call].
    destruct Hkey as [->| ->]; rewrite Hm, Hb; cbn [Game.pygame_quit Game.set_mode];
      rewrite Hq; reflexivity. }
  destruct (init_game_flags inp g0) as (g1 & Hinit & Hp1 & Ho1 & Hm1 & Hr1 & Hn1 & Hq1).
  cbn [run]. cbv [mbind Game.M_bind Game.get mret Game.M_ret]. rewrite Hr.
  cbv [mbind Game.M_bind mret Game.M_ret] in Hev. rewrite Hev, Hinit.
  destruct (update_run inp' g1 Hp1 Hm1 Ho1 Hk) as (g4 & spawned & ns & evs & Hrun & Hframe & _).
  { rewrite Hn1. constructor. }
  assert (Hq4 : Game.pygame_quit g4 = true).
  { destruct Hframe as (lst & c & t & dc & r & -> & _). exact Hq1. }
  rewrite Hrun. destruct (Qle_bool GAME_DURATION _).
  - unfold Game.show_feedback. cbv [mbind Game.M_bind Game.pygame_call]. by rewrite Hq4.
  - unfold Game.lift, Draw.draw. by rewrite Hq4.
Qed.

(** Frames in which every dialog is answered. *)
Lemma run_safe (get_width : Text → Z)
    (frames : list (list (Input.t * Event) * Input.t)) : ∀ g : Game.t,
  (0 < length KEYS)%nat → consistent g →
  Forall (fun f => Forall (fun ie => answered ie.1) f.1
                   ∧ is_Some (Input.answers f.2)) frames →
  (∃ g', run get_width frames g = Ok (tt, g') ∧ consistent g')
  ∨ run get_width frames g = Raise SystemExit.
Proof.
  induction frames as [|[events inp] frames IH]; intros g Hk Hg Hall.
  - left. by exists g.
  - apply Forall_cons in Hall as [[Hev Hinp] Hall]. cbn [fst snd] in Hev, Hinp.
    cbn [run]. cbv [mbind Game.M_bind Game.get mret Game.M_ret].
    destruct (Game.running g); [|left; by exists g].
    destruct (handle_input_safe events g Hg Hev) as [(g1 & -> & Hg1)| ->]; [|by right].
    destruct (update_consistent inp g1 Hk Hg1 Hinp) as (g2 & -> & Hg2).
    destruct (draw_total get_width g2 Hk) as [cmds Hd]; [apply Hg2|].
    unfold Game.lift. rewrite Hd. by apply IH.
Qed.

(** X30: the main loop, on a game on which [init_game] has run. From a
    game that satisfies the invariant (its window is open), with at least
    one lane, any number of frames of [run] (the events of the frame, the
    update, the drawing) runs without an exception, whatever the keys, the
    clock and the random draws, as long as every questionnaire that opens is
    answered with ratings and every prompt for the name is ended with the
    return key; the only way out other than [running] turned off is the
    [exit()] of a confirmation dialog whose window is closed. The invariant
    holds after every frame. The proviso on the prompt is needed: when the
    window is closed at the prompt for the name, [init_game] and [update]
    still run, and the frame ends in [pygame.error], raised by the
    questionnaire if the level is over at once and by [draw] otherwise. *)
Theorem X30_run_never_fails (get_width : Text → Z)
    (frames : list (list (Input.t * Event) * Input.t)) (g : Game.t) :
  (0 < length KEYS)%nat → consistent g →
  (Forall (fun f => Forall (fun ie => answered ie.1) f.1
                    ∧ is_Some (Input.answers f.2)) frames →
   (∃ g', run get_width frames g = Ok (tt, g') ∧ consistent g')
   ∨ run get_width frames g = Raise SystemExit)
  ∧ (∀ inp inp' key rest,
       Game.running g = true → Game.in_menu g = true → key = K_1 ∨ key = K_2 →
       Input.typed_name inp = None →
       run get_width (([(inp, KEYDOWN key)], inp') :: rest) g = Raise pygame_error).
Proof.
  intros Hk Hg. split.
  - intros Hall. by apply run_safe.
  - intros inp inp' key rest Hr Hm Hkey Hname.
    apply closed_prompt_frame; try done. apply Hg.
Qed.

End MainLoop.


Lemma X30_run_never_fails_witness :
  (∃ g', @run rhythmGame fixed_width three_frames scenario_A = Ok (tt, g')
         ∧ @consistent rhythmGame g')
  ∧ @run rhythmGame fixed_width [([(no_input, KEYDOWN K_1)], no_input)]
      (Game.set_in_menu true scenario_A)
    = Raise pygame_error.
Proof.
  split.
  - destruct (@X30_run_never_fails rhythmGame fixed_width three_frames scenario_A)
      as [Hsafe _].
    + simpl. lia.
    + exact scenario_A_consistent.
    + destruct Hsafe as [H|H].
      * unfold three_frames.
        repeat first [apply Forall_nil | apply Forall_cons; split | apply conj]; cbn;
          try done; try (split; by eexists); by eexists.
      * exact H.
      * exfalso. vm_compute in H. discriminate H.
  - destruct (@X30_run_never_fails rhythmGame fixed_width [] (Game.set_in_menu true scenario_A))
      as [_ Hclosed].
    + simpl. lia.
    + apply (consistent_flags scenario_A true true false). exact scenario_A_consistent.
    + apply Hclosed; [reflexivity|reflexivity|by left|reflexivity].
Defined.
